(** * Webhook ingestion service: signature check, message store, queries

    A shallow embedding of [app/models.py], [app/storage.py] and
    [app/main.py], and the properties of its ingestion, query and
    aggregation paths.

    Conventions of the embedding.
    - A Python [str] is a [string]; one [ascii] is one character (the
      characters below U+0100).  A [bytes] value is a [string] too, one
      [ascii] per byte; [encode] is the UTF-8 encoding between the two.
    - A Python [int] is a [Z].  The engine takes an integer parameter of
      64 bits and a LIKE pattern of 50000 bytes at most; both limits are
      part of the embedding ([Storage.bind_int], [Storage.too_complex]).
      Its limit on the length of a string (10^9 bytes) is not.
    - A table is the list of its rows in the order they were written.
    - Exceptions are values of [exn], by class, carried by the [result]
      monad: the instances of [Exception].  What is no [Exception]
      (KeyboardInterrupt, SystemExit) ends the request without an answer
      of the application and is left out.
    - Storage faults are an input of the writing path, where the code
      catches them: a fault names the statement that fails and the
      exception it raises.  The reading functions are functions of the
      table and raise what the engine raises on their parameters; a fault
      of the storage there leaves no result to speak of (the exception is
      not caught and the request is answered 500).
    - What the SQL text leaves to the engine (the order of rows that compare
      equal under ORDER BY) and what the interpreter version decides
      ([datetime.fromisoformat]) are fields of the [Runtime] class. *)

From Stdlib Require Import ZArith List Bool Ascii String Lia Permutation Sorted.
From Stdlib Require Import DecimalString.
Import ListNotations.

Local Open Scope string_scope.
Local Open Scope list_scope.
Local Open Scope Z_scope.

(** ** Characters and strings *)

Definition code (c : ascii) : Z := Z.of_N (N_of_ascii c).

Definition chr (n : Z) : ascii := ascii_of_N (Z.to_N (n mod 256)).

Fixpoint codes (s : string) : list Z :=
  match s with
  | EmptyString => []
  | String c s' => code c :: codes s'
  end.

Fixpoint of_codes (l : list Z) : string :=
  match l with
  | [] => EmptyString
  | n :: l' => String (chr n) (of_codes l')
  end.

(** [str.encode()]: UTF-8 of a string of characters below U+0100. *)
Fixpoint encode (s : string) : string :=
  match s with
  | EmptyString => EmptyString
  | String c s' =>
      if code c <? 128 then String c (encode s')
      else String (chr (Z.lor 192 (Z.shiftr (code c) 6)))
             (String (chr (Z.lor 128 (Z.land (code c) 63))) (encode s'))
  end.

(** [str.isascii()]. *)
Fixpoint isascii (s : string) : bool :=
  match s with
  | EmptyString => true
  | String c s' => (code c <? 128) && isascii s'
  end.

(** Python truthiness of an [Optional[str]]: [None] and the empty string
    are both false. *)
Definition truthy (o : option string) : bool :=
  match o with
  | Some (String _ _) => true
  | _ => false
  end.

(** The string held by an [Optional[str]] that is not [None]. *)
Definition value (o : option string) : string :=
  match o with
  | Some s => s
  | None => EmptyString
  end.

(** ** SHA-256 and HMAC ([hashlib.sha256], [hmac.new(...).hexdigest()]) *)

Module Sha256.

Definition w32 (x : Z) : Z := x mod 4294967296.
Definition add32 (x y : Z) : Z := w32 (x + y).
Definition rotr (n x : Z) : Z :=
  Z.lor (Z.shiftr x n) (w32 (Z.shiftl x (32 - n))).
Definition not32 (x : Z) : Z := 4294967295 - x.

Definition choose (e f g : Z) : Z :=
  Z.lxor (Z.land e f) (Z.land (not32 e) g).
Definition majority (a b c : Z) : Z :=
  Z.lxor (Z.lxor (Z.land a b) (Z.land a c)) (Z.land b c).
Definition big0 (a : Z) : Z :=
  Z.lxor (Z.lxor (rotr 2 a) (rotr 13 a)) (rotr 22 a).
Definition big1 (e : Z) : Z :=
  Z.lxor (Z.lxor (rotr 6 e) (rotr 11 e)) (rotr 25 e).
Definition small0 (x : Z) : Z :=
  Z.lxor (Z.lxor (rotr 7 x) (rotr 18 x)) (Z.shiftr x 3).
Definition small1 (x : Z) : Z :=
  Z.lxor (Z.lxor (rotr 17 x) (rotr 19 x)) (Z.shiftr x 10).

(** The constants of the standard are the first 32 bits of the fractional
    parts of the roots of the first primes: cube roots of the first 64 for
    the rounds, square roots of the first 8 for the initial state. *)
Fixpoint root_search (fuel : nat) (k n lo hi : Z) : Z :=
  match fuel with
  | O => lo
  | S fuel' =>
      if hi - lo <=? 1 then lo
      else
        let mid := (lo + hi) / 2 in
        if mid ^ k <=? n then root_search fuel' k n mid hi
        else root_search fuel' k n lo mid
  end.

Definition fractional_root (k p : Z) : Z :=
  let n := p * 2 ^ (32 * k) in
  w32 (root_search 256 k n 0 (n + 1)).

Definition is_prime (n : nat) : bool :=
  forallb (fun d => negb (Nat.eqb (n mod d) 0)) (seq 2 (n - 2)).

Definition primes : list Z :=
  map Z.of_nat (filter is_prime (seq 2 310)).

Definition round_constants : list Z :=
  Eval vm_compute in map (fractional_root 3) (firstn 64 primes).

(** The eight working words. *)
Record state := mk_state {
  ha : Z; hb : Z; hc : Z; hd : Z; he : Z; hf : Z; hg : Z; hh : Z
}.

Definition initial_words : list Z :=
  Eval vm_compute in map (fractional_root 2) (firstn 8 primes).

Definition initial : state :=
  mk_state (nth 0 initial_words 0) (nth 1 initial_words 0)
           (nth 2 initial_words 0) (nth 3 initial_words 0)
           (nth 4 initial_words 0) (nth 5 initial_words 0)
           (nth 6 initial_words 0) (nth 7 initial_words 0).

(** Padding: a one bit, zeros up to 56 mod 64, the bit length on 8 bytes. *)
Definition be_bytes (n : nat) (x : Z) : list Z :=
  map (fun i => Z.land (Z.shiftr x (8 * Z.of_nat (n - 1 - i))) 255) (seq 0 n).

Definition pad (msg : list Z) : list Z :=
  let len := Z.of_nat (List.length msg) in
  let zeros := Z.to_nat ((55 - len) mod 64) in
  msg ++ [128] ++ repeat 0 zeros ++ be_bytes 8 (8 * len).

Fixpoint words (bs : list Z) : list Z :=
  match bs with
  | b0 :: b1 :: b2 :: b3 :: rest =>
      (b0 * 16777216 + b1 * 65536 + b2 * 256 + b3) :: words rest
  | _ => []
  end.

(** Message schedule: [sched] holds W[t-1], W[t-2], ... most recent first. *)
Fixpoint extend (n : nat) (sched : list Z) : list Z :=
  match n with
  | O => sched
  | S n' =>
      let wt := add32 (add32 (small1 (nth 1 sched 0)) (nth 6 sched 0))
                      (add32 (small0 (nth 14 sched 0)) (nth 15 sched 0)) in
      extend n' (wt :: sched)
  end.

Definition schedule (block : list Z) : list Z :=
  rev (extend 48 (rev block)).

Definition round (s : state) (kw : Z * Z) : state :=
  let t1 := add32 (add32 (add32 (hh s) (big1 (he s)))
                         (add32 (choose (he s) (hf s) (hg s)) (fst kw)))
                  (snd kw) in
  let t2 := add32 (big0 (ha s)) (majority (ha s) (hb s) (hc s)) in
  mk_state (add32 t1 t2) (ha s) (hb s) (hc s)
           (add32 (hd s) t1) (he s) (hf s) (hg s).

Definition compress (s : state) (block : list Z) : state :=
  let r := fold_left round (combine round_constants (schedule block)) s in
  mk_state (add32 (ha s) (ha r)) (add32 (hb s) (hb r))
           (add32 (hc s) (hc r)) (add32 (hd s) (hd r))
           (add32 (he s) (he r)) (add32 (hf s) (hf r))
           (add32 (hg s) (hg r)) (add32 (hh s) (hh r)).

Fixpoint blocks (fuel : nat) (ws : list Z) (s : state) : state :=
  match fuel with
  | O => s
  | S fuel' =>
      match ws with
      | [] => s
      | _ => blocks fuel' (skipn 16 ws) (compress s (firstn 16 ws))
      end
  end.

Definition hash (msg : list Z) : state :=
  let ws := words (pad msg) in
  blocks (List.length ws) ws initial.

Definition word_bytes (x : Z) : list Z := be_bytes 4 x.

(** The 32 bytes of the digest. *)
Definition digest (msg : list Z) : list Z :=
  let s := hash msg in
  word_bytes (ha s) ++ word_bytes (hb s) ++ word_bytes (hc s) ++
  word_bytes (hd s) ++ word_bytes (he s) ++ word_bytes (hf s) ++
  word_bytes (hg s) ++ word_bytes (hh s).

End Sha256.

Module Hmac.

Definition block_size : nat := 64.

(** Keys longer than a block are hashed; all keys are zero-padded. *)
Definition block_key (key : list Z) : list Z :=
  let k := if (block_size <? List.length key)%nat then Sha256.digest key else key in
  k ++ repeat 0 (block_size - List.length k).

Definition hmac_sha256 (key msg : list Z) : list Z :=
  let k := block_key key in
  let inner := Sha256.digest (map (Z.lxor 54) k ++ msg) in
  Sha256.digest (map (Z.lxor 92) k ++ inner).

Definition hex_chars : list ascii :=
  list_ascii_of_string "0123456789abcdef".

Definition hex_digit (n : Z) : ascii :=
  nth (Z.to_nat (n mod 16)) hex_chars "0"%char.

Fixpoint hex (bs : list Z) : string :=
  match bs with
  | [] => EmptyString
  | b :: bs' => String (hex_digit (Z.shiftr b 4)) (String (hex_digit b) (hex bs'))
  end.

(** [hmac.new(key, body, hashlib.sha256).hexdigest()] *)
Definition hexdigest (key body : string) : string :=
  hex (hmac_sha256 (codes key) (codes body)).

End Hmac.

(** ** Exceptions and the state-and-exception monad

    A Python statement changes the state and then either yields a value or
    raises; what it did to the state before raising stays done. *)

(** The classes of exceptions.  [error] has the classes other than
    [sqlite3.IntegrityError]: what the driver raises when a statement
    fails for a reason other than a constraint, and what the interpreter
    and the framework raise. *)
Inductive error : Type :=
| OperationalError        (* sqlite3.OperationalError: locked, disk, full *)
| DatabaseError           (* sqlite3.DatabaseError: the file is corrupt *)
| InternalError           (* sqlite3.InternalError *)
| ProgrammingError        (* sqlite3.ProgrammingError *)
| InterfaceError          (* sqlite3.InterfaceError *)
| DataError               (* sqlite3.DataError *)
| NotSupportedError       (* sqlite3.NotSupportedError *)
| MemoryError
| TypeError
| ValueError
| OverflowError
| HTTPException (status_code : Z) (detail : string).

(** [sqlite3.IntegrityError] is raised by the engine for a violated
    constraint and for nothing else; the [messages] table has one that an
    INSERT of five strings and a NULL can violate, its primary key. *)
Inductive exn : Type :=
| IntegrityError
| Other (e : error).

Coercion Other : error >-> exn.

Inductive result (A : Type) : Type :=
| Ok (a : A)
| Raise (e : exn).

Arguments Ok {A} a.
Arguments Raise {A} e.

Definition M (S A : Type) : Type := S -> result A * S.

Definition ret {S A : Type} (a : A) : M S A := fun s => (Ok a, s).

Definition raise {S A : Type} (e : exn) : M S A := fun s => (Raise e, s).

Definition bind {S A B : Type} (c : M S A) (k : A -> M S B) : M S B :=
  fun s =>
    match c s with
    | (Ok a, s') => k a s'
    | (Raise e, s') => (Raise e, s')
    end.

(** [try: c  except e: h e] *)
Definition try_except {S A : Type} (c : M S A) (h : exn -> M S A) : M S A :=
  fun s =>
    match c s with
    | (Ok a, s') => (Ok a, s')
    | (Raise e, s') => h e s'
    end.

Declare Scope monad_scope.
Delimit Scope monad_scope with monad.
Notation "x <- c ;; k" := (bind c (fun x => k))
  (at level 61, c at next level, right associativity) : monad_scope.
Notation "c ;;; k" := (bind c (fun _ => k))
  (at level 61, right associativity) : monad_scope.

(** ** What the code takes from its platform *)

Class Runtime : Type := {
  (** [datetime.fromisoformat(s)] returns (true) or raises ValueError. *)
  fromisoformat : string -> bool;
  (** The engine's ORDER BY: some ordering of the rows by the given key
      comparison; the place of rows that compare equal is the engine's. *)
  order_by : forall A : Type, (A -> A -> bool) -> list A -> list A;
  order_by_perm : forall (A : Type) (le : A -> A -> bool) (l : list A),
      Permutation (order_by A le l) l;
  order_by_sorted : forall (A : Type) (le : A -> A -> bool) (l : list A),
      (forall a b, le a b = true \/ le b a = true) ->
      (forall a b c, le a b = true -> le b c = true -> le a c = true) ->
      StronglySorted (fun a b => le a b = true) (order_by A le l)
}.

Arguments order_by {_} {A} le l.

(** ** app/models.py *)

Module Models.

(** [str.startswith] and [str.endswith] for a one-character argument. *)
Definition startswith (c : ascii) (s : string) : bool :=
  match s with
  | String d _ => Ascii.eqb d c
  | EmptyString => false
  end.

Fixpoint endswith (c : ascii) (s : string) : bool :=
  match s with
  | EmptyString => false
  | String d EmptyString => Ascii.eqb d c
  | String _ s' => endswith c s'
  end.

(** [v[1:]] *)
Definition tail (s : string) : string :=
  match s with
  | String _ s' => s'
  | EmptyString => EmptyString
  end.

(** The characters below U+0100 for which [str.isdigit] holds: the ten
    digits and the superscripts two, three and one. *)
Definition digit_char (c : ascii) : bool :=
  let n := code c in
  ((48 <=? n) && (n <=? 57)) || (n =? 178) || (n =? 179) || (n =? 185).

Fixpoint all_digits (s : string) : bool :=
  match s with
  | EmptyString => true
  | String c s' => digit_char c && all_digits s'
  end.

(** [str.isdigit]: at least one character, all of them digits. *)
Definition isdigit (s : string) : bool :=
  match s with
  | EmptyString => false
  | _ => all_digits s
  end.

(** [v.replace(c, by)] for a one-character [c]. *)
Fixpoint replace (c : ascii) (by_ : string) (s : string) : string :=
  match s with
  | EmptyString => EmptyString
  | String d s' =>
      if Ascii.eqb d c then (by_ ++ replace c by_ s')%string
      else String d (replace c by_ s')
  end.

(** An inbound webhook message, validated. *)
Record WebhookMessage : Type := mk_WebhookMessage {
  message_id : string;
  from_msisdn : string;
  to_msisdn : string;
  ts : string;
  text : option string
}.

(** [WebhookMessage.validate_msisdn]; [true] stands for returning [v],
    [false] for raising ValueError. *)
Definition validate_msisdn (v : string) : bool :=
  if negb (startswith "+" v) then false
  else if negb (isdigit (tail v)) then false
  else true.

(** [WebhookMessage.validate_ts] *)
Definition validate_ts `{Runtime} (v : string) : bool :=
  if negb (endswith "Z" v) then false
  else fromisoformat (replace "Z" "+00:00" v).

(** The decoded JSON object of a request body, field by field ([j_from]
    and [j_to] are what the body gives under the aliases "from" and "to",
    or under the fields' own names); [None] is a field that is missing or,
    for [text], null. *)
Record json_object : Type := mk_json {
  j_message_id : option string;
  j_from : option string;
  j_to : option string;
  j_ts : option string;
  j_text : option string
}.

(** Construction of a [WebhookMessage] from the decoded body: the field
    constraints ([min_length], [max_length], required fields) and the
    two validators.  [None] is a ValidationError. *)
Definition parse_WebhookMessage `{Runtime} (o : json_object)
  : option WebhookMessage :=
  match j_message_id o, j_from o, j_to o, j_ts o with
  | Some mid, Some f, Some t, Some when =>
      if (1 <=? String.length mid)%nat
         && validate_msisdn f && validate_msisdn t && validate_ts when
         && match j_text o with
            | None => true
            | Some txt => (String.length txt <=? 4096)%nat
            end
      then Some (mk_WebhookMessage mid f t when (j_text o))
      else None
  | _, _, _, _ => None
  end.

(** [WebhookResponse] *)
Record WebhookResponse : Type := mk_WebhookResponse { status : string }.

(** [Message]: a stored record, which is also a row of the table. *)
Record Message : Type := mk_Message {
  r_message_id : string;
  r_from_msisdn : string;
  r_to_msisdn : string;
  r_ts : string;
  r_text : option string;
  r_created_at : string
}.

Record MessagesResponse : Type := mk_MessagesResponse {
  data : list Message;
  total : Z;
  limit : Z;
  offset : Z
}.

Record SenderStats : Type := mk_SenderStats {
  sender : string;     (* alias "from" *)
  count : Z
}.

Record StatsResponse : Type := mk_StatsResponse {
  total_messages : Z;
  senders_count : Z;
  messages_per_sender : list SenderStats;
  first_message_ts : option string;
  last_message_ts : option string
}.

End Models.

(** ** app/storage.py *)

Module Storage.
Import Models.

Local Open Scope monad_scope.

(** *** The SQL that the queries use *)

(** The [messages] table: [message_id] is its primary key. *)
Definition table : Type := list Message.

(** The primary key: no two rows of the table share a [message_id]. *)
Definition primary_key (t : table) : Prop :=
  NoDup (map r_message_id t).

(** [a <= b] and [a >= b] on TEXT under the BINARY collation. *)
Definition text_le (a b : string) : bool := String.leb a b.
Definition text_ge (a b : string) : bool := String.leb b a.

(** LIKE folds the case of the ASCII letters only. *)
Definition lower (c : ascii) : ascii :=
  if (65 <=? code c) && (code c <=? 90) then chr (code c + 32) else c.

Definition like_char (p d : ascii) : bool := Ascii.eqb (lower p) (lower d).

(** The comparison of a pattern with a text: [%] stands for any run of
    characters, [_] for any one character, every other character for
    itself up to ASCII case. *)
Fixpoint pattern_compare (p : string) : string -> bool :=
  match p with
  | EmptyString =>
      fun t => match t with EmptyString => true | String _ _ => false end
  | String c p' =>
      if Ascii.eqb c "%" then
        fix star (t : string) : bool :=
          pattern_compare p' t
          || match t with
             | EmptyString => false
             | String _ t' => star t'
             end
      else
        fun t =>
          match t with
          | EmptyString => false
          | String d t' =>
              (if Ascii.eqb c "_" then true else like_char c d)
              && pattern_compare p' t'
          end
  end.

(** The LIKE function takes its two arguments as C strings: each is read
    up to its first NUL character, whatever follows it in the value. *)
Fixpoint c_string (s : string) : string :=
  match s with
  | EmptyString => EmptyString
  | String c s' =>
      if Ascii.eqb c zero then EmptyString else String c (c_string s')
  end.

(** [t LIKE p] *)
Definition like (p t : string) : bool :=
  pattern_compare (c_string p) (c_string t).

(** The longest pattern LIKE accepts, in bytes. *)
Definition SQLITE_MAX_LIKE_PATTERN_LENGTH : Z := 50000.

(** The pattern as the function finds it: a value of so many bytes (the
    whole value, past a NUL too), in UTF-8. *)
Definition too_complex (pattern : string) : bool :=
  SQLITE_MAX_LIKE_PATTERN_LENGTH <? Z.of_nat (String.length (encode pattern)).

(** [text LIKE ?] on the nullable column: the statement fails on a pattern
    that is too long ("LIKE or GLOB pattern too complex"), whatever the
    column holds; NULL matches nothing. *)
Definition sql_like (column : option string) (pattern : string)
  : result bool :=
  if too_complex pattern then Raise OperationalError
  else Ok (match column with
           | None => false
           | Some t => like pattern t
           end).

(** [ORDER BY ts ASC, message_id ASC] as a key comparison. *)
Definition by_ts_then_id (a b : Message) : bool :=
  match String.compare (r_ts a) (r_ts b) with
  | Lt => true
  | Gt => false
  | Eq => text_le (r_message_id a) (r_message_id b)
  end.

(** A Python [int] handed to the engine as a parameter: it has to fit the
    64 bits of an SQL INTEGER. *)
Definition bind_int (n : Z) : result Z :=
  if (- 2 ^ 63 <=? n) && (n <? 2 ^ 63) then Ok n else Raise OverflowError.

(** [LIMIT n]: a negative [n] is no limit. *)
Definition sql_limit {A : Type} (n : Z) (l : list A) : list A :=
  if n <? 0 then l else firstn (Z.to_nat n) l.

(** [OFFSET n]: a negative [n] is zero. *)
Definition sql_offset {A : Type} (n : Z) (l : list A) : list A :=
  skipn (Z.to_nat n) l.

(** [GROUP BY k] with [COUNT( * )]: the engine orders the keys and counts
    each run of equal keys. *)
Fixpoint runs (keys : list string) : list (string * Z) :=
  match keys with
  | [] => []
  | k :: rest =>
      match runs rest with
      | (k', n) :: groups =>
          if String.eqb k k' then (k, n + 1) :: groups
          else (k, 1) :: (k', n) :: groups
      | [] => [(k, 1)]
      end
  end.

Definition group_count `{Runtime} (keys : list string) : list (string * Z) :=
  runs (order_by text_le keys).

(** [ORDER BY count DESC] as a key comparison. *)
Definition by_count_desc (a b : string * Z) : bool := snd b <=? snd a.

(** [COUNT(DISTINCT k)] *)
Definition count_distinct (keys : list string) : Z :=
  Z.of_nat (List.length (nodup string_dec keys)).

(** [MIN(k)] and [MAX(k)]: NULL over no rows. *)
Definition sql_min (keys : list string) : option string :=
  match keys with
  | [] => None
  | k :: rest =>
      Some (fold_left (fun m x => if text_le x m then x else m) rest k)
  end.

Definition sql_max (keys : list string) : option string :=
  match keys with
  | [] => None
  | k :: rest =>
      Some (fold_left (fun m x => if text_le m x then x else m) rest k)
  end.

(** *** The database and a connection to it *)

(** What the engine was asked to do, in the order it was asked. *)
Inductive db_event : Type :=
| Connected
| InsertIssued (message_id : string)
| Committed.

(** The database file: the committed rows, and the journal of the
    requests made to the engine (kept to state what was attempted). *)
Record database : Type := mk_database {
  messages : table;
  journal : list db_event
}.

(** An open connection: the database and the rows as the transaction in
    progress sees them. *)
Record connection : Type := mk_connection {
  db : database;
  view : table
}.

(** The storage faults a call can meet. *)
Inductive fault : Type :=
| NoFault
| ConnectFails     (* the file cannot be opened *)
| ExecuteFails (e : error)  (* the statement raises [e]: locked, disk, ... *)
| CommitFails (e : error).  (* the commit raises [e] *)

Definition log (e : db_event) (d : database) : database :=
  mk_database (messages d) (journal d ++ [e]).

(** [get_db_connection()] *)
Definition get_db_connection (f : fault) : M database connection :=
  fun d =>
    match f with
    | ConnectFails => (Raise OperationalError, d)
    | _ =>
        let d' := log Connected d in
        (Ok (mk_connection d' (messages d')), d')
    end.

Definition has_id (mid : string) (t : table) : bool :=
  existsb (fun r => String.eqb (r_message_id r) mid) t.

(** [cursor.execute("INSERT INTO messages ...", row)] *)
Definition execute_insert (f : fault) (row : Message) : M connection unit :=
  fun c =>
    let c' := mk_connection (log (InsertIssued (r_message_id row)) (db c)) (view c) in
    match f with
    | ExecuteFails e => (Raise e, c')
    | _ =>
        if has_id (r_message_id row) (view c) then (Raise IntegrityError, c')
        else (Ok tt, mk_connection (db c') (view c ++ [row]))
    end.

(** [conn.commit()] *)
Definition commit (f : fault) : M connection unit :=
  fun c =>
    match f with
    | CommitFails e => (Raise e, c)
    | _ =>
        (Ok tt, mk_connection
                  (mk_database (view c) (journal (db c) ++ [Committed]))
                  (view c))
    end.

(** [conn.close()]: what was not committed is rolled back. *)
Definition close : M connection unit :=
  fun c => (Ok tt, mk_connection (db c) (messages (db c))).

(** Running statements on a connection obtained from the database. *)
Definition on_connection {A : Type} (c : connection) (m : M connection A)
  : M database A :=
  fun _ => let '(r, c') := m c in (r, db c').

(** [insert_message]; [now] is [datetime.utcnow().isoformat()]. *)
Definition insert_message (f : fault) (now : string)
    (message_id from_msisdn to_msisdn ts : string) (text : option string)
  : M database (bool * bool) :=
  conn <- get_db_connection f ;;
  on_connection conn
    (try_except
       (let created_at := (now ++ "Z")%string in
        execute_insert f
          (mk_Message message_id from_msisdn to_msisdn ts text created_at) ;;;
        commit f ;;;
        close ;;;
        ret (true, false))
       (fun e =>
          match e with
          | IntegrityError => close ;;; ret (true, true)
          | _ => close ;;; ret (false, false)
          end)).

(** A condition of a WHERE clause: it holds of a row, or not, or its
    evaluation fails. *)
Definition condition : Type := Message -> result bool.

(** The conditions of [get_messages]: one per filter that is given and not
    empty. *)
Definition where_clauses (from_msisdn since q : option string)
  : list condition :=
  ((if truthy from_msisdn
    then [fun r => Ok (String.eqb (r_from_msisdn r) (value from_msisdn))]
    else [])
   ++ (if truthy since
       then [fun r => Ok (text_ge (r_ts r) (value since))]
       else [])
   ++ (if truthy q
       then [fun r => sql_like (r_text r) ("%" ++ value q ++ "%")%string]
       else [])).

(** The conditions joined by AND ([1=1] when there is none): the engine
    tests them on a row from left to right, up to the first that does not
    hold. *)
Fixpoint sql_and (conditions : list condition) (r : Message) : result bool :=
  match conditions with
  | [] => Ok true
  | cond :: rest =>
      match cond r with
      | Ok true => sql_and rest r
      | Ok false => Ok false
      | Raise e => Raise e
      end
  end.

Definition where_clause (from_msisdn since q : option string) : condition :=
  sql_and (where_clauses from_msisdn since q).

(** A row passes a condition. *)
Definition holds (c : result bool) : bool :=
  match c with
  | Ok true => true
  | _ => false
  end.

(** [SELECT ... FROM messages WHERE w]: the scan of the table, row after
    row; the statement fails when the test of a row does. *)
Fixpoint sql_where (w : condition) (t : table) : result table :=
  match t with
  | [] => Ok []
  | r :: t' =>
      match w r with
      | Raise e => Raise e
      | Ok b =>
          match sql_where w t' with
          | Raise e => Raise e
          | Ok rows => Ok (if b then r :: rows else rows)
          end
      end
  end.

(** [get_messages]: the count first, with the filters as its parameters,
    then the page, with the limit and the offset as two parameters more.
    Neither statement is in a [try] block. *)
Definition get_messages `{Runtime} (limit offset : Z)
    (from_msisdn since q : option string) (t : table)
  : result (list Message * Z) :=
  let where_clause := where_clause from_msisdn since q in
  match sql_where where_clause t with
  | Raise e => Raise e
  | Ok counted =>
      let total_count := Z.of_nat (List.length counted) in
      match bind_int limit with
      | Raise e => Raise e
      | Ok limit =>
          match bind_int offset with
          | Raise e => Raise e
          | Ok offset =>
              match sql_where where_clause t with
              | Raise e => Raise e
              | Ok matching =>
                  let rows :=
                    sql_limit limit
                      (sql_offset offset (order_by by_ts_then_id matching)) in
                  Ok (rows, total_count)
              end
          end
      end
  end.

(** Python truthiness of a fetched TEXT value. *)
Definition value_or_none (v : option string) : option string :=
  if truthy v then v else None.

(** [get_stats] *)
Definition get_stats `{Runtime} (t : table) : StatsResponse :=
  let total_messages := Z.of_nat (List.length t) in
  let senders_count := count_distinct (map r_from_msisdn t) in
  let messages_per_sender :=
    map (fun row => mk_SenderStats (fst row) (snd row))
        (sql_limit 10 (order_by by_count_desc
                         (group_count (map r_from_msisdn t)))) in
  let first_message_ts := value_or_none (sql_min (map r_ts t)) in
  let last_message_ts := value_or_none (sql_max (map r_ts t)) in
  mk_StatsResponse total_messages senders_count messages_per_sender
                   first_message_ts last_message_ts.

End Storage.

(** ** app/main.py

    The handlers, and around them what the framework does with a request:
    it builds the handler's typed parameters first (a body that does not
    validate is answered 422 and the handler is not called), and it turns
    what the handler raises into a response.  The counters and the log
    lines of the handlers are left out; no row and no response depends on
    them.  [secret] is [config.WEBHOOK_SECRET], which the startup hook has
    checked to be set. *)

Module Main.
Import Models Storage.

Local Open Scope monad_scope.

(** [hmac.compare_digest] on two [str]: defined on ASCII strings only. *)
Definition compare_digest {S : Type} (a b : string) : M S bool :=
  if isascii a && isascii b then ret (String.eqb a b) else raise TypeError.

Definition HTTP_401_UNAUTHORIZED : Z := 401.
Definition HTTP_500_INTERNAL_SERVER_ERROR : Z := 500.

(** [webhook]: the handler of POST /webhook. *)
Definition webhook (secret : string) (f : fault) (now : string)
    (payload : WebhookMessage) (body : string) (x_signature : option string)
  : M database WebhookResponse :=
  if negb (truthy x_signature) then
    raise (HTTPException HTTP_401_UNAUTHORIZED "invalid signature")
  else
    let expected_signature := Hmac.hexdigest (encode secret) body in
    same <- compare_digest expected_signature (value x_signature) ;;
    if negb same then
      raise (HTTPException HTTP_401_UNAUTHORIZED "invalid signature")
    else
      outcome <- insert_message f now
                   (message_id payload) (from_msisdn payload)
                   (to_msisdn payload) (ts payload) (text payload) ;;
      let '(success, is_duplicate) := outcome in
      if negb success then
        raise (HTTPException HTTP_500_INTERNAL_SERVER_ERROR
                             "internal server error")
      else ret (mk_WebhookResponse "ok").

(** [messages]: the handler of GET /messages.  What [get_messages] raises
    is not caught. *)
Definition messages `{Runtime} (limit offset : Z)
    (from_msisdn since q : option string) (t : table)
  : result MessagesResponse :=
  let limit := if limit <? 1 then 1 else limit in
  let limit := if limit >? 100 then 100 else limit in
  let offset := if offset <? 0 then 0 else offset in
  match get_messages limit offset from_msisdn since q t with
  | Ok (rows, total) => Ok (mk_MessagesResponse rows total limit offset)
  | Raise e => Raise e
  end.

(** [stats]: the handler of GET /stats. *)
Definition stats `{Runtime} (t : table) : StatsResponse :=
  let stats_data := get_stats t in
  mk_StatsResponse (total_messages stats_data) (senders_count stats_data)
    (map (fun s => mk_SenderStats (sender s) (count s))
         (messages_per_sender stats_data))
    (first_message_ts stats_data) (last_message_ts stats_data).

(** *** The framework around the handlers *)

Inductive response (A : Type) : Type :=
| Success (content : A)                        (* 200 *)
| Error (status_code : Z) (detail : string)    (* an HTTPException *)
| Unprocessable                                (* 422, request validation *)
| ServerError.                                 (* 500, any other exception *)

Arguments Success {A} content.
Arguments Error {A} status_code detail.
Arguments Unprocessable {A}.
Arguments ServerError {A}.

Definition status_of {A : Type} (r : response A) : Z :=
  match r with
  | Success _ => 200
  | Error code _ => code
  | Unprocessable => 422
  | ServerError => 500
  end.

Definition respond {A : Type} (r : result A) : response A :=
  match r with
  | Ok a => Success a
  | Raise (Other (HTTPException code detail)) => Error code detail
  | Raise _ => ServerError
  end.

(** A POST /webhook request: the raw body, the JSON object it decodes to
    ([None] when it is not a JSON object), the X-Signature header. *)
Record webhook_request : Type := mk_request {
  body : string;
  json : option json_object;
  x_signature : option string
}.

(** The handler's [payload] parameter, built from the decoded body. *)
Definition payload_of `{Runtime} (req : webhook_request)
  : option WebhookMessage :=
  match json req with
  | Some o => parse_WebhookMessage o
  | None => None
  end.

Definition post_webhook `{Runtime} (secret : string) (f : fault)
    (now : string) (req : webhook_request)
  : database -> response WebhookResponse * database :=
  fun d =>
    match payload_of req with
    | Some payload =>
        let '(r, d') :=
          webhook secret f now payload (body req) (x_signature req) d in
        (respond r, d')
    | None => (Unprocessable, d)
    end.

(** A GET /messages request, as its query string reads: [limit] and
    [offset] as the integers written there, and the text parameters, each
    [None] when the query string does not name it.  (A [limit] or an
    [offset] that is not an integer is answered 422 by the framework and
    is not a request of this type.) *)
Record messages_request : Type := mk_messages_request {
  query_limit : option Z;                (* ?limit= *)
  query_offset : option Z;               (* ?offset= *)
  query_from : option string;            (* ?from= *)
  query_from_msisdn : option string;     (* ?from_msisdn= *)
  query_since : option string;           (* ?since= *)
  query_q : option string                (* ?q= *)
}.

Definition default {A : Type} (a : A) (o : option A) : A :=
  match o with
  | Some v => v
  | None => a
  end.

(** The framework fills each parameter of the handler from the query
    parameter of the same name, or with the default of the signature:
    [limit], [offset], [from_msisdn], [since] and [q].  No parameter of the
    handler is named [from], nor has it as an alias. *)
Definition get_messages_route `{Runtime} (req : messages_request) (t : table)
  : response MessagesResponse :=
  respond (messages (default 50 (query_limit req))
                    (default 0 (query_offset req))
                    (query_from_msisdn req) (query_since req) (query_q req)
                    t).

(** Deliveries one after the other: each with its own fault and clock. *)
Fixpoint deliver `{Runtime} (secret : string)
    (calls : list (fault * string * webhook_request)) (d : database)
  : list (response WebhookResponse) * database :=
  match calls with
  | [] => ([], d)
  | (f, now, req) :: rest =>
      let '(r, d') := post_webhook secret f now req d in
      let '(rs, d'') := deliver secret rest d' in
      (r :: rs, d'')
  end.

End Main.

(** ** The filters in the words of the specification

    What the specification says a filter means, to set against
    [Storage.where_clause]: an exact match on the sender, a lexicographic
    bound on [ts], a case-sensitive substring test on [text].  After it,
    the notions the properties of the queries are stated with. *)

Module Spec.
Import Models.




(** How many times a key occurs among the keys of the rows. *)
Definition occurrences (keys : list string) (k : string) : Z :=
  Z.of_nat (count_occ string_dec keys k).

(** The sum of a list of counts. *)
Definition sum (counts : list Z) : Z := fold_right Z.add 0 counts.




(** No NUL character in the string. *)
Fixpoint nul_free (s : string) : bool :=
  match s with
  | EmptyString => true
  | String c s' => negb (Ascii.eqb c zero) && nul_free s'
  end.


(** *** A query in closed form *)

(** The pattern [%q%] takes more than 50000 bytes in UTF-8. *)
Definition pattern_too_long (q : option string) : bool :=
  50000 <? Z.of_nat (String.length (encode ("%" ++ value q ++ "%")%string)).

(** The integer fits the 64 bits of an SQL INTEGER. *)
Definition int64 (n : Z) : bool := (- 2 ^ 63 <=? n) && (n <? 2 ^ 63).

(** The row passes the sender filter and the [since] filter, where they
    are given and not empty. *)
Definition passes_sender_since (from_filter since_filter : option string)
    (r : Message) : bool :=
  (if truthy from_filter
   then String.eqb (r_from_msisdn r) (value from_filter) else true)
  && (if truthy since_filter
      then String.leb (value since_filter) (r_ts r) else true).

(** The row passes the three filters, the last as LIKE has it. *)
Definition passes (from_filter since_filter q : option string) (r : Message)
  : bool :=
  passes_sender_since from_filter since_filter r
  && (if truthy q
      then match r_text r with
           | Some txt => Storage.like ("%" ++ value q ++ "%")%string txt
           | None => false
           end
      else true).

(** The pattern made of [q] is too long for LIKE, and some row of the table
    passes the other filters and is tested against it. *)
Definition pattern_rejected (from_filter since_filter q : option string)
    (t : list Message) : bool :=
  truthy q && pattern_too_long q
  && existsb (passes_sender_since from_filter since_filter) t.

End Spec.

(** ** A reference runtime

    An insertion sort for ORDER BY (rows that compare equal stay in the
    order of the scan) and the plain timestamp form
    [YYYY-MM-DDTHH:MM:SS+00:00] for [fromisoformat]. *)

Module Reference.

Fixpoint insert_sorted {A : Type} (le : A -> A -> bool) (x : A) (l : list A)
  : list A :=
  match l with
  | [] => [x]
  | y :: l' => if le x y then x :: l else y :: insert_sorted le x l'
  end.

Definition insertion_sort {A : Type} (le : A -> A -> bool) (l : list A)
  : list A :=
  fold_right (insert_sorted le) [] l.

Definition digit (c : Z) : option Z :=
  if (48 <=? c) && (c <=? 57) then Some (c - 48) else None.

Fixpoint number (acc : Z) (cs : list Z) : option Z :=
  match cs with
  | [] => Some acc
  | c :: cs' =>
      match digit c with
      | Some v => number (10 * acc + v) cs'
      | None => None
      end
  end.

Definition leap (y : Z) : bool :=
  ((y mod 4 =? 0) && negb (y mod 100 =? 0)) || (y mod 400 =? 0).

Definition days_in_month (y m : Z) : Z :=
  if m =? 2 then (if leap y then 29 else 28)
  else if (m =? 4) || (m =? 6) || (m =? 9) || (m =? 11) then 30
  else 31.

Definition in_range (lo hi : Z) (v : option Z) : bool :=
  match v with
  | Some n => (lo <=? n) && (n <=? hi)
  | None => false
  end.

Definition plain_timestamp (s : string) : bool :=
  match codes s with
  | [y1; y2; y3; y4; 45; m1; m2; 45; d1; d2; 84;
     h1; h2; 58; n1; n2; 58; s1; s2; 43; 48; 48; 58; 48; 48] =>
      match number 0 [y1; y2; y3; y4], number 0 [m1; m2] with
      | Some y, Some m =>
          (1 <=? y) && (1 <=? m) && (m <=? 12)
          && in_range 1 (days_in_month y m) (number 0 [d1; d2])
          && in_range 0 23 (number 0 [h1; h2])
          && in_range 0 59 (number 0 [n1; n2])
          && in_range 0 59 (number 0 [s1; s2])
      | _, _ => false
      end
  | _ => false
  end.

End Reference.

(** ** Sample data, after the repository's tests *)

Module Sample.
Import Models Storage Main.

Definition secret : string := "test-secret-key".

(** A body is written with apostrophes for its double quotes. *)
Definition json_text (s : string) : string :=
  replace "'" (String (chr 34) EmptyString) s.

Definition object (mid sender when : string) (txt : option string)
  : json_object :=
  mk_json (Some mid) (Some sender) (Some "+14155550100") (Some when) txt.

Definition m1_object : json_object :=
  object "m1" "+919876543210" "2025-01-15T10:00:00Z" (Some "Hello").

Definition m1_body : string :=
  json_text "{'message_id':'m1','from':'+919876543210','to':'+14155550100','ts':'2025-01-15T10:00:00Z','text':'Hello'}".

Definition m1 : WebhookMessage :=
  mk_WebhookMessage "m1" "+919876543210" "+14155550100"
                    "2025-01-15T10:00:00Z" (Some "Hello").

(** The sender lacks its leading plus sign. *)
Definition m5_object : json_object :=
  object "m5" "919876543210" "2025-01-15T10:00:00Z" (Some "Hello").

Definition m5_body : string :=
  json_text "{'message_id':'m5','from':'919876543210','to':'+14155550100','ts':'2025-01-15T10:00:00Z','text':'Hello'}".

(** Another payload under the id of [m1]. *)
Definition m1_later_object : json_object :=
  object "m1" "+15551234567" "2025-03-01T00:00:00Z" None.

Definition m1_later_body : string :=
  json_text "{'message_id':'m1','from':'+15551234567','to':'+14155550100','ts':'2025-03-01T00:00:00Z'}".

Definition signed (body : string) (o : json_object) : webhook_request :=
  mk_request body (Some o) (Some (Hmac.hexdigest (encode secret) body)).

Definition unsigned (body : string) (o : json_object) : webhook_request :=
  mk_request body (Some o) None.

Definition empty : database := mk_database [] [].

Definition stored (mid sender when : string) (txt : option string)
  : Message :=
  mk_Message mid sender "+14155550100" when txt "2025-02-01T08:00:00.000000Z".

Definition with_rows (t : table) : database := mk_database t [].

Definition hello : Message :=
  stored "m1" "+919876543210" "2025-01-10T10:00:00Z" (Some "Hello world").

Definition goodbye : Message :=
  stored "m2" "+919876543210" "2025-01-11T10:00:00Z" (Some "Goodbye world").

Definition silent : Message :=
  stored "m3" "+15551234567" "2025-01-12T10:00:00Z" None.

Definition three : table := [goodbye; silent; hello].

(** The messages of [test_messages_filter_by_sender], and its request:
    GET /messages?from=%2B919876543210. *)
Definition by_sender : table :=
  [stored "m1" "+919876543210" "2025-01-10T10:00:00Z" (Some "Test message m1");
   stored "m2" "+919876543210" "2025-01-11T10:00:00Z" (Some "Test message m2");
   stored "m3" "+15551234567" "2025-01-12T10:00:00Z" (Some "Test message m3")].

Definition from_request : messages_request :=
  mk_messages_request None None (Some "+919876543210") None None None.

(** Fifteen messages from fifteen senders. *)
Definition two_digits (i : nat) : string :=
  String (chr (48 + Z.of_nat (i / 10)))
         (String (chr (48 + Z.of_nat (i mod 10))) EmptyString).

Definition fifteen : table :=
  map (fun i =>
         stored ("m" ++ two_digits i)%string
                ("+9198765432" ++ two_digits i)%string
                ("2025-01-" ++ two_digits (10 + i) ++ "T10:00:00Z")%string
                (Some "Test message"))
      (seq 0 15).

End Sample.

(** ** app/config.py *)

Module Config.

(** The characters below U+0100 that [str.strip] removes. *)
Definition isspace (c : ascii) : bool :=
  let n := code c in
  ((9 <=? n) && (n <=? 13)) || ((28 <=? n) && (n <=? 32))
  || (n =? 133) || (n =? 160).

Fixpoint lstrip (s : string) : string :=
  match s with
  | EmptyString => EmptyString
  | String c s' => if isspace c then lstrip s' else s
  end.

Fixpoint rstrip (s : string) : string :=
  match s with
  | EmptyString => EmptyString
  | String c s' =>
      match rstrip s' with
      | EmptyString => if isspace c then EmptyString else String c EmptyString
      | kept => String c kept
      end
  end.

(** [str.strip()] *)
Definition strip (s : string) : string := rstrip (lstrip s).

(** [Config.validate], on the value of [WEBHOOK_SECRET]. *)
Definition validate (WEBHOOK_SECRET : option string) : bool :=
  if negb (truthy WEBHOOK_SECRET)
     || (String.length (strip (value WEBHOOK_SECRET)) =? 0)%nat
  then false
  else true.

End Config.

(** ** app/metrics.py *)

Module Metrics.

(** A [dict]: its items in the order the keys were first set. *)
Definition dict (K V : Type) : Type := list (K * V).

(** [d.get(k, default)] *)
Fixpoint get {K V : Type} (eqb : K -> K -> bool) (d : dict K V) (k : K)
    (default : V) : V :=
  match d with
  | [] => default
  | (k', v) :: d' => if eqb k' k then v else get eqb d' k default
  end.

(** [d[k] = v]: a key already there keeps its place. *)
Fixpoint set {K V : Type} (eqb : K -> K -> bool) (d : dict K V) (k : K)
    (v : V) : dict K V :=
  match d with
  | [] => [(k, v)]
  | (k', v') :: d' =>
      if eqb k' k then (k', v) :: d' else (k', v') :: set eqb d' k v
  end.

(** The key [(method, path, status)]. *)
Definition http_key : Type := string * string * Z.

Definition http_key_eqb (a b : http_key) : bool :=
  let '(m1, p1, s1) := a in
  let '(m2, p2, s2) := b in
  String.eqb m1 m2 && String.eqb p1 p2 && (s1 =? s2).

Record MetricsCollector : Type := mk_MetricsCollector {
  http_requests_total : dict http_key Z;
  webhook_requests_total : dict string Z
}.

(** [MetricsCollector()] *)
Definition init : MetricsCollector := mk_MetricsCollector [] [].

Definition increment_http_request (method path : string) (status : Z)
    (self : MetricsCollector) : MetricsCollector :=
  let key := (method, path, status) in
  mk_MetricsCollector
    (set http_key_eqb (http_requests_total self) key
         (get http_key_eqb (http_requests_total self) key 0 + 1))
    (webhook_requests_total self).

Definition increment_webhook_request (result : string)
    (self : MetricsCollector) : MetricsCollector :=
  mk_MetricsCollector
    (http_requests_total self)
    (set String.eqb (webhook_requests_total self) result
         (get String.eqb (webhook_requests_total self) result 0 + 1)).

(** The order of tuples: component by component, left to right. *)
Definition str_then (a b : string) (rest : bool) : bool :=
  match String.compare a b with
  | Lt => true
  | Eq => rest
  | Gt => false
  end.

Definition int_then (a b : Z) (rest : bool) : bool :=
  match Z.compare a b with
  | Lt => true
  | Eq => rest
  | Gt => false
  end.

Definition http_item_le (a b : http_key * Z) : bool :=
  let '((m1, p1, s1), c1) := a in
  let '((m2, p2, s2), c2) := b in
  str_then m1 m2 (str_then p1 p2 (int_then s1 s2 (c1 <=? c2))).

Definition webhook_item_le (a b : string * Z) : bool :=
  str_then (fst a) (fst b) (snd a <=? snd b).

(** [str(n)] of an [int]. *)
Definition str (n : Z) : string := NilZero.string_of_int (Z.to_int n).

Definition double_quote : string := String (chr 34) EmptyString.
Definition newline : string := String (chr 10) EmptyString.

(** [sep.join(lines)] *)
Fixpoint join (sep : string) (lines : list string) : string :=
  match lines with
  | [] => EmptyString
  | [line] => line
  | line :: rest => (line ++ sep ++ join sep rest)%string
  end.

Definition quoted (s : string) : string :=
  (double_quote ++ s ++ double_quote)%string.

Definition http_line (item : http_key * Z) : string :=
  let '((method, path, status), count) := item in
  ("http_requests_total{method=" ++ quoted method
   ++ ",path=" ++ quoted path
   ++ ",status=" ++ quoted (str status) ++ "} " ++ str count)%string.

Definition webhook_line (item : string * Z) : string :=
  let '(result, count) := item in
  ("webhook_requests_total{result=" ++ quoted result ++ "} "
   ++ str count)%string.

(** The lines of [render_prometheus], before they are joined.  [sorted]
    is an insertion sort: stable, as the built-in is. *)
Definition render_lines (self : MetricsCollector) : list string :=
  [ "# HELP http_requests_total Total HTTP requests by method, path, and status";
    "# TYPE http_requests_total counter" ]
  ++ map http_line
         (Reference.insertion_sort http_item_le (http_requests_total self))
  ++ [ "# HELP webhook_requests_total Total webhook requests by result";
       "# TYPE webhook_requests_total counter" ]
  ++ map webhook_line
         (Reference.insertion_sort webhook_item_le
            (webhook_requests_total self)).

Definition render_prometheus (self : MetricsCollector) : string :=
  (join newline (render_lines self) ++ newline)%string.

(** The increments the application makes, as they come. *)
Inductive call : Type :=
| IncrementHttp (method path : string) (status : Z)
| IncrementWebhook (result : string).

Definition apply (self : MetricsCollector) (c : call) : MetricsCollector :=
  match c with
  | IncrementHttp method path status =>
      increment_http_request method path status self
  | IncrementWebhook result => increment_webhook_request result self
  end.

(** A fresh collector after a run of increments. *)
Definition after (calls : list call) : MetricsCollector :=
  fold_left apply calls init.

Definition http_keys (calls : list call) : list http_key :=
  flat_map (fun c => match c with
                     | IncrementHttp method path status =>
                         [(method, path, status)]
                     | IncrementWebhook _ => []
                     end) calls.

Definition results (calls : list call) : list string :=
  flat_map (fun c => match c with
                     | IncrementHttp _ _ _ => []
                     | IncrementWebhook result => [result]
                     end) calls.

End Metrics.

(** ** app/main.py, with the counters and the error log

    [webhook] once more, this time with what it does to the metrics
    collector and with the error lines it logs (the message and the
    [message_id] it gives as extra; the request id, taken from a header or
    drawn at random, is left out). *)

Module Instrumented.
Import Models Storage.

Local Open Scope monad_scope.

Record app : Type := mk_app {
  store : database;
  metrics : Metrics.MetricsCollector;
  error_log : list (string * option string)
}.

(** A storage call, run on the application's database. *)
Definition on_store {A : Type} (c : M database A) : M app A :=
  fun a =>
    let '(r, d) := c (store a) in
    (r, mk_app d (metrics a) (error_log a)).

(** [metrics.increment_webhook_request(result)] *)
Definition increment_webhook_request (result : string) : M app unit :=
  fun a =>
    (Ok tt, mk_app (store a)
                   (Metrics.increment_webhook_request result (metrics a))
                   (error_log a)).

(** [log_error(message, request_id=..., message_id=...)] *)
Definition log_error (message : string) (message_id : option string)
  : M app unit :=
  fun a =>
    (Ok tt, mk_app (store a) (metrics a)
                   (error_log a ++ [(message, message_id)])).

Definition webhook (secret : string) (f : fault) (now : string)
    (payload : WebhookMessage) (body : string) (x_signature : option string)
  : M app WebhookResponse :=
  if negb (truthy x_signature) then
    increment_webhook_request "invalid_signature" ;;;
    log_error "Missing X-Signature header" None ;;;
    raise (HTTPException Main.HTTP_401_UNAUTHORIZED "invalid signature")
  else
    let expected_signature := Hmac.hexdigest (encode secret) body in
    same <- Main.compare_digest expected_signature (value x_signature) ;;
    if negb same then
      increment_webhook_request "invalid_signature" ;;;
      log_error "Invalid X-Signature" None ;;;
      raise (HTTPException Main.HTTP_401_UNAUTHORIZED "invalid signature")
    else
      outcome <- on_store
                   (insert_message f now
                      (message_id payload) (from_msisdn payload)
                      (to_msisdn payload) (ts payload) (text payload)) ;;
      let '(success, is_duplicate) := outcome in
      if negb success then
        increment_webhook_request "error" ;;;
        log_error "Failed to insert message" (Some (message_id payload)) ;;;
        raise (HTTPException Main.HTTP_500_INTERNAL_SERVER_ERROR
                             "internal server error")
      else
        let result := if is_duplicate then "duplicate" else "created" in
        increment_webhook_request result ;;;
        ret (mk_WebhookResponse "ok").

(** [metrics_endpoint]: the body of GET /metrics. *)
Definition metrics_endpoint (a : app) : string :=
  Metrics.render_prometheus (metrics a).

End Instrumented.

(** * Properties *)

(** ** Order on strings *)

Lemma ascii_compare_refl (a : ascii) : Ascii.compare a a = Eq.
Proof. unfold Ascii.compare. apply N.compare_refl. Qed.

Lemma string_compare_refl (s : string) : String.compare s s = Eq.
Proof.
  induction s as [|a s IH]; simpl; [reflexivity|].
  now rewrite ascii_compare_refl.
Qed.

Lemma ascii_compare_lt_trans (a b c : ascii) :
  Ascii.compare a b = Lt -> Ascii.compare b c = Lt -> Ascii.compare a c = Lt.
Proof.
  unfold Ascii.compare. rewrite !N.compare_lt_iff. lia.
Qed.

Lemma string_compare_lt_trans (s1 : string) :
  forall s2 s3,
    String.compare s1 s2 = Lt -> String.compare s2 s3 = Lt ->
    String.compare s1 s3 = Lt.
Proof.
  induction s1 as [|a s1 IH]; intros [|b s2] [|c s3]; simpl;
    try discriminate; try reflexivity.
  destruct (Ascii.compare a b) eqn:Hab; try discriminate;
    destruct (Ascii.compare b c) eqn:Hbc; try discriminate; intros H1 H2.
  - apply Ascii.compare_eq_iff in Hab, Hbc. subst.
    rewrite ascii_compare_refl. eauto.
  - apply Ascii.compare_eq_iff in Hab. subst. now rewrite Hbc.
  - apply Ascii.compare_eq_iff in Hbc. subst. now rewrite Hab.
  - now rewrite (ascii_compare_lt_trans _ _ _ Hab Hbc).
Qed.

Lemma string_compare_gt_lt (s1 s2 : string) :
  String.compare s1 s2 = Gt <-> String.compare s2 s1 = Lt.
Proof.
  rewrite (String.compare_antisym s1 s2).
  destruct (String.compare s2 s1); simpl; split; congruence.
Qed.

Lemma string_leb_refl (s : string) : String.leb s s = true.
Proof. unfold String.leb. now rewrite string_compare_refl. Qed.

Lemma string_leb_trans (s1 s2 s3 : string) :
  String.leb s1 s2 = true -> String.leb s2 s3 = true -> String.leb s1 s3 = true.
Proof.
  unfold String.leb.
  destruct (String.compare s1 s2) eqn:H12; try discriminate;
    destruct (String.compare s2 s3) eqn:H23; try discriminate; intros _ _.
  - apply String.compare_eq_iff in H12, H23. subst.
    now rewrite string_compare_refl.
  - apply String.compare_eq_iff in H12. subst. now rewrite H23.
  - apply String.compare_eq_iff in H23. subst. now rewrite H12.
  - now rewrite (string_compare_lt_trans _ _ _ H12 H23).
Qed.

Lemma string_leb_lt_or_eq (s1 s2 : string) :
  String.leb s1 s2 = true <-> String.ltb s1 s2 = true \/ s1 = s2.
Proof.
  unfold String.leb, String.ltb. split.
  - destruct (String.compare s1 s2) eqn:H; try discriminate; intros _.
    + right. now apply String.compare_eq_iff.
    + now left.
  - intros [H| ->].
    + destruct (String.compare s1 s2); congruence.
    + now rewrite string_compare_refl.
Qed.

(** ** Sorting *)

Section Sorting.
Context {A : Type} (le : A -> A -> bool).

Let R (a b : A) : Prop := le a b = true.

Hypothesis le_total : forall a b, le a b = true \/ le b a = true.
Hypothesis le_trans : forall a b c, le a b = true -> le b c = true -> le a c = true.

Lemma insert_sorted_perm (x : A) (l : list A) :
  Permutation (Reference.insert_sorted le x l) (x :: l).
Proof.
  induction l as [|y l IH]; simpl; [reflexivity|].
  destruct (le x y); [reflexivity|].
  rewrite IH. apply perm_swap.
Qed.

Lemma insertion_sort_perm (l : list A) :
  Permutation (Reference.insertion_sort le l) l.
Proof.
  induction l as [|x l IH]; simpl; [reflexivity|].
  rewrite insert_sorted_perm. now constructor.
Qed.

Lemma insert_sorted_sorted (x : A) (l : list A) :
  StronglySorted R l -> StronglySorted R (Reference.insert_sorted le x l).
Proof.
  induction 1 as [|y l Hs IH Hall]; simpl.
  - repeat constructor.
  - destruct (le x y) eqn:Hxy.
    + constructor; [now constructor|].
      constructor; [exact Hxy|].
      eapply Forall_impl; [|exact Hall].
      intros z Hz. eapply le_trans; eassumption.
    + constructor; [exact IH|].
      assert (Hyx : R y x) by (destruct (le_total x y); congruence).
      eapply Permutation_Forall.
      * symmetry. apply insert_sorted_perm.
      * now constructor.
Qed.

Lemma insertion_sort_sorted (l : list A) :
  StronglySorted R (Reference.insertion_sort le l).
Proof.
  induction l as [|x l IH]; simpl; [constructor|].
  now apply insert_sorted_sorted.
Qed.

End Sorting.

(** Two orderings of the same rows agree as soon as the key comparison
    tells the rows present apart. *)
Lemma sorted_perm_unique {A : Type} (R : A -> A -> Prop) (l1 : list A) :
  forall l2,
    (forall a b, In a l1 -> In b l1 -> R a b -> R b a -> a = b) ->
    StronglySorted R l1 -> StronglySorted R l2 -> Permutation l1 l2 ->
    l1 = l2.
Proof.
  induction l1 as [|a l1 IH]; intros l2 Hanti H1 H2 Hp.
  - apply Permutation_nil in Hp. now subst.
  - destruct l2 as [|b l2].
    + symmetry in Hp. now apply Permutation_nil in Hp.
    + inversion H1 as [|? ? Hs1 Hall1]; subst.
      inversion H2 as [|? ? Hs2 Hall2]; subst.
      assert (Hab : a = b).
      { assert (Hb : In b (a :: l1))
          by (eapply Permutation_in; [symmetry; exact Hp | now left]).
        assert (Ha : In a (b :: l2))
          by (eapply Permutation_in; [exact Hp | now left]).
        destruct Hb as [Hb|Hb]; [congruence|].
        destruct Ha as [Ha|Ha]; [congruence|].
        rewrite Forall_forall in Hall1, Hall2.
        apply Hanti; [now left | now right | now apply Hall1 | now apply Hall2]. }
      subst b. f_equal.
      apply IH; auto.
      * intros x y Hx Hy. apply Hanti; now right.
      * eapply Permutation_cons_inv; exact Hp.
Qed.

#[export] Instance reference_runtime : Runtime := {|
  fromisoformat := Reference.plain_timestamp;
  order_by := fun A le l => Reference.insertion_sort le l;
  order_by_perm := fun A le l => insertion_sort_perm le l;
  order_by_sorted := fun A le l tot tr => insertion_sort_sorted le tot tr l
|}.

(** Any two engines order a list the same way when its keys are told
    apart, and the same for a list written in another order. *)
Lemma order_by_unique {A : Type} (R1 R2 : Runtime) (le : A -> A -> bool)
    (l1 l2 : list A) :
  (forall a b, le a b = true \/ le b a = true) ->
  (forall a b c, le a b = true -> le b c = true -> le a c = true) ->
  (forall a b, In a l1 -> In b l1 -> le a b = true -> le b a = true -> a = b) ->
  Permutation l1 l2 ->
  @order_by R1 A le l1 = @order_by R2 A le l2.
Proof.
  intros Htot Htr Hanti Hp.
  apply sorted_perm_unique with (R := fun a b => le a b = true).
  - intros a b Ha Hb.
    apply Hanti.
    + exact (Permutation_in a (order_by_perm A le l1) Ha).
    + exact (Permutation_in b (order_by_perm A le l1) Hb).
  - now apply order_by_sorted.
  - now apply order_by_sorted.
  - rewrite !order_by_perm. exact Hp.
Qed.

(** ** The digest *)

Example sha256_abc :
  Hmac.hex (Sha256.digest (codes "abc"))
  = "ba7816bf8f01cfea414140de5dae2223b00361a396177a9cb410ff61f20015ad".
Proof. vm_compute. reflexivity. Qed.

Example hmac_short_key :
  Hmac.hexdigest "Jefe" "what do ya want for nothing?"
  = "5bdcc146bf60754e6a042426089575c75a003f089d2739839dec58b964ec3843".
Proof. vm_compute. reflexivity. Qed.

Example hmac_long_key :
  Hmac.hexdigest
    "kkkkkkkkkkkkkkkkkkkkkkkkkkkkkkkkkkkkkkkkkkkkkkkkkkkkkkkkkkkkkkkkkkkkkkkkkkkkkkkkkkkkkkkkkkkkkkkkkkkk"
    "payload"
  = "d1f7df739bab9a7fe462c212b3057053056af9cc307e5f9d64122aaaf148e9fe".
Proof. vm_compute. reflexivity. Qed.

Lemma hex_digit_ascii (n : Z) : (code (Hmac.hex_digit n) <? 128) = true.
Proof.
  unfold Hmac.hex_digit.
  generalize (Z.to_nat (n mod 16)). intros k.
  do 17 (destruct k as [|k]; [reflexivity|]). reflexivity.
Qed.

Lemma hex_isascii (bs : list Z) : isascii (Hmac.hex bs) = true.
Proof.
  induction bs as [|b bs IH]; simpl; [reflexivity|].
  now rewrite !hex_digit_ascii, IH.
Qed.

Lemma hex_length (bs : list Z) :
  String.length (Hmac.hex bs) = (2 * List.length bs)%nat.
Proof. induction bs as [|b bs IH]; simpl; [reflexivity|]. rewrite IH. lia. Qed.

Lemma digest_length (msg : list Z) : List.length (Sha256.digest msg) = 32%nat.
Proof.
  unfold Sha256.digest. generalize (Sha256.hash msg). intros s.
  unfold Sha256.word_bytes, Sha256.be_bytes.
  now rewrite !length_app, !length_map, !length_seq.
Qed.

(** The signature the repository's tests compute for their first payload,
    as [hmac] and [hashlib] give it. *)
Example hmac_test_payload :
  Hmac.hexdigest (encode Sample.secret) Sample.m1_body
  = "4cee0bdc2cd53502252d51e79e31c410759ffaf8d0bdb9553cabf153c8cc862c".
Proof. vm_compute. reflexivity. Qed.

(** The hexadecimal digest is 64 ASCII characters. *)
Lemma hexdigest_length (key body : string) :
  String.length (Hmac.hexdigest key body) = 64%nat.
Proof.
  unfold Hmac.hexdigest, Hmac.hmac_sha256.
  now rewrite hex_length, digest_length.
Qed.

Lemma hexdigest_isascii (key body : string) :
  isascii (Hmac.hexdigest key body) = true.
Proof. apply hex_isascii. Qed.

Lemma hexdigest_truthy (key body : string) :
  truthy (Some (Hmac.hexdigest key body)) = true.
Proof.
  pose proof (hexdigest_length key body) as H.
  destruct (Hmac.hexdigest key body); [discriminate H | reflexivity].
Qed.

(** ** The webhook handler, case by case *)

Arguments Hmac.hexdigest : simpl never.

Section Webhook.
Import Models Storage Main.

Variables (secret : string) (f : fault) (now : string).
Variables (payload : WebhookMessage) (body : string).

Let expected : string := Hmac.hexdigest (encode secret) body.

Lemma webhook_no_signature (x : option string) (d : database) :
  truthy x = false ->
  webhook secret f now payload body x d
  = (Raise (HTTPException 401 "invalid signature"), d).
Proof. intros Hx. unfold webhook. now rewrite Hx. Qed.

Lemma webhook_not_ascii (x : option string) (d : database) :
  truthy x = true -> isascii (value x) = false ->
  webhook secret f now payload body x d = (Raise TypeError, d).
Proof.
  intros Hx Ha. unfold webhook, compare_digest, bind, raise.
  now rewrite Hx, Ha, andb_false_r.
Qed.

Lemma webhook_wrong_signature (x : option string) (d : database) :
  truthy x = true -> isascii (value x) = true -> value x <> expected ->
  webhook secret f now payload body x d
  = (Raise (HTTPException 401 "invalid signature"), d).
Proof.
  intros Hx Ha Hne. unfold webhook, compare_digest, bind, raise, ret.
  rewrite Hx, Ha, hexdigest_isascii. cbn [negb andb].
  destruct (String.eqb_spec (Hmac.hexdigest (encode secret) body) (value x))
    as [E|E]; [|reflexivity].
  exfalso. apply Hne. symmetry. exact E.
Qed.

Lemma webhook_right_signature (d : database) :
  webhook secret f now payload body (Some expected) d
  = match insert_message f now (message_id payload) (from_msisdn payload)
            (to_msisdn payload) (ts payload) (text payload) d with
    | (Ok (true, _), d') => (Ok (mk_WebhookResponse "ok"), d')
    | (Ok (false, _), d') =>
        (Raise (HTTPException 500 "internal server error"), d')
    | (Raise e, d') => (Raise e, d')
    end.
Proof.
  unfold webhook, compare_digest, bind, raise, ret.
  unfold expected. rewrite hexdigest_truthy. cbn [negb value].
  rewrite hexdigest_isascii, String.eqb_refl. cbn [negb andb].
  destruct (insert_message _ _ _ _ _ _ _ d) as [[[[|] dup]|e] d']; reflexivity.
Qed.

End Webhook.

(** ** insert_message, fault by fault *)

Section Insert.
Import Models Storage.

Variables (now mid sender recipient when : string) (txt : option string).

Let row : Message := mk_Message mid sender recipient when txt (now ++ "Z")%string.

Lemma insert_message_eq (f : fault) (d : database) :
  insert_message f now mid sender recipient when txt d
  = match f with
    | ConnectFails => (Raise OperationalError, d)
    | ExecuteFails _ =>
        (Ok (false, false),
         mk_database (messages d)
                     (journal d ++ [Connected; InsertIssued mid]))
    | CommitFails _ =>
        (Ok (if has_id mid (messages d) then (true, true) else (false, false)),
         mk_database (messages d)
                     (journal d ++ [Connected; InsertIssued mid]))
    | NoFault =>
        if has_id mid (messages d)
        then (Ok (true, true),
              mk_database (messages d)
                          (journal d ++ [Connected; InsertIssued mid]))
        else (Ok (true, false),
              mk_database (messages d ++ [row])
                          (journal d ++ [Connected; InsertIssued mid; Committed]))
    end.
Proof.
  destruct d as [t j].
  destruct f; unfold insert_message, bind, get_db_connection, on_connection,
    try_except, execute_insert, commit, close, ret, log; cbn;
    try reflexivity;
    unfold has_id; try destruct (existsb _ t); cbn; rewrite <- ?app_assoc;
    reflexivity.
Qed.

(** The rows after a call: the rows before, and the new row at the end
    exactly when the call reports a creation. *)
Lemma insert_message_rows (f : fault) (d : database) :
  messages (snd (insert_message f now mid sender recipient when txt d))
  = if match f with NoFault => negb (has_id mid (messages d)) | _ => false end
    then messages d ++ [row] else messages d.
Proof.
  rewrite insert_message_eq.
  destruct f; try reflexivity; destruct (has_id mid (messages d)); reflexivity.
Qed.

End Insert.

Lemma has_id_In (mid : string) (t : Storage.table) :
  Storage.has_id mid t = true <-> In mid (map Models.r_message_id t).
Proof.
  unfold Storage.has_id. rewrite existsb_exists, in_map_iff.
  split; intros [r [H1 H2]]; exists r.
  - apply String.eqb_eq in H2. auto.
  - split; [assumption|]. now apply String.eqb_eq.
Qed.

Lemma has_id_false (mid : string) (t : Storage.table) :
  Storage.has_id mid t = false <-> ~ In mid (map Models.r_message_id t).
Proof.
  rewrite <- has_id_In. destruct (Storage.has_id mid t); split; congruence.
Qed.

Lemma insert_message_primary_key (f : Storage.fault)
    (now mid sender recipient when : string) (txt : option string)
    (d : Storage.database) :
  Storage.primary_key (Storage.messages d) ->
  Storage.primary_key (Storage.messages
     (snd (Storage.insert_message f now mid sender recipient when txt d))).
Proof.
  intros Hpk. rewrite insert_message_rows.
  destruct f; try assumption.
  destruct (Storage.has_id mid (Storage.messages d)) eqn:Hid; [assumption|].
  cbn [negb]. unfold Storage.primary_key. rewrite map_app. cbn.
  apply NoDup_app; [assumption | repeat constructor; auto |].
  intros x Hx [<-|[]]. now apply has_id_false in Hid.
Qed.

(** ** Rejection at the door *)

Section Rejection.
Import Models Storage Main.
Context `{Runtime}.

(** C1, as amended.  A request whose body does not validate is answered
    422 whatever its signature; a request whose body validates and whose
    signature header is absent, empty, or an ASCII string other than the
    expected digest is answered 401 "invalid signature".  In both cases
    the database is left as it was, journal included: the engine is not
    even asked for a connection. *)
Theorem rejected_before_storage (secret : string) (f : fault) (now : string)
    (req : webhook_request) (d : database) :
  payload_of req = None
  \/ truthy (x_signature req) = false
  \/ (isascii (value (x_signature req)) = true
      /\ value (x_signature req)
         <> Hmac.hexdigest (encode secret) (body req)) ->
  post_webhook secret f now req d
  = (match payload_of req with
     | None => Unprocessable
     | Some _ => Error 401 "invalid signature"
     end, d).
Proof.
  intros Hrej. unfold post_webhook.
  destruct (payload_of req) as [payload|]; [|reflexivity].
  destruct Hrej as [Hp|[Hs|[Ha Hne]]]; [discriminate Hp | |].
  - now rewrite webhook_no_signature.
  - destruct (truthy (x_signature req)) eqn:Ht.
    + now rewrite webhook_wrong_signature.
    + now rewrite webhook_no_signature.
Qed.

(** A signature with a character outside ASCII, on a body that
    validates: [compare_digest] raises and the answer is 500. *)
Lemma signature_outside_ascii (secret : string) (f : fault) (now : string)
    (req : webhook_request) (d : database) :
  payload_of req <> None ->
  isascii (value (x_signature req)) = false ->
  post_webhook secret f now req d = (ServerError, d).
Proof.
  intros Hp Ha. unfold post_webhook.
  destruct (payload_of req) as [payload|]; [|congruence].
  rewrite webhook_not_ascii; [reflexivity| |assumption].
  destruct (x_signature req) as [[|c s]|]; try reflexivity; discriminate Ha.
Qed.

(** Verification lets a request through to the store exactly when the
    header holds the expected digest. *)
Lemma verification_iff (secret : string) (now : string)
    (payload : WebhookMessage) (body : string) (x : option string)
    (d : database) :
  (exists r d', webhook secret NoFault now payload body x d = (Ok r, d'))
  <-> x = Some (Hmac.hexdigest (encode secret) body).
Proof.
  split.
  - intros [r [d' Hw]].
    destruct (truthy x) eqn:Ht.
    + destruct (isascii (value x)) eqn:Ha.
      * destruct (String.eqb_spec (value x) (Hmac.hexdigest (encode secret) body))
          as [E|E].
        -- destruct x as [s|]; [|discriminate Ht]. cbn in E. now subst.
        -- rewrite webhook_wrong_signature in Hw by assumption. discriminate Hw.
      * rewrite webhook_not_ascii in Hw by assumption. discriminate Hw.
    + rewrite webhook_no_signature in Hw by assumption. discriminate Hw.
  - intros ->. rewrite webhook_right_signature, insert_message_eq.
    destruct (has_id (message_id payload) (Storage.messages d)); eauto.
Qed.

End Rejection.

(** C1: the request of the repository's test with the malformed sender,
    sent without a signature, is answered 422 and not 401. *)
Lemma unsigned_malformed_is_unprocessable :
  Main.x_signature (Sample.unsigned Sample.m5_body Sample.m5_object) = None
  /\ Main.post_webhook Sample.secret Storage.NoFault "2025-02-01T08:00:00"
       (Sample.unsigned Sample.m5_body Sample.m5_object) Sample.empty
     = (Main.Unprocessable, Sample.empty)
  /\ Main.status_of
       (fst (Main.post_webhook Sample.secret Storage.NoFault "2025-02-01T08:00:00"
               (Sample.unsigned Sample.m5_body Sample.m5_object) Sample.empty))
     <> 401.
Proof. repeat split. vm_compute. discriminate. Qed.

Lemma rejected_before_storage_witness :
  Main.post_webhook Sample.secret Storage.NoFault "2025-02-01T08:00:00"
    (Sample.unsigned Sample.m1_body Sample.m1_object) Sample.empty
  = (Main.Error 401 "invalid signature", Sample.empty).
Proof.
  exact (rejected_before_storage Sample.secret Storage.NoFault
           "2025-02-01T08:00:00"
           (Sample.unsigned Sample.m1_body Sample.m1_object) Sample.empty
           (or_intror (or_introl eq_refl))).
Defined.

(** C7: a wrong signature holding the byte 0xE9 is not answered 401 as a
    missing one is, but 500. *)
Theorem wrong_signature_outside_ascii_is_500 :
  Main.post_webhook Sample.secret Storage.NoFault "2025-02-01T08:00:00"
    (Main.mk_request Sample.m1_body (Some Sample.m1_object)
       (Some (String (chr 233) EmptyString))) Sample.empty
  = (Main.ServerError, Sample.empty)
  /\ Main.post_webhook Sample.secret Storage.NoFault "2025-02-01T08:00:00"
       (Sample.unsigned Sample.m1_body Sample.m1_object) Sample.empty
     = (Main.Error 401 "invalid signature", Sample.empty).
Proof.
  split.
  - apply signature_outside_ascii; [discriminate | reflexivity].
  - reflexivity.
Qed.

(** ** Outcomes of an insert *)

Section InsertOutcomes.
Import Models Storage.

Variables (now mid sender recipient when : string) (txt : option string).

Let row : Message := mk_Message mid sender recipient when txt (now ++ "Z")%string.
Let call (f : fault) := insert_message f now mid sender recipient when txt.

(** C8, as amended.  A call whose connection opens returns one of
    Created [(True, False)], Duplicate [(True, True)] and Failed
    [(False, False)]; a call whose connection does not open raises.
    Whatever the fault, the rows afterwards are the rows before, with the
    whole new row at the end exactly when the call reports Created: a row
    with the given id is absent, or present with every column as some
    call gave it. *)
Theorem insert_message_outcomes (f : fault) (d : database) :
  (f = ConnectFails -> call f d = (Raise OperationalError, d))
  /\ (f <> ConnectFails ->
      fst (call f d) = Ok (true, false)
      \/ fst (call f d) = Ok (true, true)
      \/ fst (call f d) = Ok (false, false))
  /\ (fst (call f d) = Ok (true, false) ->
      has_id mid (messages d) = false
      /\ messages (snd (call f d)) = messages d ++ [row])
  /\ (fst (call f d) = Ok (true, true) -> has_id mid (messages d) = true)
  /\ (fst (call f d) <> Ok (true, false) ->
      messages (snd (call f d)) = messages d)
  /\ (Storage.primary_key (messages d) -> Storage.primary_key (messages (snd (call f d))))
  /\ (forall r, In r (messages (snd (call f d))) ->
                In r (messages d) \/ r = row).
Proof.
  unfold call.
  split; [intros ->; apply insert_message_eq|].
  split; [|split; [|split; [|split; [|split]]]].
  - intros Hf. rewrite insert_message_eq.
    destruct f; try congruence; destruct (has_id mid (messages d)); cbn; auto.
  - rewrite insert_message_eq.
    destruct f; try discriminate;
      destruct (has_id mid (messages d)); try discriminate.
    intros _. split; reflexivity.
  - rewrite insert_message_eq.
    destruct f; try discriminate;
      destruct (has_id mid (messages d)); try discriminate; reflexivity.
  - rewrite insert_message_eq.
    destruct f; try reflexivity;
      destruct (has_id mid (messages d)); try reflexivity.
    intros Hne. now contradiction Hne.
  - apply insert_message_primary_key.
  - intros r. rewrite insert_message_rows.
    destruct (match f with NoFault => _ | _ => false end); auto.
    rewrite in_app_iff. cbn. intuition.
Qed.

(** C10, as amended.  Once the connection is open the call returns: what
    the INSERT and the commit raise is caught, IntegrityError as
    [(True, True)], an exception of any other class as [(False, False)].
    The connection is opened before the [try] block, and what that raises
    reaches the caller. *)
Theorem insert_message_exception_mapping (f : fault) (d : database) :
  let conn := mk_connection (log Connected d) (messages d) in
  let write := bind (execute_insert f row) (fun _ => commit f) conn in
  (f <> ConnectFails ->
   fst (call f d)
   = match fst write with
     | Ok _ => Ok (true, false)
     | Raise IntegrityError => Ok (true, true)
     | Raise _ => Ok (false, false)
     end)
  /\ (f = ConnectFails -> fst (call f d) = Raise OperationalError)
  /\ fst write
     = match f with
       | ExecuteFails e => Raise e
       | _ =>
           if has_id mid (messages d) then Raise IntegrityError
           else match f with
                | CommitFails e => Raise e
                | _ => Ok tt
                end
       end
  /\ (forall e : error,
        fst (call (ExecuteFails e) d) = Ok (false, false)
        /\ (has_id mid (messages d) = false ->
            fst (call (CommitFails e) d) = Ok (false, false))).
Proof.
  cbv zeta. unfold call.
  split; [|split; [|split]].
  - rewrite insert_message_eq.
    unfold bind, execute_insert, commit, log, has_id. cbn.
    intros Hf. destruct f; try congruence; try reflexivity;
      destruct (existsb _ (messages d)); reflexivity.
  - intros ->. now rewrite insert_message_eq.
  - unfold bind, execute_insert, commit, log, has_id. cbn.
    destruct f; try reflexivity;
      destruct (existsb _ (messages d)); reflexivity.
  - intros e. rewrite !insert_message_eq. split; [reflexivity|].
    now intros ->.
Qed.

End InsertOutcomes.

(** C8: with the database file out of reach the call returns none of the
    three outcomes; it raises. *)
Lemma insert_unreachable_is_no_outcome :
  fst (Storage.insert_message Storage.ConnectFails "2025-02-01T08:00:00"
         "m1" "+919876543210" "+14155550100" "2025-01-15T10:00:00Z"
         (Some "Hello") Sample.empty)
  = Raise OperationalError
  /\ (forall outcome : bool * bool,
        fst (Storage.insert_message Storage.ConnectFails "2025-02-01T08:00:00"
               "m1" "+919876543210" "+14155550100" "2025-01-15T10:00:00Z"
               (Some "Hello") Sample.empty)
        <> Ok outcome).
Proof. split; [reflexivity | intros outcome; discriminate]. Qed.

Lemma insert_message_outcomes_witness :
  Storage.has_id "m1" (Storage.messages Sample.empty) = false
  /\ Storage.messages
       (snd (Storage.insert_message Storage.NoFault "2025-02-01T08:00:00"
               "m1" "+919876543210" "+14155550100" "2025-01-15T10:00:00Z"
               (Some "Hello") Sample.empty))
     = Storage.messages Sample.empty
       ++ [Models.mk_Message "m1" "+919876543210" "+14155550100"
             "2025-01-15T10:00:00Z" (Some "Hello") "2025-02-01T08:00:00Z"].
Proof.
  exact (proj1 (proj2 (proj2
           (insert_message_outcomes "2025-02-01T08:00:00"
              "m1" "+919876543210" "+14155550100" "2025-01-15T10:00:00Z"
              (Some "Hello") Storage.NoFault Sample.empty))) eq_refl).
Defined.

(** C10: the exception raised while opening the connection reaches the
    caller, with a row already stored under the same id. *)
Lemma insert_propagates_connection_error :
  Storage.insert_message Storage.ConnectFails "2025-02-01T09:00:00"
    "m1" "+919876543210" "+14155550100" "2025-01-10T10:00:00Z"
    (Some "Hello world") (Sample.with_rows Sample.three)
  = (Raise OperationalError, Sample.with_rows Sample.three).
Proof. reflexivity. Qed.

Lemma insert_message_exception_mapping_witness :
  fst (Storage.insert_message (Storage.CommitFails DatabaseError)
         "2025-02-01T09:00:00"
         "m9" "+919876543210" "+14155550100" "2025-01-10T10:00:00Z"
         None (Sample.with_rows Sample.three))
  = Ok (false, false).
Proof.
  refine (proj1 (insert_message_exception_mapping "2025-02-01T09:00:00"
            "m9" "+919876543210" "+14155550100" "2025-01-10T10:00:00Z"
            None (Storage.CommitFails DatabaseError)
            (Sample.with_rows Sample.three)) _).
  discriminate.
Defined.

(** ** Repeated delivery *)

Lemma filter_none {A : Type} (p : A -> bool) (l : list A) :
  (forall x, In x l -> p x = false) -> filter p l = [].
Proof.
  induction l as [|a l IH]; cbn; intros Hl; [reflexivity|].
  rewrite (Hl a (or_introl eq_refl)). apply IH. intros x Hx. apply Hl. now right.
Qed.

Section Idempotency.
Import Models Storage Main.
Context `{Runtime}.

Variables (secret raw : string) (o : json_object) (m : WebhookMessage).

Let req : webhook_request :=
  mk_request raw (Some o) (Some (Hmac.hexdigest (encode secret) raw)).

Let row (now : string) : Message :=
  mk_Message (message_id m) (from_msisdn m) (to_msisdn m) (ts m) (text m)
             (now ++ "Z")%string.

Let ok : response WebhookResponse := Success (mk_WebhookResponse "ok").

Hypothesis valid : parse_WebhookMessage o = Some m.

(** One delivery with the right signature and no storage fault. *)
Lemma delivery_accepted (now : string) (d : database) :
  fst (post_webhook secret NoFault now req d) = ok
  /\ Storage.messages (snd (post_webhook secret NoFault now req d))
     = if has_id (message_id m) (Storage.messages d)
       then Storage.messages d
       else Storage.messages d ++ [row now].
Proof.
  unfold post_webhook, payload_of, req. cbn [json body x_signature].
  rewrite valid, webhook_right_signature, insert_message_eq.
  destruct (has_id (message_id m) (Storage.messages d)); split; reflexivity.
Qed.

Lemma has_id_app_same (t : table) (now : string) :
  has_id (message_id m) (t ++ [row now]) = true.
Proof.
  apply has_id_In. rewrite map_app, in_app_iff. right. now left.
Qed.

(** Deliveries of a message that is already stored. *)
Lemma redelivery (nows : list string) :
  forall d,
    has_id (message_id m) (Storage.messages d) = true ->
    Forall (fun r => r = ok)
           (fst (deliver secret (map (fun now => (NoFault, now, req)) nows) d))
    /\ Storage.messages
         (snd (deliver secret (map (fun now => (NoFault, now, req)) nows) d))
       = Storage.messages d.
Proof.
  induction nows as [|now nows IH]; intros d Hid; cbn.
  - split; [constructor | reflexivity].
  - destruct (delivery_accepted now d) as [Hr Hm].
    destruct (post_webhook secret NoFault now req d) as [r d1].
    cbn in Hr, Hm. rewrite Hid in Hm.
    assert (Hid1 : has_id (message_id m) (Storage.messages d1) = true)
      by now rewrite Hm.
    destruct (IH d1 Hid1) as [Hall Hsame].
    destruct (deliver secret _ d1) as [rs d2]. cbn in *.
    split; [now constructor | congruence].
Qed.

Lemma count_one (t : table) (mid : string) :
  Storage.primary_key t -> has_id mid t = true ->
  List.length (filter (fun r => String.eqb (r_message_id r) mid) t) = 1%nat.
Proof.
  unfold Storage.primary_key.
  induction t as [|r t IH]; cbn; [discriminate|].
  intros Hnd Hid. inversion Hnd as [|? ? Hnotin Hnd']; subst.
  destruct (String.eqb_spec (r_message_id r) mid) as [E|E]; cbn in *.
  - f_equal. subst mid.
    rewrite filter_none; [reflexivity|].
    intros x Hx. apply String.eqb_neq. intros E.
    apply Hnotin. rewrite <- E. now apply in_map.
  - now apply IH.
Qed.

(** C3.  A valid message delivered [1 + length nows] times with the right
    signature, the store meeting no fault: every delivery is answered
    200 [{"status": "ok"}], one row carries the message's id afterwards,
    and the deliveries after the first change no row of the table (so
    the stored row keeps its [created_at] and every other column, though
    each delivery comes with its own clock). *)
Theorem delivery_is_idempotent (now : string) (nows : list string)
    (d : database) :
  Storage.primary_key (Storage.messages d) ->
  let first := post_webhook secret NoFault now req d in
  let later :=
    deliver secret (map (fun n => (NoFault, n, req)) nows) (snd first) in
  fst first = ok
  /\ Forall (fun r => r = ok) (fst later)
  /\ List.length (fst later) = List.length nows
  /\ List.length
       (filter (fun r => String.eqb (r_message_id r) (message_id m))
               (Storage.messages (snd later))) = 1%nat
  /\ Storage.messages (snd later) = Storage.messages (snd first)
  /\ (has_id (message_id m) (Storage.messages d) = true ->
      Storage.messages (snd later) = Storage.messages d)
  /\ (has_id (message_id m) (Storage.messages d) = false ->
      Storage.messages (snd later) = Storage.messages d ++ [row now]).
Proof.
  intros Hpk first later.
  destruct (delivery_accepted now d) as [Hr Hm]. fold first in Hr, Hm.
  assert (Hid1 : has_id (message_id m) (Storage.messages (snd first)) = true).
  { rewrite Hm. destruct (has_id _ (Storage.messages d)) eqn:E;
      [exact E | apply has_id_app_same]. }
  assert (Hpk1 : Storage.primary_key (Storage.messages (snd first))).
  { rewrite Hm. destruct (has_id _ (Storage.messages d)) eqn:E; [exact Hpk|].
    unfold Storage.primary_key. rewrite map_app. cbn.
    apply NoDup_app; [exact Hpk | repeat constructor; auto |].
    intros x Hx [<-|[]]. now apply has_id_false in E. }
  destruct (redelivery nows (snd first) Hid1) as [Hall Hsame].
  fold later in Hall, Hsame.
  repeat split; try assumption.
  - subst later. clear. generalize (snd first).
    induction nows as [|n ns IH]; intros d0; cbn; [reflexivity|].
    destruct (post_webhook secret NoFault n req d0) as [r d1].
    specialize (IH d1). destruct (deliver secret _ d1). cbn in *. congruence.
  - rewrite Hsame. now apply count_one.
  - intros E. now rewrite Hsame, Hm, E.
  - intros E. now rewrite Hsame, Hm, E.
Qed.

End Idempotency.

Lemma delivery_is_idempotent_witness :
  Main.status_of
    (fst (Main.post_webhook Sample.secret Storage.NoFault "2025-02-01T08:00:00"
            (Sample.signed Sample.m1_body Sample.m1_object) Sample.empty))
  = 200.
Proof.
  refine (f_equal Main.status_of
            (proj1 (delivery_is_idempotent Sample.secret Sample.m1_body
                      Sample.m1_object Sample.m1 _ "2025-02-01T08:00:00"
                      ["2025-02-01T08:00:05"; "2025-02-01T08:01:00"]
                      Sample.empty _))).
  - reflexivity.
  - constructor.
Defined.

(** ** LIKE *)

Lemma like_percent (p t : string) :
  Storage.pattern_compare (String "%" p) t
  = Storage.pattern_compare p t
    || match t with
       | EmptyString => false
       | String _ t' => Storage.pattern_compare (String "%" p) t'
       end.
Proof. destruct t; reflexivity. Qed.


(** A leading [%] lets the rest of the pattern start anywhere. *)
Lemma like_percent_iff (p t : string) :
  Storage.pattern_compare (String "%" p) t = true
  <-> exists before after : string,
        t = (before ++ after)%string /\ Storage.pattern_compare p after = true.
Proof.
  induction t as [|d t IH]; rewrite like_percent, orb_true_iff.
  - split.
    + intros [H|H]; [|discriminate]. now exists EmptyString, EmptyString.
    + intros [[|? ?] [after [E H]]]; [|discriminate E].
      cbn in E. subst after. now left.
  - rewrite IH. split.
    + intros [H|[before [after [E H]]]].
      * exists EmptyString, (String d t). auto.
      * exists (String d before), after. cbn. now rewrite E.
    + intros [[|c before] [after [E H]]]; cbn in E.
      * subst after. now left.
      * injection E as -> E. right. now exists before, after.
Qed.

Lemma like_percent_only (t : string) : Storage.pattern_compare "%" t = true.
Proof.
  apply like_percent_iff. exists t, EmptyString. split; [|reflexivity].
  induction t as [|c t IH]; cbn; [reflexivity | now rewrite <- IH].
Qed.



(** *** What LIKE reads of its arguments *)

Lemma c_string_nul_free (s : string) :
  Spec.nul_free s = true -> Storage.c_string s = s.
Proof.
  induction s as [|c s IH]; cbn; [reflexivity|].
  destruct (Ascii.eqb c zero); cbn; [discriminate|].
  intros Hs. now rewrite IH.
Qed.

Lemma c_string_app (s s' : string) :
  Spec.nul_free s = true ->
  Storage.c_string (s ++ s')%string = (s ++ Storage.c_string s')%string.
Proof.
  induction s as [|c s IH]; cbn; [reflexivity|].
  destruct (Ascii.eqb c zero); cbn; [discriminate|].
  intros Hs. now rewrite IH.
Qed.

Lemma nul_free_c_string (s : string) :
  Spec.nul_free (Storage.c_string s) = true.
Proof.
  induction s as [|c s IH]; cbn; [reflexivity|].
  destruct (Ascii.eqb c zero) eqn:Hc; cbn; [reflexivity|].
  now rewrite Hc.
Qed.



Lemma too_complex_eq (q : option string) :
  Storage.too_complex ("%" ++ value q ++ "%")%string = Spec.pattern_too_long q.
Proof. reflexivity. Qed.


(** What the unescaped pattern does with a [q] that holds a wildcard, and
    what a NUL does in the text or in [q]. *)
Example like_wildcards :
  Storage.sql_like (Some "abc") ("%" ++ "%" ++ "%")%string = Ok true
  /\ Storage.sql_like (Some "abc") ("%" ++ "a_c" ++ "%")%string = Ok true
  /\ Storage.sql_like None ("%" ++ "%" ++ "%")%string = Ok false
  /\ Storage.sql_like (Some (String "a" (String zero "b")))
       ("%" ++ "b" ++ "%")%string = Ok false
  /\ Storage.sql_like (Some "abc")
       ("%" ++ String zero EmptyString ++ "%")%string = Ok true.
Proof. repeat split. Qed.

(** ** Queries *)

Lemma where_clause_eq (sender since q : option string) (r : Models.Message) :
  Storage.where_clause sender since q r
  = if Spec.passes_sender_since sender since r
    then if truthy q
         then Storage.sql_like (Models.r_text r) ("%" ++ value q ++ "%")%string
         else Ok true
    else Ok false.
Proof.
  unfold Storage.where_clause, Storage.where_clauses, Storage.text_ge,
    Spec.passes_sender_since.
  destruct (truthy sender), (truthy since), (truthy q);
    cbn [app Storage.sql_and andb];
    try destruct (String.eqb _ _); try destruct (String.leb _ _);
    cbn [andb]; try reflexivity;
    destruct (Storage.sql_like _ _) as [[|]|e]; reflexivity.
Qed.

(** Where the pattern is not too long, a row passes the clause exactly
    when it passes the three filters. *)
Lemma holds_where_clause (sender since q : option string)
    (r : Models.Message) :
  truthy q && Spec.pattern_too_long q = false ->
  Storage.where_clause sender since q r = Ok (Spec.passes sender since q r).
Proof.
  intros Hfit. rewrite <- too_complex_eq in Hfit.
  rewrite where_clause_eq. unfold Spec.passes, Storage.sql_like.
  destruct (Spec.passes_sender_since sender since r); [|reflexivity].
  destruct (truthy q); [|reflexivity]. cbn [andb] in *. now rewrite Hfit.
Qed.

(** The scan under the clause of [get_messages]. *)
Lemma sql_where_eq (sender since q : option string) (t : Storage.table) :
  Storage.sql_where (Storage.where_clause sender since q) t
  = if Spec.pattern_rejected sender since q t then Raise OperationalError
    else Ok (filter (Spec.passes sender since q) t).
Proof.
  unfold Spec.pattern_rejected.
  destruct (truthy q && Spec.pattern_too_long q) eqn:Hfit; cbn [andb].
  - apply andb_true_iff in Hfit as [Hq Hlong]. rewrite <- too_complex_eq in Hlong.
    induction t as [|r t IH]; [reflexivity|].
    cbn [Storage.sql_where existsb filter]. rewrite where_clause_eq, IH.
    unfold Spec.passes, Storage.sql_like. rewrite Hq, Hlong.
    destruct (Spec.passes_sender_since sender since r); cbn [orb andb];
      [reflexivity|].
    now destruct (existsb _ t).
  - induction t as [|r t IH]; [reflexivity|].
    cbn [Storage.sql_where filter].
    rewrite holds_where_clause, IH by assumption.
    now destruct (Spec.passes sender since q r).
Qed.

Lemma bind_int_eq (n : Z) :
  Storage.bind_int n = if Spec.int64 n then Ok n else Raise OverflowError.
Proof. reflexivity. Qed.

(** [get_messages] in closed form: it raises on a pattern that is too long
    and gets tested, raises on a limit or an offset beyond 64 bits, and
    otherwise counts the rows that pass the filters and cuts the page from
    them. *)
Lemma get_messages_eq `{Runtime} (limit offset : Z)
    (sender since q : option string) (t : Storage.table) :
  Storage.get_messages limit offset sender since q t
  = if Spec.pattern_rejected sender since q t then Raise OperationalError
    else if Spec.int64 limit && Spec.int64 offset
    then Ok (Storage.sql_limit limit
               (Storage.sql_offset offset
                  (order_by Storage.by_ts_then_id
                     (filter (Spec.passes sender since q) t))),
             Z.of_nat (List.length (filter (Spec.passes sender since q) t)))
    else Raise OverflowError.
Proof.
  unfold Storage.get_messages. cbv zeta. rewrite sql_where_eq, !bind_int_eq.
  destruct (Spec.pattern_rejected sender since q t); [reflexivity|].
  destruct (Spec.int64 limit); [|reflexivity].
  destruct (Spec.int64 offset); reflexivity.
Qed.

(** On the rows of a table whose query returns, the clause holds exactly
    of the rows that pass the filters. *)
Lemma where_clause_passes (sender since q : option string)
    (t : Storage.table) (r : Models.Message) :
  Spec.pattern_rejected sender since q t = false -> In r t ->
  Storage.where_clause sender since q r = Ok (Spec.passes sender since q r).
Proof.
  unfold Spec.pattern_rejected. intros Hrej Hin.
  destruct (truthy q && Spec.pattern_too_long q)
    eqn:Hfit; [|now apply holds_where_clause].
  cbn [andb] in Hrej.
  assert (Hr : Spec.passes_sender_since sender since r = false).
  { destruct (Spec.passes_sender_since sender since r) eqn:Hr; [|reflexivity].
    rewrite <- Hrej. symmetry. apply existsb_exists. now exists r. }
  rewrite where_clause_eq. unfold Spec.passes. now rewrite Hr.
Qed.


Lemma filter_permutation {A : Type} (p : A -> bool) (l l' : list A) :
  Permutation l l' -> Permutation (filter p l) (filter p l').
Proof.
  induction 1 as [|x l l' _ IH|x y l|l l' l'' _ IH1 _ IH2]; cbn.
  - constructor.
  - destruct (p x); [now constructor | assumption].
  - destruct (p x), (p y); try reflexivity. apply perm_swap.
  - now transitivity (filter p l').
Qed.

Lemma filter_all {A : Type} (p : A -> bool) (l : list A) :
  (forall x, p x = true) -> filter p l = l.
Proof.
  intros Hp. induction l as [|a l IH]; cbn; [reflexivity|].
  now rewrite Hp, IH.
Qed.

Lemma In_firstn {A : Type} (n : nat) (l : list A) (x : A) :
  In x (firstn n l) -> In x l.
Proof.
  intros Hx. rewrite <- (firstn_skipn n l). apply in_or_app. now left.
Qed.

Lemma In_skipn {A : Type} (n : nat) (l : list A) (x : A) :
  In x (skipn n l) -> In x l.
Proof.
  intros Hx. rewrite <- (firstn_skipn n l). apply in_or_app. now right.
Qed.



Lemma existsb_permutation {A : Type} (p : A -> bool) (l l' : list A) :
  Permutation l l' -> existsb p l = existsb p l'.
Proof.
  induction 1 as [|x l l' _ IH|x y l|l l' l'' _ IH1 _ IH2]; cbn.
  - reflexivity.
  - now rewrite IH.
  - destruct (p x), (p y); reflexivity.
  - congruence.
Qed.

Section Query.
Import Models Storage Main.
Context `{Runtime}.



(** What it returns. *)
Lemma get_messages_ok (limit offset : Z) (sender since q : option string)
    (t : table) (rows : list Message) (total : Z) :
  get_messages limit offset sender since q t = Ok (rows, total) ->
  Spec.pattern_rejected sender since q t = false
  /\ Spec.int64 limit = true /\ Spec.int64 offset = true
  /\ rows = sql_limit limit
              (sql_offset offset
                 (order_by by_ts_then_id (filter (Spec.passes sender since q) t)))
  /\ total = Z.of_nat (List.length (filter (Spec.passes sender since q) t)).
Proof.
  rewrite get_messages_eq.
  destruct (Spec.pattern_rejected sender since q t); [discriminate|].
  destruct (Spec.int64 limit), (Spec.int64 offset); cbn [andb];
    try discriminate.
  intros E. injection E as <- <-. auto.
Qed.


(** C9.  A filter given as the empty string is the filter not given: the
    result is the same, whatever the other filters; with the three of
    them empty every row is counted, the rows with a null text and the
    rows of whatever sender included. *)
Theorem empty_filter_is_absent (limit offset : Z)
    (sender since q : option string) (t : table) :
  get_messages limit offset (Some "") since q t
  = get_messages limit offset None since q t
  /\ get_messages limit offset sender (Some "") q t
     = get_messages limit offset sender None q t
  /\ get_messages limit offset sender since (Some "") t
     = get_messages limit offset sender since None t
  /\ get_messages limit offset (Some "") (Some "") (Some "") t
     = (if Spec.int64 limit && Spec.int64 offset
        then Ok (sql_limit limit (sql_offset offset (order_by by_ts_then_id t)),
                 Z.of_nat (List.length t))
        else Raise OverflowError)
  /\ (exists rows,
        get_messages (-1) 0 (Some "") (Some "") (Some "") t
        = Ok (rows, Z.of_nat (List.length t))
        /\ Permutation rows t)
  /\ messages limit offset (Some "") (Some "") (Some "") t
     = messages limit offset None None None t.
Proof.
  assert (Hall : filter (Spec.passes (Some "") (Some "") (Some "")) t = t)
    by now apply filter_all.
  repeat split; try reflexivity.
  - rewrite get_messages_eq. cbn [Spec.pattern_rejected truthy andb].
    now rewrite Hall.
  - rewrite get_messages_eq. cbn [Spec.pattern_rejected truthy andb].
    rewrite Hall. eexists. split; [reflexivity|].
    unfold sql_limit, sql_offset. cbn. apply order_by_perm.
Qed.

(** The handler of GET /messages, parameter by parameter.  It answers with
    the limit brought into 1..100 and the offset brought to 0 or more,
    reports those two values, cuts the page with them, and its total is
    the number of rows that pass the filters it was given, whatever the
    limit and the offset.  It raises what [get_messages] raises: on an
    offset of 2^63 or more, and on a pattern that is too long. *)
Lemma pagination_is_clamped (limit offset : Z)
    (sender since q : option string) (t : table) :
  match messages limit offset sender since q t with
  | Ok resp =>
      Models.limit resp = Z.max 1 (Z.min 100 limit)
      /\ 1 <= Models.limit resp <= 100
      /\ Models.offset resp = Z.max 0 offset
      /\ offset < 2 ^ 63
      /\ total resp
         = Z.of_nat (List.length (filter (Spec.passes sender since q) t))
      /\ get_messages (Models.limit resp) (Models.offset resp)
           sender since q t
         = Ok (data resp, total resp)
      /\ Z.of_nat (List.length (data resp)) <= Models.limit resp
  | Raise e =>
      (e = OperationalError
       /\ Spec.pattern_rejected sender since q t = true)
      \/ (e = OverflowError /\ 2 ^ 63 <= offset
          /\ Spec.pattern_rejected sender since q t = false)
  end.
Proof.
  unfold messages.
  assert (Hl : (if (if limit <? 1 then 1 else limit) >? 100 then 100
                else if limit <? 1 then 1 else limit)
               = Z.max 1 (Z.min 100 limit)).
  { destruct (Z.ltb_spec limit 1);
      [destruct (Z.gtb_spec 1 100) | destruct (Z.gtb_spec limit 100)]; lia. }
  assert (Ho : (if offset <? 0 then 0 else offset) = Z.max 0 offset).
  { destruct (Z.ltb_spec offset 0); lia. }
  cbv zeta. rewrite Hl, Ho.
  destruct (get_messages (Z.max 1 (Z.min 100 limit)) (Z.max 0 offset)
              sender since q t) as [[rows n]|e] eqn:Hget.
  - pose proof (get_messages_ok _ _ _ _ _ _ _ _ Hget)
      as [_ [_ [Hoff [Hrows Hn]]]].
    cbn [Models.limit Models.offset total data].
    repeat split; try lia; try assumption.
    + unfold Spec.int64 in Hoff. apply andb_true_iff in Hoff as [_ Hoff].
      apply Z.ltb_lt in Hoff. lia.
    + rewrite Hrows. unfold sql_limit.
      destruct (Z.ltb_spec (Z.max 1 (Z.min 100 limit)) 0); [lia|].
      rewrite length_firstn. lia.
  - rewrite get_messages_eq in Hget.
    destruct (Spec.pattern_rejected sender since q t);
      [left; split; [congruence | reflexivity]|].
    right.
    assert (Hlim : Spec.int64 (Z.max 1 (Z.min 100 limit)) = true).
    { unfold Spec.int64. apply andb_true_iff. split;
        [apply Z.leb_le | apply Z.ltb_lt]; lia. }
    rewrite Hlim in Hget. cbn [andb] in Hget.
    destruct (Spec.int64 (Z.max 0 offset)) eqn:Hoff; [discriminate|].
    split; [congruence|]. split; [|reflexivity].
    unfold Spec.int64 in Hoff. apply andb_false_iff in Hoff as [Hoff|Hoff].
    + apply Z.leb_gt in Hoff. lia.
    + apply Z.ltb_ge in Hoff. lia.
Qed.

(** C5.  GET /messages?from=... does not filter by sender: the handler's
    parameter is [from_msisdn], and the framework binds it to the query
    parameter of that name only.  On the messages of the repository's
    test, two of them from the sender asked for, the answer counts and
    returns all three; the same request with [from_msisdn] in the place of
    [from] counts the two.  In general the answer does not depend on
    [from] at all.  And the offset is clamped from below only: at 2^63 the
    request is answered 500, whatever the table. *)
Theorem from_parameter_is_ignored :
  (exists resp,
     get_messages_route Sample.from_request Sample.by_sender = Success resp
     /\ total resp = 3
     /\ Permutation (data resp) Sample.by_sender
     /\ Models.limit resp = 50 /\ Models.offset resp = 0)
  /\ List.length
       (filter (fun r => String.eqb (r_from_msisdn r) "+919876543210")
               Sample.by_sender) = 2%nat
  /\ (exists resp,
        get_messages_route
          (mk_messages_request None None None (Some "+919876543210") None None)
          Sample.by_sender = Success resp
        /\ total resp = 2)
  /\ (forall (limit offset : option Z)
             (from from' from_msisdn since q : option string) (t : table),
        get_messages_route
          (mk_messages_request limit offset from from_msisdn since q) t
        = get_messages_route
            (mk_messages_request limit offset from' from_msisdn since q) t)
  /\ (forall (limit : option Z) (from from_msisdn since : option string)
             (t : table),
        get_messages_route
          (mk_messages_request limit (Some (2 ^ 63)) from from_msisdn since
             None) t
        = ServerError).
Proof.
  split; [|split; [reflexivity|split; [|split; [reflexivity|]]]].
  - unfold get_messages_route, messages. cbn [default Sample.from_request
      query_limit query_offset query_from_msisdn query_since query_q].
    change (if (if 50 <? 1 then 1 else 50) >? 100 then 100
            else if 50 <? 1 then 1 else 50) with 50.
    change (if 0 <? 0 then 0 else 0) with 0.
    rewrite get_messages_eq.
    change (Spec.pattern_rejected None None None Sample.by_sender) with false.
    change (Spec.int64 50 && Spec.int64 0) with true. cbv iota.
    change (filter (Spec.passes None None None) Sample.by_sender)
      with Sample.by_sender.
    eexists. split; [reflexivity|].
    cbn [total data Models.limit Models.offset].
    repeat split.
    unfold sql_limit, sql_offset. cbn [Z.ltb Z.compare Z.to_nat skipn].
    rewrite firstn_all2; [apply order_by_perm|].
    rewrite (Permutation_length (order_by_perm _ _ _)). cbn. lia.
  - unfold get_messages_route, messages. cbn [default
      query_limit query_offset query_from_msisdn query_since query_q].
    change (if (if 50 <? 1 then 1 else 50) >? 100 then 100
            else if 50 <? 1 then 1 else 50) with 50.
    change (if 0 <? 0 then 0 else 0) with 0.
    rewrite get_messages_eq.
    change (Spec.pattern_rejected (Some "+919876543210") None None
              Sample.by_sender) with false.
    change (Spec.int64 50 && Spec.int64 0) with true. cbv iota.
    eexists. split; reflexivity.
  - intros limit from from_msisdn since t.
    pose proof (pagination_is_clamped (default 50 limit) (2 ^ 63)
                  from_msisdn since None t) as Hc.
    unfold get_messages_route.
    cbn [default query_limit query_offset query_from_msisdn query_since
         query_q].
    destruct (messages (default 50 limit) (2 ^ 63) from_msisdn since None t)
      as [resp|e].
    + destruct Hc as [_ [_ [_ [Hoff _]]]]. lia.
    + destruct Hc as [[_ Hrej]|[-> _]]; [|reflexivity].
      unfold Spec.pattern_rejected in Hrej. discriminate Hrej.
Qed.

End Query.




(** ** The order of a page *)

Lemma by_ts_then_id_total (a b : Models.Message) :
  Storage.by_ts_then_id a b = true \/ Storage.by_ts_then_id b a = true.
Proof.
  unfold Storage.by_ts_then_id, Storage.text_le.
  rewrite (String.compare_antisym (Models.r_ts b) (Models.r_ts a)).
  destruct (String.compare (Models.r_ts a) (Models.r_ts b)); cbn; auto.
  apply String.leb_total.
Qed.

Lemma by_ts_then_id_trans (a b c : Models.Message) :
  Storage.by_ts_then_id a b = true -> Storage.by_ts_then_id b c = true ->
  Storage.by_ts_then_id a c = true.
Proof.
  unfold Storage.by_ts_then_id, Storage.text_le.
  destruct (String.compare (Models.r_ts a) (Models.r_ts b)) eqn:Hab;
    try discriminate;
    destruct (String.compare (Models.r_ts b) (Models.r_ts c)) eqn:Hbc;
    try discriminate; intros H1 H2.
  - apply String.compare_eq_iff in Hab, Hbc. rewrite Hab, Hbc.
    rewrite string_compare_refl. eapply string_leb_trans; eassumption.
  - apply String.compare_eq_iff in Hab. now rewrite Hab, Hbc.
  - apply String.compare_eq_iff in Hbc. now rewrite <- Hbc, Hab.
  - now rewrite (string_compare_lt_trans _ _ _ Hab Hbc).
Qed.

(** Two rows that each come no later than the other have the same [ts]
    and the same [message_id]. *)
Lemma by_ts_then_id_antisym (a b : Models.Message) :
  Storage.by_ts_then_id a b = true -> Storage.by_ts_then_id b a = true ->
  Models.r_ts a = Models.r_ts b
  /\ Models.r_message_id a = Models.r_message_id b.
Proof.
  unfold Storage.by_ts_then_id, Storage.text_le.
  rewrite (String.compare_antisym (Models.r_ts b) (Models.r_ts a)).
  destruct (String.compare (Models.r_ts a) (Models.r_ts b)) eqn:Hab; cbn;
    try discriminate.
  intros H1 H2. split.
  - now apply String.compare_eq_iff.
  - now apply String.leb_antisym.
Qed.

Lemma by_ts_then_id_spec (a b : Models.Message) :
  Storage.by_ts_then_id a b = true
  <-> String.ltb (Models.r_ts a) (Models.r_ts b) = true
      \/ (Models.r_ts a = Models.r_ts b
          /\ String.leb (Models.r_message_id a) (Models.r_message_id b) = true).
Proof.
  unfold Storage.by_ts_then_id, Storage.text_le, String.ltb.
  destruct (String.compare (Models.r_ts a) (Models.r_ts b)) eqn:Hab.
  - apply String.compare_eq_iff in Hab. intuition discriminate.
  - intuition.
  - split; [discriminate|]. intros [H|[H _]]; [discriminate|].
    rewrite H, string_compare_refl in Hab. discriminate.
Qed.

Lemma primary_key_inj (t : Storage.table) (a b : Models.Message) :
  Storage.primary_key t -> In a t -> In b t ->
  Models.r_message_id a = Models.r_message_id b -> a = b.
Proof.
  unfold Storage.primary_key. induction t as [|r t IH]; cbn; [tauto|].
  intros Hnd Ha Hb E. inversion Hnd as [|? ? Hnotin Hnd']; subst.
  destruct Ha as [->|Ha], Hb as [->|Hb]; auto.
  - exfalso. apply Hnotin. rewrite E. now apply in_map.
  - exfalso. apply Hnotin. rewrite <- E. now apply in_map.
Qed.

Lemma StronglySorted_app_inv {A : Type} (R : A -> A -> Prop) (l1 l2 : list A) :
  StronglySorted R (l1 ++ l2) -> StronglySorted R l1 /\ StronglySorted R l2.
Proof.
  induction l1 as [|a l1 IH]; cbn; intros Hs.
  - split; [constructor | assumption].
  - inversion Hs as [|? ? Hs' Hall]; subst.
    destruct (IH Hs') as [H1 H2]. split; [|assumption].
    constructor; [assumption|].
    apply Forall_app in Hall. tauto.
Qed.

Lemma sql_page_sorted {A : Type} (R : A -> A -> Prop) (limit offset : Z)
    (l : list A) :
  StronglySorted R l ->
  StronglySorted R (Storage.sql_limit limit (Storage.sql_offset offset l)).
Proof.
  intros Hs. unfold Storage.sql_limit, Storage.sql_offset.
  assert (Hskip : StronglySorted R (skipn (Z.to_nat offset) l)).
  { rewrite <- (firstn_skipn (Z.to_nat offset) l) in Hs.
    now apply StronglySorted_app_inv in Hs. }
  destruct (limit <? 0); [assumption|].
  rewrite <- (firstn_skipn (Z.to_nat limit) (skipn (Z.to_nat offset) l)) in Hskip.
  now apply StronglySorted_app_inv in Hskip.
Qed.

Lemma StronglySorted_impl {A : Type} (R1 R2 : A -> A -> Prop) (l : list A) :
  (forall a b, R1 a b -> R2 a b) -> StronglySorted R1 l -> StronglySorted R2 l.
Proof.
  intros Himp. induction 1 as [|a l Hs IH Hall]; constructor; [assumption|].
  eapply Forall_impl; [|exact Hall]. auto.
Qed.

(** C6.  The page a call returns comes in ascending [ts], rows of equal
    [ts] in ascending [message_id].  Under the primary key the order is
    total, and the result is fixed by the stored set and the parameters
    alone: the same call gives the same result whichever way the engine
    places equal keys and in whatever order the rows were written. *)
Theorem page_order_is_determined (R1 : Runtime) (limit offset : Z)
    (sender since q : option string) (t : Storage.table) :
  (forall rows total,
     @Storage.get_messages R1 limit offset sender since q t = Ok (rows, total) ->
     StronglySorted
       (fun a b =>
          String.ltb (Models.r_ts a) (Models.r_ts b) = true
          \/ (Models.r_ts a = Models.r_ts b
              /\ String.leb (Models.r_message_id a) (Models.r_message_id b)
                 = true))
       rows)
  /\ (Storage.primary_key t ->
      forall (R2 : Runtime) (t' : Storage.table),
        Permutation t t' ->
        @Storage.get_messages R2 limit offset sender since q t'
        = @Storage.get_messages R1 limit offset sender since q t).
Proof.
  split.
  - intros rows total Hret.
    apply get_messages_ok in Hret as [_ [_ [_ [-> _]]]].
    apply sql_page_sorted.
    eapply StronglySorted_impl; [intros a b; apply by_ts_then_id_spec|].
    apply order_by_sorted;
      [apply by_ts_then_id_total | apply by_ts_then_id_trans].
  - intros Hpk R2 t' Hperm. rewrite !get_messages_eq.
    unfold Spec.pattern_rejected.
    rewrite <- (existsb_permutation _ t t' Hperm).
    destruct (_ && _ && _); [reflexivity|].
    destruct (Spec.int64 limit && Spec.int64 offset); [|reflexivity].
    set (w := Spec.passes sender since q).
    assert (Hf : Permutation (filter w t) (filter w t'))
      by now apply filter_permutation.
    rewrite <- (Permutation_length Hf).
    rewrite (order_by_unique R2 R1 Storage.by_ts_then_id
               (filter w t') (filter w t)); [reflexivity| | | |].
    + apply by_ts_then_id_total.
    + apply by_ts_then_id_trans.
    + intros a b Ha Hb Hab Hba.
      destruct (by_ts_then_id_antisym a b Hab Hba) as [_ Hid].
      apply (Permutation_in _ (Permutation_sym Hf)) in Ha, Hb.
      apply filter_In in Ha as [Ha _]. apply filter_In in Hb as [Hb _].
      now apply (primary_key_inj t).
    + now symmetry.
Qed.

Lemma page_order_is_determined_witness :
  @Storage.get_messages reference_runtime 2 1 None None None
     [Sample.hello; Sample.silent; Sample.goodbye]
  = @Storage.get_messages reference_runtime 2 1 None None None Sample.three
  /\ StronglySorted
       (fun a b =>
          String.ltb (Models.r_ts a) (Models.r_ts b) = true
          \/ (Models.r_ts a = Models.r_ts b
              /\ String.leb (Models.r_message_id a) (Models.r_message_id b)
                 = true))
       [Sample.goodbye; Sample.silent].
Proof.
  pose proof (page_order_is_determined reference_runtime 2 1 None None None
                Sample.three) as [Hsorted Hsame].
  split.
  - refine (Hsame _ reference_runtime
              [Sample.hello; Sample.silent; Sample.goodbye] _).
    + repeat constructor; cbn; intuition discriminate.
    + apply Permutation_sym, Permutation_rev.
  - exact (Hsorted [Sample.goodbye; Sample.silent] 3 eq_refl).
Defined.

(** A validated payload has a [ts] that is not empty (it ends in [Z]), so
    every row written through the webhook has one. *)
Lemma validated_ts_not_empty `{Runtime} (o : Models.json_object)
    (m : Models.WebhookMessage) :
  Models.parse_WebhookMessage o = Some m -> Models.ts m <> EmptyString.
Proof.
  unfold Models.parse_WebhookMessage.
  destruct (Models.j_message_id o), (Models.j_from o), (Models.j_to o),
    (Models.j_ts o) as [when|]; try discriminate.
  destruct (_ && _) eqn:Hv; [|discriminate].
  intros E. injection E as <-. cbn.
  apply andb_true_iff in Hv as [Hv _]. apply andb_true_iff in Hv as [_ Hts].
  unfold Models.validate_ts in Hts. intros ->. discriminate Hts.
Qed.

(** ** What the webhook keeps true of the table *)

Section Invariant.
Import Models Storage Main.
Context `{Runtime}.

(** A request adds at most one row, and only the row of its own validated
    payload. *)
Lemma post_webhook_rows (secret : string) (f : fault) (now : string)
    (req : webhook_request) (d : database) :
  Storage.messages (snd (post_webhook secret f now req d)) = Storage.messages d
  \/ exists m,
       payload_of req = Some m
       /\ has_id (message_id m) (Storage.messages d) = false
       /\ Storage.messages (snd (post_webhook secret f now req d))
          = Storage.messages d
            ++ [mk_Message (message_id m) (from_msisdn m) (to_msisdn m)
                           (ts m) (text m) (now ++ "Z")%string].
Proof.
  unfold post_webhook.
  destruct (payload_of req) as [m|] eqn:Hm; [|now left].
  set (x := x_signature req).
  destruct (truthy x) eqn:Ht;
    [|rewrite webhook_no_signature by assumption; now left].
  destruct (isascii (value x)) eqn:Ha;
    [|rewrite webhook_not_ascii by assumption; now left].
  destruct (String.eqb_spec (value x)
              (Hmac.hexdigest (encode secret) (body req))) as [E|E];
    [|rewrite webhook_wrong_signature by assumption; now left].
  assert (Hx : x = Some (Hmac.hexdigest (encode secret) (body req))).
  { destruct x as [sig|]; [|discriminate Ht]. cbn in E. now subst. }
  rewrite Hx, webhook_right_signature, insert_message_eq.
  destruct f; try (now left);
    destruct (has_id (message_id m) (Storage.messages d)) eqn:Hid;
    try (now left).
  right. exists m. repeat split; assumption.
Qed.

(** The primary key holds and every [ts] is non-empty, before and after. *)
Lemma post_webhook_invariant (secret : string) (f : fault) (now : string)
    (req : webhook_request) (d : database) :
  primary_key (Storage.messages d)
  /\ Forall (fun r => r_ts r <> EmptyString) (Storage.messages d) ->
  primary_key (Storage.messages (snd (post_webhook secret f now req d)))
  /\ Forall (fun r => r_ts r <> EmptyString)
            (Storage.messages (snd (post_webhook secret f now req d))).
Proof.
  intros [Hpk Hts].
  destruct (post_webhook_rows secret f now req d) as [->|[m [Hm [Hid ->]]]];
    [now split|].
  split.
  - unfold primary_key. rewrite map_app. cbn.
    apply NoDup_app; [exact Hpk | repeat constructor; auto |].
    intros k Hk [<-|[]]. now apply has_id_false in Hid.
  - apply Forall_app. split; [exact Hts|]. constructor; [|constructor]. cbn.
    unfold payload_of in Hm. destruct (json req) as [o|]; [|discriminate].
    now apply (validated_ts_not_empty o).
Qed.

End Invariant.

(** ** Aggregates *)

Lemma sql_min_spec (keys : list string) :
  keys <> [] ->
  exists m, Storage.sql_min keys = Some m /\ In m keys
            /\ forall x, In x keys -> String.leb m x = true.
Proof.
  destruct keys as [|k rest]; [congruence|]. intros _. cbn [Storage.sql_min].
  eexists. split; [reflexivity|].
  revert k. induction rest as [|y rest IH]; intros k; cbn [fold_left].
  - split; [now left|]. intros x [<-|[]]. apply string_leb_refl.
  - unfold Storage.text_le at 2 4.
    destruct (String.leb y k) eqn:Hyk.
    + destruct (IH y) as [Hin Hle]. split.
      * destruct Hin as [E|Hin]; [right; left; exact E | right; right; exact Hin].
      * intros x [<-|Hx]; [|now apply Hle].
        eapply string_leb_trans; [|exact Hyk]. apply Hle. now left.
    + destruct (IH k) as [Hin Hle]. split.
      * destruct Hin as [E|Hin]; [left; exact E | right; right; exact Hin].
      * intros x [<-|[<-|Hx]].
        -- apply Hle. now left.
        -- eapply string_leb_trans; [apply Hle; now left|].
           destruct (String.leb_total k y) as [Hky|Hky]; congruence.
        -- apply Hle. now right.
Qed.

Lemma sql_max_spec (keys : list string) :
  keys <> [] ->
  exists m, Storage.sql_max keys = Some m /\ In m keys
            /\ forall x, In x keys -> String.leb x m = true.
Proof.
  destruct keys as [|k rest]; [congruence|]. intros _. cbn [Storage.sql_max].
  eexists. split; [reflexivity|].
  revert k. induction rest as [|y rest IH]; intros k; cbn [fold_left].
  - split; [now left|]. intros x [<-|[]]. apply string_leb_refl.
  - unfold Storage.text_le at 2 4.
    destruct (String.leb k y) eqn:Hky.
    + destruct (IH y) as [Hin Hle]. split.
      * destruct Hin as [E|Hin]; [right; left; exact E | right; right; exact Hin].
      * intros x [<-|Hx]; [|now apply Hle].
        eapply string_leb_trans; [exact Hky|]. apply Hle. now left.
    + destruct (IH k) as [Hin Hle]. split.
      * destruct Hin as [E|Hin]; [left; exact E | right; right; exact Hin].
      * intros x [<-|[<-|Hx]].
        -- apply Hle. now left.
        -- eapply string_leb_trans; [|apply Hle; now left].
           destruct (String.leb_total y k) as [Hyk|Hyk]; congruence.
        -- apply Hle. now right.
Qed.

(** The least and the greatest of a list do not depend on its order. *)
Lemma sql_min_perm (l l' : list string) :
  Permutation l l' -> Storage.sql_min l = Storage.sql_min l'.
Proof.
  intros Hp. destruct l as [|a l].
  - apply Permutation_nil in Hp. now subst.
  - assert (Hne : l' <> []).
    { intros ->. symmetry in Hp. now apply Permutation_nil in Hp. }
    destruct (sql_min_spec (a :: l)) as [m [-> [Hin Hle]]]; [discriminate|].
    destruct (sql_min_spec l' Hne) as [m' [-> [Hin' Hle']]].
    f_equal. apply String.leb_antisym.
    + apply Hle. eapply Permutation_in; [symmetry; exact Hp | exact Hin'].
    + apply Hle'. eapply Permutation_in; [exact Hp | exact Hin].
Qed.

Lemma sql_max_perm (l l' : list string) :
  Permutation l l' -> Storage.sql_max l = Storage.sql_max l'.
Proof.
  intros Hp. destruct l as [|a l].
  - apply Permutation_nil in Hp. now subst.
  - assert (Hne : l' <> []).
    { intros ->. symmetry in Hp. now apply Permutation_nil in Hp. }
    destruct (sql_max_spec (a :: l)) as [m [-> [Hin Hle]]]; [discriminate|].
    destruct (sql_max_spec l' Hne) as [m' [-> [Hin' Hle']]].
    f_equal. apply String.leb_antisym.
    + apply Hle'. eapply Permutation_in; [exact Hp | exact Hin].
    + apply Hle. eapply Permutation_in; [symmetry; exact Hp | exact Hin'].
Qed.

Lemma runs_head (l : list string) :
  match Storage.runs l with
  | [] => l = []
  | (k, _) :: _ => exists rest, l = k :: rest
  end.
Proof.
  destruct l as [|a l]; cbn; [reflexivity|].
  destruct (Storage.runs l) as [|[k' n] g]; [eauto|].
  destruct (String.eqb a k'); eauto.
Qed.

(** On ordered keys the runs are the distinct keys, each with the number
    of its Spec.occurrences. *)
Lemma runs_sorted (l : list string) :
  StronglySorted (fun a b => String.leb a b = true) l ->
  NoDup (map fst (Storage.runs l))
  /\ (forall k, In k (map fst (Storage.runs l)) <-> In k l)
  /\ (forall k n, In (k, n) (Storage.runs l) ->
                  n = Spec.occurrences l k /\ 1 <= n).
Proof.
  unfold Spec.occurrences.
  induction 1 as [|a l Hs IH Hall]; cbn [Storage.runs].
  - cbn. repeat split; try constructor; tauto.
  - destruct IH as [Hnd [Hin Hcount]].
    pose proof (runs_head l) as Hhead.
    destruct (Storage.runs l) as [|[k' n] g] eqn:Hruns.
    + subst l. split; [repeat constructor; cbn; tauto|]. split; [cbn; tauto|].
      intros k m [E|[]]. injection E as <- <-.
      rewrite count_occ_cons_eq by reflexivity. cbn. lia.
    + destruct Hhead as [rest ->].
      assert (Hsame : In a (k' :: rest) -> a = k').
      { intros [E|Ha]; [now symmetry|].
        inversion Hs as [|? ? _ Hk']; subst.
        rewrite Forall_forall in Hk', Hall.
        apply String.leb_antisym; [apply Hall; now left | now apply Hk']. }
      destruct (String.eqb_spec a k') as [->|Hne].
      * cbn [map fst] in *. split; [exact Hnd|]. split.
        -- intros k. rewrite Hin. cbn. tauto.
        -- intros k m [E|Hk].
           ++ injection E as <- <-.
              destruct (Hcount k' n (or_introl eq_refl)) as [-> Hpos].
              rewrite (count_occ_cons_eq string_dec (k' :: rest) (eq_refl k')).
              lia.
           ++ assert (Hkk : k' <> k).
              { intros ->. inversion Hnd as [|? ? Hnotin _]; subst.
                apply Hnotin. change k with (fst (k, m)). now apply in_map. }
              destruct (Hcount k m (or_intror Hk)) as [-> Hpos].
              split; [|exact Hpos].
              now rewrite (count_occ_cons_neq string_dec (k' :: rest) Hkk).
      * assert (Hnot : ~ In a (k' :: rest)) by (intros Ha; auto).
        cbn [map fst]. split; [|split].
        -- constructor; [|exact Hnd]. now rewrite Hin.
        -- intros k. specialize (Hin k). cbn in *. tauto.
        -- intros k m [E|Hk].
           ++ injection E as <- <-.
              rewrite count_occ_cons_eq by reflexivity.
              rewrite (proj1 (count_occ_not_In string_dec _ _) Hnot). lia.
           ++ assert (Hak : a <> k).
              { intros ->. apply Hnot. apply Hin.
                change k with (fst (k, m)). now apply in_map. }
              destruct (Hcount k m Hk) as [-> Hpos]. split; [|exact Hpos].
              now rewrite (count_occ_cons_neq string_dec (k' :: rest) Hak).
Qed.

Lemma StronglySorted_app_le {A : Type} (R : A -> A -> Prop) (l1 l2 : list A) :
  StronglySorted R (l1 ++ l2) ->
  forall a b, In a l1 -> In b l2 -> R a b.
Proof.
  induction l1 as [|x l1 IH]; cbn; intros Hs a b Ha Hb; [contradiction|].
  inversion Hs as [|? ? Hs' Hall]; subst.
  destruct Ha as [->|Ha]; [|now apply IH].
  rewrite Forall_forall in Hall. apply Hall, in_or_app. now right.
Qed.

Lemma by_count_desc_total (a b : string * Z) :
  Storage.by_count_desc a b = true \/ Storage.by_count_desc b a = true.
Proof. unfold Storage.by_count_desc. rewrite !Z.leb_le. lia. Qed.

Lemma by_count_desc_trans (a b c : string * Z) :
  Storage.by_count_desc a b = true -> Storage.by_count_desc b c = true ->
  Storage.by_count_desc a c = true.
Proof. unfold Storage.by_count_desc. rewrite !Z.leb_le. lia. Qed.

Lemma distinct_length (keys distinct : list string) :
  NoDup distinct -> (forall k, In k distinct <-> In k keys) ->
  Storage.count_distinct keys = Z.of_nat (List.length distinct).
Proof.
  intros Hnd Hin. unfold Storage.count_distinct. f_equal.
  apply Permutation_length, NoDup_Permutation;
    [apply NoDup_nodup | assumption |].
  intros k. rewrite nodup_In. symmetry. apply Hin.
Qed.

Section Groups.
Import Models Storage.
Context `{Runtime}.

Variable keys : list string.

Lemma order_keys_sorted :
  StronglySorted (fun a b => String.leb a b = true) (order_by text_le keys).
Proof.
  apply order_by_sorted; [apply String.leb_total | apply string_leb_trans].
Qed.

Lemma occurrences_ordered (k : string) :
  Spec.occurrences (order_by text_le keys) k = Spec.occurrences keys k.
Proof.
  unfold Spec.occurrences. f_equal.
  apply Permutation_count_occ, order_by_perm.
Qed.

(** GROUP BY with COUNT: one entry for each distinct key, with the number
    of rows that hold it. *)
Lemma group_count_spec :
  NoDup (map fst (group_count keys))
  /\ (forall k, In k (map fst (group_count keys)) <-> In k keys)
  /\ (forall k n, In (k, n) (group_count keys) ->
                  n = Spec.occurrences keys k /\ 1 <= n).
Proof.
  destruct (runs_sorted _ order_keys_sorted) as [Hnd [Hin Hcount]].
  unfold group_count. split; [exact Hnd|]. split.
  - intros k. rewrite Hin. split; apply Permutation_in;
      [|symmetry]; apply order_by_perm.
  - intros k n Hk. rewrite <- occurrences_ordered. now apply Hcount.
Qed.

Lemma group_count_length :
  Z.of_nat (List.length (group_count keys)) = count_distinct keys.
Proof.
  destruct group_count_spec as [Hnd [Hin _]].
  rewrite (distinct_length keys (map fst (group_count keys)) Hnd Hin).
  now rewrite length_map.
Qed.

(** The rows of the top-ten query. *)
Let top : list (string * Z) :=
  sql_limit 10 (order_by by_count_desc (group_count keys)).

Lemma top_spec :
  Z.of_nat (List.length top) = Z.min 10 (count_distinct keys)
  /\ NoDup (map fst top)
  /\ (forall k n, In (k, n) top -> n = Spec.occurrences keys k /\ 1 <= n)
  /\ StronglySorted (fun a b => snd b <= snd a) top
  /\ (forall k e, In k keys -> ~ In k (map fst top) -> In e top ->
                  Spec.occurrences keys k <= snd e).
Proof.
  destruct group_count_spec as [Hnd [Hin Hcount]].
  pose proof (order_by_perm _ by_count_desc (group_count keys)) as Hperm.
  pose proof (order_by_sorted _ by_count_desc (group_count keys)
                by_count_desc_total by_count_desc_trans) as Hsorted.
  unfold top, sql_limit. cbn [Z.ltb Z.compare Z.to_nat Pos.to_nat].
  set (ordered := order_by by_count_desc (group_count keys)) in *.
  change (Z.to_nat 10) with 10%nat.
  assert (Hsplit : firstn 10 ordered ++ skipn 10 ordered = ordered)
    by apply firstn_skipn.
  split; [|split; [|split; [|split]]].
  - rewrite length_firstn, <- group_count_length.
    rewrite (Permutation_length Hperm). lia.
  - assert (Hnd' : NoDup (map fst ordered)).
    { eapply Permutation_NoDup; [|exact Hnd].
      symmetry. now apply Permutation_map. }
    rewrite <- Hsplit, map_app in Hnd'. now apply NoDup_app_remove_r in Hnd'.
  - intros k n Hk. apply Hcount.
    apply (Permutation_in _ Hperm). now apply In_firstn in Hk.
  - rewrite <- Hsplit in Hsorted. apply StronglySorted_app_inv in Hsorted.
    eapply StronglySorted_impl; [|exact (proj1 Hsorted)].
    intros a b Hab. now apply Z.leb_le.
  - intros k e Hk Hnot He.
    apply Hin, in_map_iff in Hk as [[k0 n] [Ek Hk]]. cbn in Ek. subst k0.
    destruct (Hcount k n Hk) as [<- _].
    apply (Permutation_in _ (Permutation_sym Hperm)) in Hk.
    rewrite <- Hsplit in Hk, Hsorted.
    apply in_app_or in Hk as [Hk|Hk].
    + exfalso. apply Hnot. change k with (fst (k, n)). now apply in_map.
    + pose proof (StronglySorted_app_le _ _ _ Hsorted e (k, n) He Hk) as Hle.
      now apply Z.leb_le in Hle.
Qed.

End Groups.

Section Stats.
Import Models Storage Main.
Context `{Runtime}.

Lemma stats_verbatim (t : table) : stats t = get_stats t.
Proof.
  unfold stats, get_stats. cbn. f_equal.
  rewrite map_map. apply map_ext. now intros [k n].
Qed.

Lemma get_stats_perm (t t' : table) :
  Permutation t t' -> get_stats t' = get_stats t.
Proof.
  intros Hp. unfold get_stats.
  assert (Hk : Permutation (map r_from_msisdn t') (map r_from_msisdn t))
    by (symmetry; now apply Permutation_map).
  assert (Hts : Permutation (map r_ts t') (map r_ts t))
    by (symmetry; now apply Permutation_map).
  rewrite (Permutation_length (Permutation_sym Hp)).
  rewrite (sql_min_perm _ _ Hts), (sql_max_perm _ _ Hts).
  assert (Hd : count_distinct (map r_from_msisdn t')
               = count_distinct (map r_from_msisdn t)).
  { apply distinct_length; [apply NoDup_nodup|].
    intros k. rewrite nodup_In. split; apply Permutation_in;
      [symmetry|]; exact Hk. }
  assert (Hg : group_count (map r_from_msisdn t')
               = group_count (map r_from_msisdn t)).
  { unfold group_count. f_equal.
    apply order_by_unique;
      [apply String.leb_total | apply string_leb_trans | | exact Hk].
    intros a b _ _. apply String.leb_antisym. }
  now rewrite Hd, Hg.
Qed.

(** C4.  The statistics are the aggregates of the stored rows: their
    number; the number of distinct senders; at most ten entries, one per
    sender and no sender twice, each with the number of that sender's
    messages, in descending count, no sender left out having more
    messages than one listed; the least and the greatest [ts], both
    [None] on an empty table.  The answer depends on the stored set alone
    (rows that tie on the count come in the order the engine gives them,
    the same at every call), and fifteen messages of fifteen senders give
    [senders_count = 15] and ten entries. *)
Theorem stats_are_the_aggregates (t : table) :
  let s := stats t in
  let keys := map r_from_msisdn t in
  s = get_stats t
  /\ total_messages s = Z.of_nat (List.length t)
  /\ (forall distinct,
        NoDup distinct -> (forall k, In k distinct <-> In k keys) ->
        senders_count s = Z.of_nat (List.length distinct))
  /\ Z.of_nat (List.length (messages_per_sender s))
     = Z.min 10 (senders_count s)
  /\ NoDup (map sender (messages_per_sender s))
  /\ (forall e, In e (messages_per_sender s) ->
                count e = Spec.occurrences keys (sender e) /\ 1 <= count e)
  /\ StronglySorted (fun a b => count b <= count a) (messages_per_sender s)
  /\ (forall k e,
        In k keys -> ~ In k (map sender (messages_per_sender s)) ->
        In e (messages_per_sender s) -> Spec.occurrences keys k <= count e)
  /\ (t = [] -> first_message_ts s = None /\ last_message_ts s = None)
  /\ (t <> [] -> (forall r, In r t -> r_ts r <> EmptyString) ->
      exists first last,
        first_message_ts s = Some first /\ last_message_ts s = Some last
        /\ In first (map r_ts t) /\ In last (map r_ts t)
        /\ forall r, In r t ->
             String.leb first (r_ts r) = true
             /\ String.leb (r_ts r) last = true)
  /\ (forall t', Permutation t t' -> stats t' = s)
  /\ (List.length t = 15%nat -> NoDup keys ->
      senders_count s = 15
      /\ List.length (messages_per_sender s) = 10%nat).
Proof.
  intros s keys.
  assert (Hs : s = get_stats t) by apply stats_verbatim.
  destruct (top_spec keys) as [Hlen [Hnd [Hcount [Hsorted Htop]]]].
  set (top := sql_limit 10 (order_by by_count_desc (group_count keys))) in *.
  assert (Hmps : messages_per_sender s
                 = map (fun row => mk_SenderStats (fst row) (snd row)) top)
    by (rewrite Hs; reflexivity).
  assert (Hsenders : map sender (messages_per_sender s) = map fst top).
  { rewrite Hmps, map_map. now apply map_ext. }
  assert (Hentry : forall e, In e (messages_per_sender s) ->
                             In (sender e, count e) top).
  { intros e He. rewrite Hmps in He.
    apply in_map_iff in He as [[k n] [<- Hk]]. exact Hk. }
  assert (Hsc : senders_count s = count_distinct keys)
    by (rewrite Hs; reflexivity).
  split; [exact Hs|]. split; [rewrite Hs; reflexivity|].
  split; [intros distinct Hd Hin; rewrite Hsc; now apply distinct_length|].
  split; [rewrite Hmps, length_map, Hsc; exact Hlen|].
  split; [rewrite Hsenders; exact Hnd|].
  split; [intros e He; apply Hcount; now apply Hentry|].
  split.
  { rewrite Hmps. clear - Hsorted. induction Hsorted as [|a l Hl IH Hall];
      cbn; constructor; [assumption|].
    rewrite Forall_forall in *. intros x Hx.
    apply in_map_iff in Hx as [b [<- Hb]]. cbn. now apply Hall. }
  split.
  { intros k e Hk Hnot He. rewrite Hsenders in Hnot.
    exact (Htop k (sender e, count e) Hk Hnot (Hentry e He)). }
  split; [intros ->; rewrite Hs; split; reflexivity|].
  split.
  { intros Hne Hts.
    assert (Hne' : map r_ts t <> []) by (destruct t; [congruence|discriminate]).
    destruct (sql_min_spec _ Hne') as [lo [Hlo [Hlo_in Hlo_le]]].
    destruct (sql_max_spec _ Hne') as [hi [Hhi [Hhi_in Hhi_le]]].
    assert (Hval : forall v, In v (map r_ts t) -> value_or_none (Some v) = Some v).
    { intros v Hv. apply in_map_iff in Hv as [r [<- Hr]].
      specialize (Hts r Hr). unfold value_or_none, truthy.
      destruct (r_ts r); [congruence | reflexivity]. }
    exists lo, hi. rewrite Hs. unfold get_stats. cbn.
    rewrite Hlo, Hhi, (Hval lo Hlo_in), (Hval hi Hhi_in).
    repeat split; try assumption.
    - apply Hlo_le. now apply in_map.
    - apply Hhi_le. now apply in_map. }
  split.
  { intros t' Hp. rewrite Hs, stats_verbatim. now apply get_stats_perm. }
  intros H15 Hkeys.
  assert (Hc : count_distinct keys = 15).
  { rewrite (distinct_length keys keys Hkeys) by tauto.
    unfold keys. rewrite length_map, H15. reflexivity. }
  split; [now rewrite Hsc|].
  rewrite Hmps, length_map. rewrite Hc in Hlen. lia.
Qed.

End Stats.

Lemma stats_are_the_aggregates_witness :
  Models.senders_count (Main.stats Sample.fifteen) = 15
  /\ List.length (Models.messages_per_sender (Main.stats Sample.fifteen))
     = 10%nat.
Proof.
  refine (proj2 (proj2 (proj2 (proj2 (proj2 (proj2 (proj2 (proj2 (proj2
           (proj2 (proj2 (stats_are_the_aggregates Sample.fifteen)))))))))))
           _ _).
  - reflexivity.
  - vm_compute. repeat constructor; cbn; intuition discriminate.
Defined.

(** * Further properties *)

(** ** POST /webhook, from request to response and rows *)

Section Delivery.
Import Models Storage Main.
Context `{Runtime}.

Variables (secret : string) (f : fault) (now : string).

Let digest (req : webhook_request) : string :=
  Hmac.hexdigest (encode secret) (body req).

Let ok : response WebhookResponse := Success (mk_WebhookResponse "ok").

Let row_of (m : WebhookMessage) : Message :=
  mk_Message (message_id m) (from_msisdn m) (to_msisdn m) (ts m) (text m)
             (now ++ "Z")%string.

(** The header holds the digest exactly when it passes the three tests
    the handler makes of it. *)
Lemma signature_tests (x : option string) (expected : string) :
  truthy (Some expected) = true -> isascii expected = true ->
  (truthy x && isascii (value x) && String.eqb (value x) expected = true
   <-> x = Some expected).
Proof.
  intros Ht Ha. split.
  - rewrite !andb_true_iff. intros [[Hx _] E]. apply String.eqb_eq in E.
    destruct x as [s|]; [|discriminate Hx]. cbn in E. now subst.
  - intros ->. cbn [value]. now rewrite Ht, Ha, String.eqb_refl.
Qed.

(** The checks are made in this order: the payload (422), the presence of
    the signature (401), its being ASCII (500), its being the digest
    (401), and then the insert: 200 when the row is created or was there
    already, the latter even when a commit would have failed, 500
    otherwise. *)
Theorem post_webhook_decision (req : webhook_request) (d : database) :
  fst (post_webhook secret f now req d)
  = match payload_of req with
    | None => Unprocessable
    | Some m =>
        if negb (truthy (x_signature req)) then Error 401 "invalid signature"
        else if negb (isascii (value (x_signature req))) then ServerError
        else if negb (String.eqb (value (x_signature req)) (digest req))
             then Error 401 "invalid signature"
        else
          match f with
          | NoFault => ok
          | CommitFails _ =>
              if has_id (message_id m) (Storage.messages d) then ok
              else Error 500 "internal server error"
          | ExecuteFails _ => Error 500 "internal server error"
          | ConnectFails => ServerError
          end
    end.
Proof.
  unfold post_webhook, digest, ok.
  destruct (payload_of req) as [m|]; [|reflexivity].
  destruct (truthy (x_signature req)) eqn:Ht; cbn [negb];
    [|now rewrite webhook_no_signature].
  destruct (isascii (value (x_signature req))) eqn:Ha; cbn [negb];
    [|now rewrite webhook_not_ascii].
  destruct (String.eqb_spec (value (x_signature req))
              (Hmac.hexdigest (encode secret) (body req))) as [E|E];
    cbn [negb]; [|now rewrite webhook_wrong_signature].
  assert (Hx : x_signature req
               = Some (Hmac.hexdigest (encode secret) (body req))).
  { destruct (x_signature req) as [s|]; [|discriminate Ht]. cbn in E.
    now subst. }
  rewrite Hx, webhook_right_signature, insert_message_eq.
  destruct f; try reflexivity;
    destruct (has_id (message_id m) (Storage.messages d)); reflexivity.
Qed.

(** What a request does to the rows. *)
Lemma post_webhook_effect (req : webhook_request) (d : database) :
  Storage.messages (snd (post_webhook secret f now req d))
  = match payload_of req with
    | Some m =>
        if truthy (x_signature req) && isascii (value (x_signature req))
           && String.eqb (value (x_signature req)) (digest req)
           && match f with NoFault => true | _ => false end
           && negb (has_id (message_id m) (Storage.messages d))
        then Storage.messages d ++ [row_of m]
        else Storage.messages d
    | None => Storage.messages d
    end.
Proof.
  unfold post_webhook, digest, row_of.
  destruct (payload_of req) as [m|]; [|reflexivity].
  destruct (truthy (x_signature req)) eqn:Ht; cbn [andb];
    [|now rewrite webhook_no_signature].
  destruct (isascii (value (x_signature req))) eqn:Ha; cbn [andb];
    [|now rewrite webhook_not_ascii].
  destruct (String.eqb_spec (value (x_signature req))
              (Hmac.hexdigest (encode secret) (body req))) as [E|E];
    cbn [andb]; [|now rewrite webhook_wrong_signature].
  assert (Hx : x_signature req
               = Some (Hmac.hexdigest (encode secret) (body req))).
  { destruct (x_signature req) as [s|]; [|discriminate Ht]. cbn in E.
    now subst. }
  rewrite Hx, webhook_right_signature, insert_message_eq.
  destruct f; try reflexivity;
    destruct (has_id (message_id m) (Storage.messages d)); reflexivity.
Qed.

(** A valid payload under its own digest, with the store at hand: the
    answer is 200 whether the row is new or was there already. *)
Lemma post_webhook_signed_ok (req : webhook_request) (m : WebhookMessage)
    (d : database) :
  payload_of req = Some m ->
  x_signature req = Some (digest req) ->
  f = NoFault ->
  fst (post_webhook secret f now req d) = ok.
Proof.
  unfold post_webhook, digest, ok. intros -> -> ->.
  rewrite webhook_right_signature, insert_message_eq.
  destruct (has_id (message_id m) (Storage.messages d)); reflexivity.
Qed.

Lemma app_one_neq {A : Type} (l : list A) (x : A) : l ++ [x] <> l.
Proof.
  intros E. apply (f_equal (@List.length A)) in E.
  rewrite length_app in E. cbn in E. lia.
Qed.

(** A request changes the stored rows exactly when its payload validates,
    its signature is the digest of its raw body, the store meets no
    fault and the id is not stored yet; the change is then the one new
    row, after all the others.  No request removes or alters a row. *)
Theorem rows_change_iff (req : webhook_request) (d : database) :
  (Storage.messages (snd (post_webhook secret f now req d))
   <> Storage.messages d
   <-> exists m,
         payload_of req = Some m
         /\ x_signature req = Some (digest req)
         /\ f = NoFault
         /\ has_id (message_id m) (Storage.messages d) = false)
  /\ (Storage.messages (snd (post_webhook secret f now req d))
      = Storage.messages d
      \/ exists m,
           payload_of req = Some m
           /\ Storage.messages (snd (post_webhook secret f now req d))
              = Storage.messages d ++ [row_of m]).
Proof.
  rewrite post_webhook_effect.
  destruct (payload_of req) as [m|].
  2:{ split; [|now left]. split; [congruence|]. intros [m [E _]]. discriminate E. }
  pose proof (signature_tests (x_signature req) (digest req)
                (hexdigest_truthy _ _) (hexdigest_isascii _ _)) as Hsig.
  destruct (truthy (x_signature req) && isascii (value (x_signature req))
            && String.eqb (value (x_signature req)) (digest req)) eqn:Hx;
    cbn [andb].
  - assert (Hd : x_signature req = Some (digest req)) by now apply Hsig.
    destruct f; cbn [andb];
      try (split; [|now left]; split; [congruence|];
           intros [m' [_ [_ [Hf _]]]]; discriminate Hf).
    destruct (has_id (message_id m) (Storage.messages d)) eqn:Hid; cbn [negb].
    + split; [|now left]. split; [congruence|].
      intros [m' [E [_ [_ Hid']]]]. injection E as <-. congruence.
    + split; [|right; now exists m]. split.
      * intros _. now exists m.
      * intros _. apply app_one_neq.
  - split; [|now left]. split; [congruence|].
    intros [m' [_ [Hd _]]]. apply Hsig in Hd. congruence.
Qed.

End Delivery.

(** A message already stored, delivered again while commits fail: the
    insert is refused before any commit is tried, and the answer is 200. *)
Example redelivery_with_failing_commit :
  fst (Main.post_webhook Sample.secret (Storage.CommitFails OperationalError)
         "2025-02-01T08:00:00"
         (Sample.signed Sample.m1_body Sample.m1_object)
         (Sample.with_rows [Sample.hello]))
  = Main.Success (Models.mk_WebhookResponse "ok").
Proof.
  unfold Main.post_webhook.
  change (Main.payload_of (Sample.signed Sample.m1_body Sample.m1_object))
    with (Some Sample.m1).
  cbn [Main.x_signature Sample.signed Main.body].
  rewrite webhook_right_signature, insert_message_eq.
  reflexivity.
Qed.

Section FirstWins.
Import Models Storage Main.
Context `{Runtime}.

(** Two deliveries under one [message_id], each valid and rightly signed,
    with whatever other fields: both are answered 200, and the stored row
    is the one of the first delivery; the second leaves no trace in the
    table. *)
Theorem first_delivery_wins (secret now1 now2 : string)
    (req1 req2 : webhook_request) (m1 m2 : WebhookMessage) (d : database) :
  payload_of req1 = Some m1 -> payload_of req2 = Some m2 ->
  message_id m2 = message_id m1 ->
  x_signature req1 = Some (Hmac.hexdigest (encode secret) (body req1)) ->
  x_signature req2 = Some (Hmac.hexdigest (encode secret) (body req2)) ->
  has_id (message_id m1) (Storage.messages d) = false ->
  fst (deliver secret [(NoFault, now1, req1); (NoFault, now2, req2)] d)
  = [Success (mk_WebhookResponse "ok"); Success (mk_WebhookResponse "ok")]
  /\ Storage.messages
       (snd (deliver secret [(NoFault, now1, req1); (NoFault, now2, req2)] d))
     = Storage.messages d
       ++ [mk_Message (message_id m1) (from_msisdn m1) (to_msisdn m1)
                      (ts m1) (text m1) (now1 ++ "Z")%string].
Proof.
  intros Hp1 Hp2 Hid Hs1 Hs2 Hfresh. cbn [deliver].
  pose proof (post_webhook_signed_ok secret NoFault now1 req1 m1 d
                Hp1 Hs1 eq_refl) as Hr1.
  pose proof (post_webhook_effect secret NoFault now1 req1 d) as He1.
  destruct (post_webhook secret NoFault now1 req1 d) as [r1 d1].
  pose proof (post_webhook_signed_ok secret NoFault now2 req2 m2 d1
                Hp2 Hs2 eq_refl) as Hr2.
  pose proof (post_webhook_effect secret NoFault now2 req2 d1) as He2.
  destruct (post_webhook secret NoFault now2 req2 d1) as [r2 d2].
  cbn [fst snd] in *.
  rewrite Hp1, Hs1 in He1. rewrite Hp2, Hs2 in He2.
  cbn [value] in *.
  rewrite hexdigest_truthy, hexdigest_isascii, String.eqb_refl in He1, He2.
  rewrite Hfresh in He1. cbn [negb andb] in *.
  assert (Hthere : has_id (message_id m2) (Storage.messages d1) = true).
  { rewrite He1, Hid. apply has_id_In. rewrite map_app, in_app_iff.
    right. now left. }
  rewrite Hthere in He2. cbn [negb andb] in He2.
  subst r1 r2. split; [reflexivity|]. now rewrite He2, He1.
Qed.

End FirstWins.

Lemma first_delivery_wins_witness :
  fst (Main.deliver Sample.secret
         [(Storage.NoFault, "2025-02-01T08:00:00",
           Sample.signed Sample.m1_body Sample.m1_object);
          (Storage.NoFault, "2025-02-01T09:30:00",
           Sample.signed Sample.m1_later_body Sample.m1_later_object)]
         Sample.empty)
  = [Main.Success (Models.mk_WebhookResponse "ok");
     Main.Success (Models.mk_WebhookResponse "ok")]
  /\ Storage.messages
       (snd (Main.deliver Sample.secret
               [(Storage.NoFault, "2025-02-01T08:00:00",
                 Sample.signed Sample.m1_body Sample.m1_object);
                (Storage.NoFault, "2025-02-01T09:30:00",
                 Sample.signed Sample.m1_later_body Sample.m1_later_object)]
               Sample.empty))
     = [Models.mk_Message "m1" "+919876543210" "+14155550100"
          "2025-01-15T10:00:00Z" (Some "Hello") "2025-02-01T08:00:00Z"].
Proof.
  exact (first_delivery_wins Sample.secret
           "2025-02-01T08:00:00" "2025-02-01T09:30:00"
           (Sample.signed Sample.m1_body Sample.m1_object)
           (Sample.signed Sample.m1_later_body Sample.m1_later_object)
           Sample.m1
           (Models.mk_WebhookMessage "m1" "+15551234567" "+14155550100"
              "2025-03-01T00:00:00Z" None)
           Sample.empty eq_refl eq_refl eq_refl eq_refl eq_refl eq_refl).
Defined.

(** ** Pages *)

Lemma firstn_add {A : Type} (a b : nat) (l : list A) :
  firstn (a + b) l = firstn a l ++ firstn b (skipn a l).
Proof.
  revert l. induction a as [|a IH]; intros l; [reflexivity|].
  destruct l as [|x l]; cbn.
  - now rewrite firstn_nil.
  - now rewrite IH.
Qed.

Section Pages.
Import Models Storage Main.
Context `{Runtime}.

Variables (sender since q : option string) (t : table).

(** Consecutive pages tile the ordered result: a page of [n1] rows
    followed by the page of [n2] rows that starts where it ends is the
    page of [n1 + n2] rows.  No row is skipped and none comes twice.  The
    numbers handed to the engine have to fit its 64 bits: the three calls
    return when they do and the pattern is one that LIKE accepts. *)
Theorem pages_tile (n1 n2 offset : Z) :
  0 <= n1 -> 0 <= n2 -> 0 <= offset ->
  n1 + n2 < 2 ^ 63 -> offset + n1 < 2 ^ 63 ->
  Spec.pattern_rejected sender since q t = false ->
  exists first second rows total,
    get_messages n1 offset sender since q t = Ok (first, total)
    /\ get_messages n2 (offset + n1) sender since q t = Ok (second, total)
    /\ get_messages (n1 + n2) offset sender since q t = Ok (rows, total)
    /\ (first ++ second)%list = rows.
Proof.
  intros H1 H2 Ho Hsum Hnext Hrej. rewrite !get_messages_eq, Hrej.
  assert (Hint : forall n, 0 <= n < 2 ^ 63 -> Spec.int64 n = true).
  { intros n Hn. unfold Spec.int64. apply andb_true_iff.
    split; [apply Z.leb_le | apply Z.ltb_lt]; lia. }
  rewrite !Hint by lia. cbn [andb].
  do 4 eexists. repeat split.
  unfold sql_limit, sql_offset.
  destruct (Z.ltb_spec n1 0); [lia|].
  destruct (Z.ltb_spec n2 0); [lia|].
  destruct (Z.ltb_spec (n1 + n2) 0); [lia|].
  rewrite !Z2Nat.inj_add by lia.
  rewrite firstn_add. f_equal. f_equal.
  rewrite (Nat.add_comm (Z.to_nat offset)). symmetry. apply skipn_skipn.
Qed.


End Pages.

(** The bound of [pages_tile] is needed: two pages of 2^62 rows each are
    returned, and the page of twice as many is refused. *)
Example pages_beyond_64_bits :
  Storage.get_messages (2 ^ 62) 0 None None None Sample.three
  = Ok ([Sample.hello; Sample.goodbye; Sample.silent], 3)
  /\ Storage.get_messages (2 ^ 62) (0 + 2 ^ 62) None None None Sample.three
     = Ok ([], 3)
  /\ Storage.get_messages (2 ^ 62 + 2 ^ 62) 0 None None None Sample.three
     = Raise OverflowError.
Proof. repeat split. Qed.

Lemma pages_tile_witness :
  exists first second rows total,
    Storage.get_messages 1 0 None None None Sample.three = Ok (first, total)
    /\ Storage.get_messages 2 (0 + 1) None None None Sample.three
       = Ok (second, total)
    /\ Storage.get_messages (1 + 2) 0 None None None Sample.three
       = Ok (rows, total)
    /\ (first ++ second)%list = rows.
Proof.
  apply (pages_tile None None None Sample.three 1 2 0);
    [lia | lia | lia | reflexivity | reflexivity | reflexivity].
Defined.

(** ** Writing, then reading *)

Lemma filter_app_one {A : Type} (p : A -> bool) (l : list A) (x : A) :
  filter p (l ++ [x]) = filter p l ++ (if p x then [x] else []).
Proof. rewrite filter_app. cbn. now destruct (p x). Qed.

Section WriteRead.
Import Models Storage.
Context `{Runtime}.

Variables (f : fault) (now mid sender recipient when : string)
          (txt : option string) (d : database).

Let row : Message := mk_Message mid sender recipient when txt (now ++ "Z")%string.
Let after : database :=
  snd (insert_message f now mid sender recipient when txt d).
Let created : bool :=
  match fst (insert_message f now mid sender recipient when txt d) with
  | Ok (true, false) => true
  | _ => false
  end.

Lemma created_rows :
  messages after = if created then messages d ++ [row] else messages d.
Proof.
  unfold after, created. rewrite insert_message_eq.
  destruct f; try reflexivity; destruct (has_id mid (messages d)); reflexivity.
Qed.

(** An insert and the queries after it.  A created row adds one to the
    total of exactly the queries whose filters it passes, and is among
    the rows of those queries; it passes the filters made of its own
    sender and its own [ts].  An insert that reports a duplicate or a
    failure changes the answer of no query.  (Of the queries that return:
    with a pattern that LIKE accepts, a query that returned before the
    insert returns after it.) *)
Theorem insert_then_query (limit offset : Z) (by_sender since q : option string) :
  (forall rows n rows' n',
     get_messages limit offset by_sender since q (messages d) = Ok (rows, n) ->
     get_messages limit offset by_sender since q (messages after)
     = Ok (rows', n') ->
     n' = n + (if created && holds (where_clause by_sender since q row)
               then 1 else 0))
  /\ (forall rows n,
        get_messages limit offset by_sender since q (messages d) = Ok (rows, n) ->
        truthy q && Spec.pattern_too_long q = false ->
        exists rows',
          get_messages limit offset by_sender since q (messages after)
          = Ok (rows', n + (if created
                               && holds (where_clause by_sender since q row)
                            then 1 else 0)))
  /\ (created = true -> where_clause by_sender since q row = Ok true ->
      exists rows n,
        get_messages (-1) 0 by_sender since q (messages after) = Ok (rows, n)
        /\ In row rows)
  /\ where_clause (Some sender) (Some when) None row = Ok true
  /\ (created = false ->
      get_messages limit offset by_sender since q (messages after)
      = get_messages limit offset by_sender since q (messages d)).
Proof.
  rewrite created_rows.
  set (t' := if created then _ else _).
  assert (Hcount : forall n,
            n = Z.of_nat (List.length
                            (filter (Spec.passes by_sender since q) (messages d))) ->
            Spec.pattern_rejected by_sender since q t' = false ->
            Z.of_nat (List.length (filter (Spec.passes by_sender since q) t'))
            = n + (if created && holds (where_clause by_sender since q row)
                   then 1 else 0)).
  { intros n -> Hrej. subst t'. destruct created; cbn [andb]; [|lia].
    rewrite (where_clause_passes by_sender since q _ row Hrej)
      by (apply in_or_app; right; now left).
    rewrite filter_app_one, length_app.
    destruct (Spec.passes by_sender since q row); cbn; lia. }
  split; [|split; [|split; [|split]]].
  - intros rows n rows' n' Hbefore Hafter.
    apply get_messages_ok in Hbefore as [_ [_ [_ [_ Hn]]]].
    apply get_messages_ok in Hafter as [Hrej [_ [_ [_ ->]]]].
    now apply Hcount.
  - intros rows n Hbefore Hfit.
    apply get_messages_ok in Hbefore as [_ [Hl [Ho [_ Hn]]]].
    assert (Hrej : Spec.pattern_rejected by_sender since q t' = false)
      by (unfold Spec.pattern_rejected; now rewrite Hfit).
    rewrite get_messages_eq, Hrej, Hl, Ho. cbn [andb].
    eexists. now rewrite (Hcount n Hn Hrej).
  - subst t'. intros -> Hrow.
    assert (Hfit : truthy q && Spec.pattern_too_long q = false).
    { rewrite <- too_complex_eq.
      rewrite where_clause_eq in Hrow. unfold sql_like in Hrow.
      destruct (Spec.passes_sender_since by_sender since row);
        [|discriminate].
      destruct (truthy q); [|reflexivity].
      destruct (too_complex _); [discriminate | reflexivity]. }
    rewrite get_messages_eq. unfold Spec.pattern_rejected.
    rewrite Hfit. cbn [andb]. do 2 eexists. split; [reflexivity|].
    unfold sql_limit, sql_offset. cbn.
    apply (Permutation_in _ (Permutation_sym (order_by_perm _ _ _))).
    apply filter_In. split; [apply in_or_app; right; now left|].
    rewrite (holds_where_clause by_sender since q row Hfit) in Hrow.
    now injection Hrow.
  - rewrite where_clause_eq. unfold Spec.passes_sender_since, row.
    cbn [r_from_msisdn r_ts value truthy].
    rewrite String.eqb_refl, string_leb_refl.
    destruct sender, when; reflexivity.
  - subst t'. now intros ->.
Qed.

(** An insert and the statistics after it: a created row adds one to
    [total_messages], and one to [senders_count] exactly when its sender
    had no message yet; any other outcome leaves the statistics as they
    were. *)
Theorem insert_then_stats :
  (created = true ->
   total_messages (get_stats (messages after))
   = total_messages (get_stats (messages d)) + 1
   /\ senders_count (get_stats (messages after))
      = senders_count (get_stats (messages d))
        + (if existsb (fun r => String.eqb (r_from_msisdn r) sender)
                      (messages d)
           then 0 else 1))
  /\ (created = false ->
      get_stats (messages after) = get_stats (messages d)).
Proof.
  rewrite created_rows. split; [|now intros ->].
  intros ->. unfold get_stats. cbn [total_messages senders_count].
  split; [rewrite length_app; cbn; lia|].
  rewrite map_app. cbn [map r_from_msisdn row].
  set (keys := map r_from_msisdn (messages d)).
  assert (Hex : existsb (fun r => String.eqb (r_from_msisdn r) sender)
                        (messages d) = true <-> In sender keys).
  { rewrite existsb_exists. unfold keys. rewrite in_map_iff.
    split; intros [r [H1 H2]]; exists r.
    - apply String.eqb_eq in H2. auto.
    - split; [assumption | now apply String.eqb_eq]. }
  destruct (existsb _ (messages d)).
  - rewrite (distinct_length (keys ++ [sender]) (nodup string_dec keys)).
    + unfold count_distinct. lia.
    + apply NoDup_nodup.
    + intros k. rewrite nodup_In, in_app_iff. cbn.
      split; [auto|]. intros [Hk|[<-|[]]]; [assumption | now apply Hex].
  - rewrite (distinct_length (keys ++ [sender]) (sender :: nodup string_dec keys)).
    + unfold count_distinct. cbn [List.length]. lia.
    + constructor; [|apply NoDup_nodup].
      rewrite nodup_In. intros Hin. apply Hex in Hin. discriminate Hin.
    + intros k. cbn. rewrite nodup_In, in_app_iff. cbn. tauto.
Qed.

End WriteRead.

Lemma insert_then_query_witness :
  exists rows n,
    Storage.get_messages (-1) 0 (Some "+15551234567") None (Some "HELLO")
      (Storage.messages
         (snd (Storage.insert_message Storage.NoFault
                 "2025-02-01T09:00:00" "m9" "+15551234567"
                 "+14155550100" "2025-01-20T10:00:00Z"
                 (Some "Late hello") (Sample.with_rows Sample.three))))
    = Ok (rows, n)
    /\ In (Models.mk_Message "m9" "+15551234567" "+14155550100"
             "2025-01-20T10:00:00Z" (Some "Late hello") "2025-02-01T09:00:00Z")
          rows.
Proof.
  exact (proj1 (proj2 (proj2
           (insert_then_query Storage.NoFault "2025-02-01T09:00:00" "m9"
              "+15551234567" "+14155550100" "2025-01-20T10:00:00Z"
              (Some "Late hello") (Sample.with_rows Sample.three)
              50 0 (Some "+15551234567") None (Some "HELLO"))))
           eq_refl eq_refl).
Defined.

Lemma insert_then_stats_witness :
  Models.total_messages
    (Storage.get_stats
       (Storage.messages
          (snd (Storage.insert_message Storage.NoFault
                  "2025-02-01T09:00:00" "m9" "+15551234567"
                  "+14155550100" "2025-01-20T10:00:00Z"
                  (Some "Late hello") (Sample.with_rows Sample.three)))))
  = Models.total_messages (Storage.get_stats Sample.three) + 1.
Proof.
  exact (proj1 (proj1
           (insert_then_stats Storage.NoFault "2025-02-01T09:00:00" "m9"
              "+15551234567" "+14155550100" "2025-01-20T10:00:00Z"
              (Some "Late hello") (Sample.with_rows Sample.three))
           eq_refl)).
Defined.

(** ** More on the statistics *)

Lemma runs_sum (keys : list string) :
  Spec.sum (map snd (Storage.runs keys)) = Z.of_nat (List.length keys).
Proof.
  unfold Spec.sum. induction keys as [|k keys IH]; [reflexivity|].
  cbn [Storage.runs List.length]. rewrite Nat2Z.inj_succ, <- IH.
  destruct (Storage.runs keys) as [|[k' n] groups]; [reflexivity|].
  destruct (String.eqb k k'); cbn [map snd fold_right]; lia.
Qed.

Lemma sum_perm (l l' : list Z) : Permutation l l' -> Spec.sum l = Spec.sum l'.
Proof.
  unfold Spec.sum.
  induction 1 as [| x l l' _ IH | x y l | l l' l'' _ IH1 _ IH2]; cbn; lia.
Qed.

Lemma sum_app (l l' : list Z) : Spec.sum (l ++ l') = Spec.sum l + Spec.sum l'.
Proof.
  unfold Spec.sum. induction l as [|x l IH]; cbn; [reflexivity | lia].
Qed.

Lemma sum_nonneg (l : list Z) : Forall (fun n => 0 <= n) l -> 0 <= Spec.sum l.
Proof. unfold Spec.sum. induction 1 as [|x l Hx _ IH]; cbn; lia. Qed.

Section StatsMore.
Import Models Storage Main.
Context `{Runtime}.

(** The counts listed per sender never add up to more than
    [total_messages], and add up to it exactly when there are at most ten
    senders: with more senders the listing is cut, not the total. *)
Theorem sender_counts_sum (t : table) :
  let s := stats t in
  Spec.sum (map count (messages_per_sender s)) <= total_messages s
  /\ (senders_count s <= 10 ->
      Spec.sum (map count (messages_per_sender s)) = total_messages s).
Proof.
  cbv zeta. rewrite stats_verbatim. unfold get_stats.
  cbn [messages_per_sender total_messages senders_count].
  set (keys := map r_from_msisdn t).
  set (ordered := order_by by_count_desc (group_count keys)).
  rewrite map_map. cbn [count].
  change (map (fun x => snd x) (sql_limit 10 ordered))
    with (map snd (sql_limit 10 ordered)).
  unfold sql_limit. cbn [Z.ltb Z.compare]. change (Z.to_nat 10) with 10%nat.
  assert (Htotal : Spec.sum (map snd ordered) = Z.of_nat (List.length t)).
  { rewrite (sum_perm _ (map snd (group_count keys)))
      by (apply Permutation_map, order_by_perm).
    unfold group_count. rewrite runs_sum.
    rewrite (Permutation_length (order_by_perm _ _ _)).
    unfold keys. now rewrite length_map. }
  assert (Hpos : Forall (fun n => 0 <= n) (map snd (skipn 10 ordered))).
  { apply Forall_forall. intros n Hn.
    apply in_map_iff in Hn as [[k n'] [<- Hk]]. cbn.
    apply In_skipn in Hk.
    apply (Permutation_in _ (order_by_perm _ _ _)) in Hk.
    destruct (@group_count_spec H keys) as [_ [_ Hcount]].
    destruct (Hcount k n' Hk). lia. }
  rewrite <- (firstn_skipn 10 ordered), map_app, sum_app in Htotal.
  split.
  - pose proof (sum_nonneg _ Hpos). lia.
  - intros Hten. rewrite <- (@group_count_length H keys) in Hten.
    assert (Hshort : (List.length ordered <= 10)%nat).
    { unfold ordered. rewrite (Permutation_length (order_by_perm _ _ _)). lia. }
    rewrite (skipn_all2 ordered Hshort) in Htotal.
    change (Spec.sum (map snd [])) with 0 in Htotal. lia.
Qed.

(** When both are reported, [first_message_ts] does not come after
    [last_message_ts], each is the [ts] of a stored message, and no
    stored [ts] lies outside the two. *)
Theorem first_before_last (t : table) (first last : string) :
  first_message_ts (stats t) = Some first ->
  last_message_ts (stats t) = Some last ->
  String.leb first last = true
  /\ In first (map r_ts t) /\ In last (map r_ts t)
  /\ forall r, In r t ->
       String.leb first (r_ts r) = true /\ String.leb (r_ts r) last = true.
Proof.
  rewrite stats_verbatim. unfold get_stats.
  cbn [first_message_ts last_message_ts]. unfold value_or_none.
  intros Hfirst Hlast.
  assert (Hne : map r_ts t <> []).
  { intros E. rewrite E in Hfirst. discriminate Hfirst. }
  destruct (sql_min_spec _ Hne) as [lo [Hlo [Hlo_in Hlo_le]]].
  destruct (sql_max_spec _ Hne) as [hi [Hhi [Hhi_in Hhi_le]]].
  rewrite Hlo in Hfirst. rewrite Hhi in Hlast.
  destruct (truthy (Some lo)); [|discriminate Hfirst].
  destruct (truthy (Some hi)); [|discriminate Hlast].
  injection Hfirst as <-. injection Hlast as <-.
  repeat split; try assumption.
  - now apply Hlo_le.
  - apply Hlo_le. now apply in_map.
  - apply Hhi_le. now apply in_map.
Qed.

End StatsMore.

Lemma sender_counts_sum_witness :
  Spec.sum (map Models.count
              (Models.messages_per_sender (Main.stats Sample.three)))
  = Models.total_messages (Main.stats Sample.three).
Proof.
  refine (proj2 (sender_counts_sum Sample.three) _).
  vm_compute. discriminate.
Defined.

Lemma first_before_last_witness :
  String.leb "2025-01-10T10:00:00Z" "2025-01-12T10:00:00Z" = true.
Proof.
  exact (proj1 (first_before_last Sample.three
                  "2025-01-10T10:00:00Z" "2025-01-12T10:00:00Z"
                  eq_refl eq_refl)).
Defined.

(** ** The validators of the payload *)

Lemma all_digits_iff (s : string) :
  Models.all_digits s = true
  <-> forall c, In c (list_ascii_of_string s) -> Models.digit_char c = true.
Proof.
  induction s as [|c s IH]; cbn.
  - split; [intros _ c [] | reflexivity].
  - rewrite andb_true_iff, IH. split.
    + intros [Hc Hs] x [<-|Hx]; auto.
    + intros Hall. split; [apply Hall; now left|].
      intros x Hx. apply Hall. now right.
Qed.

(** [validate_msisdn] accepts a plus sign followed by one or more digit
    characters, and nothing else: not the empty string, not a lone plus
    sign, no string shorter than two characters. *)
Theorem validate_msisdn_shape (v : string) :
  (Models.validate_msisdn v = true
   <-> exists digits,
         v = String "+" digits /\ digits <> EmptyString
         /\ forall c, In c (list_ascii_of_string digits) ->
                      Models.digit_char c = true)
  /\ (Models.validate_msisdn v = true -> (2 <= String.length v)%nat).
Proof.
  assert (Hiff : Models.validate_msisdn v = true
                 <-> exists digits,
                       v = String "+" digits /\ digits <> EmptyString
                       /\ forall c, In c (list_ascii_of_string digits) ->
                                    Models.digit_char c = true).
  { unfold Models.validate_msisdn, Models.startswith, Models.isdigit.
    destruct v as [|c v]; cbn [negb Models.tail].
    - split; [discriminate|]. intros [digits [E _]]. discriminate E.
    - destruct (Ascii.eqb_spec c "+") as [->|Hc]; cbn [negb].
      + destruct v as [|d v].
        * split; [discriminate|]. intros [digits [E [Hne _]]].
          injection E as <-. congruence.
        * destruct (Models.all_digits (String d v)) eqn:Hd; cbn [negb].
          -- split; [|reflexivity]. intros _. exists (String d v).
             repeat split; [discriminate|]. now apply all_digits_iff.
          -- split; [discriminate|]. intros [digits [E [_ Hall]]].
             injection E as <-. apply all_digits_iff in Hall. congruence.
      + split; [discriminate|]. intros [digits [E _]]. injection E as ->.
        congruence. }
  split; [exact Hiff|].
  intros Hv. apply Hiff in Hv as [digits [-> [Hne _]]].
  destruct digits; [congruence | cbn; lia].
Qed.

Lemma endswith_iff (c : ascii) (s : string) :
  Models.endswith c s = true
  <-> exists before, s = (before ++ String c EmptyString)%string.
Proof.
  induction s as [|d s IH].
  - split; [discriminate|]. intros [[|? ?] E]; discriminate E.
  - cbn [Models.endswith]. destruct s as [|e s].
    + rewrite Ascii.eqb_eq. split.
      * intros ->. now exists EmptyString.
      * intros [[|x [|? ?]] E]; cbn in E; try discriminate E.
        now injection E as ->.
    + rewrite IH. split.
      * intros [before E]. exists (String d before). cbn. now rewrite E.
      * intros [[|x before] E]; cbn in E; [discriminate E|].
        injection E as -> E. now exists before.
Qed.

Lemma replace_app (c : ascii) (by_ s1 s2 : string) :
  Models.replace c by_ (s1 ++ s2)%string
  = (Models.replace c by_ s1 ++ Models.replace c by_ s2)%string.
Proof.
  induction s1 as [|d s1 IH]; cbn; [reflexivity|].
  rewrite IH. destruct (Ascii.eqb d c); cbn; [|reflexivity].
  generalize (Models.replace c by_ s1) (Models.replace c by_ s2).
  intros r1 r2. clear.
  induction by_ as [|b by_ IH]; cbn; [reflexivity | now rewrite IH].
Qed.

Lemma in_string_app (c : ascii) (s1 s2 : string) :
  In c (list_ascii_of_string (s1 ++ s2)%string)
  <-> In c (list_ascii_of_string s1) \/ In c (list_ascii_of_string s2).
Proof.
  induction s1 as [|d s1 IH]; cbn; [tauto|]. rewrite IH. tauto.
Qed.

Section Timestamp.
Context `{Runtime}.

(** [validate_ts] accepts the strings that end in [Z] and whose text,
    with the final [Z] and every other [Z] in it turned into [+00:00],
    parses; the text handed to the parser never holds a [Z]. *)
Theorem validate_ts_shape (v : string) :
  (Models.validate_ts v = true
   <-> exists before,
         v = (before ++ "Z")%string
         /\ fromisoformat
              (Models.replace "Z" "+00:00" before ++ "+00:00")%string = true)
  /\ ~ In "Z"%char (list_ascii_of_string (Models.replace "Z" "+00:00" v)).
Proof.
  split.
  - unfold Models.validate_ts.
    destruct (Models.endswith "Z" v) eqn:He; cbn [negb].
    + apply endswith_iff in He as [before ->].
      rewrite replace_app. cbn [Models.replace]. cbn [Ascii.eqb Bool.eqb].
      cbn [String.append]. split.
      * intros Hp. now exists before.
      * intros [before' [E Hp]].
        assert (before' = before); [|now subst].
        clear Hp. revert before' E.
        induction before as [|c before IH]; intros [|c' before'] E; cbn in E.
        -- reflexivity.
        -- injection E as <- E. destruct before'; discriminate E.
        -- injection E as -> E. destruct before; discriminate E.
        -- injection E as -> E. f_equal. now apply IH.
    + split; [discriminate|]. intros [before [E _]].
      assert (Models.endswith "Z" v = true)
        by (apply endswith_iff; now exists before).
      congruence.
  - induction v as [|c v IH]; cbn [Models.replace]; [intros []|].
    destruct (Ascii.eqb_spec c "Z") as [->|Hc].
    + rewrite in_string_app. cbn. intros [Hin|Hin]; [|now apply IH].
      repeat (destruct Hin as [Hin|Hin]; [discriminate Hin|]). exact Hin.
    + cbn. intros [E|Hin]; [congruence | now apply IH].
Qed.

(** What an accepted payload has passed. *)
Lemma parse_accepted (o : Models.json_object) (m : Models.WebhookMessage) :
  Models.parse_WebhookMessage o = Some m ->
  Models.message_id m <> EmptyString
  /\ Models.validate_msisdn (Models.from_msisdn m) = true
  /\ Models.validate_msisdn (Models.to_msisdn m) = true
  /\ Models.validate_ts (Models.ts m) = true
  /\ (forall txt, Models.text m = Some txt ->
                  (String.length txt <= 4096)%nat).
Proof.
  unfold Models.parse_WebhookMessage.
  destruct o as [oid ofrom oto ots otext], m as [mid mfrom mto mts mtext].
  cbn [Models.j_message_id Models.j_from Models.j_to Models.j_ts
       Models.j_text Models.message_id Models.from_msisdn Models.to_msisdn
       Models.ts Models.text].
  destruct oid as [i|], ofrom as [a|], oto as [b|], ots as [w|];
    try discriminate.
  destruct (_ && _) eqn:Hv; [|discriminate].
  intros E. injection E as -> -> -> -> ->.
  rewrite !andb_true_iff in Hv. destruct Hv as [[[[Hid Hf] Ht] Hts] Htxt].
  repeat split; try assumption.
  - intros ->. discriminate Hid.
  - intros txt ->. now apply Nat.leb_le.
Qed.

(** A payload is accepted exactly when the four required fields are
    there and every constraint holds, and it is then returned field for
    field as it came: no validator rewrites what it checks. *)
Theorem parse_WebhookMessage_iff (o : Models.json_object)
    (m : Models.WebhookMessage) :
  Models.parse_WebhookMessage o = Some m
  <-> Models.j_message_id o = Some (Models.message_id m)
      /\ Models.j_from o = Some (Models.from_msisdn m)
      /\ Models.j_to o = Some (Models.to_msisdn m)
      /\ Models.j_ts o = Some (Models.ts m)
      /\ Models.j_text o = Models.text m
      /\ Models.message_id m <> EmptyString
      /\ Models.validate_msisdn (Models.from_msisdn m) = true
      /\ Models.validate_msisdn (Models.to_msisdn m) = true
      /\ Models.validate_ts (Models.ts m) = true
      /\ (forall txt, Models.text m = Some txt ->
                      (String.length txt <= 4096)%nat).
Proof.
  unfold Models.parse_WebhookMessage.
  destruct o as [oid ofrom oto ots otext], m as [mid mfrom mto mts mtext].
  cbn [Models.j_message_id Models.j_from Models.j_to Models.j_ts
       Models.j_text Models.message_id Models.from_msisdn Models.to_msisdn
       Models.ts Models.text].
  split.
  - destruct oid as [i|], ofrom as [a|], oto as [b|], ots as [w|];
      try discriminate.
    destruct (_ && _) eqn:Hv; [|discriminate].
    intros E. injection E as -> -> -> -> ->.
    rewrite !andb_true_iff in Hv. destruct Hv as [[[[Hid Hf] Ht] Hts] Htxt].
    repeat split; try assumption.
    + intros ->. discriminate Hid.
    + intros txt ->. now apply Nat.leb_le.
  - intros [-> [-> [-> [-> [-> [Hid [Hf [Ht [Hts Htxt]]]]]]]]].
    rewrite Hf, Ht, Hts.
    assert (Hlen : (1 <=? String.length mid)%nat = true)
      by (destruct mid; [congruence | reflexivity]).
    rewrite Hlen. cbn [andb].
    destruct mtext as [txt|]; [|reflexivity].
    now rewrite (proj2 (Nat.leb_le _ _) (Htxt txt eq_refl)).
Qed.

End Timestamp.

(** ** The configured secret *)

Lemma lstrip_kept_iff (s : string) :
  Config.lstrip s <> EmptyString
  <-> exists c, In c (list_ascii_of_string s) /\ Config.isspace c = false.
Proof.
  induction s as [|c s IH]; cbn [Config.lstrip list_ascii_of_string].
  - split; [congruence|]. intros [c [[] _]].
  - destruct (Config.isspace c) eqn:Hc.
    + rewrite IH. split.
      * intros [x [Hx Hs]]. exists x. split; [now right | assumption].
      * intros [x [[<-|Hx] Hs]]; [congruence|]. now exists x.
    + split; [|discriminate]. intros _. exists c. split; [now left | assumption].
Qed.

Lemma lstrip_head (s : string) (c : ascii) (rest : string) :
  Config.lstrip s = String c rest -> Config.isspace c = false.
Proof.
  induction s as [|d s IH]; cbn; [discriminate|].
  destruct (Config.isspace d) eqn:Hd; [exact IH|].
  intros E. now injection E as <- _.
Qed.

Lemma rstrip_kept (c : ascii) (rest : string) :
  Config.isspace c = false -> Config.rstrip (String c rest) <> EmptyString.
Proof.
  intros Hc. cbn. destruct (Config.rstrip rest); [rewrite Hc|]; discriminate.
Qed.

Lemma strip_empty_iff (s : string) :
  Config.strip s = EmptyString <-> Config.lstrip s = EmptyString.
Proof.
  unfold Config.strip. split.
  - destruct (Config.lstrip s) as [|c rest] eqn:E; [reflexivity|].
    intros Hr. exfalso. apply (rstrip_kept c rest); [|exact Hr].
    now apply (lstrip_head s c rest).
  - now intros ->.
Qed.

(** [Config.validate] holds exactly when the secret is set and has a
    character that is not white space: a secret that is missing, empty or
    blank is refused. *)
Theorem validate_secret_iff (secret : option string) :
  Config.validate secret = true
  <-> exists s c,
        secret = Some s /\ In c (list_ascii_of_string s)
        /\ Config.isspace c = false.
Proof.
  unfold Config.validate.
  destruct secret as [s|].
  2:{ cbn. split; [discriminate|]. intros [s [c [E _]]]. discriminate E. }
  cbn [value].
  assert (Hlen : (String.length (Config.strip s) =? 0)%nat = true
                 <-> Config.lstrip s = EmptyString).
  { rewrite Nat.eqb_eq, <- strip_empty_iff.
    destruct (Config.strip s); cbn; split; congruence. }
  destruct (truthy (Some s)) eqn:Ht; cbn [negb orb].
  - destruct (String.length (Config.strip s) =? 0)%nat eqn:Hz.
    + split; [discriminate|]. intros [s' [c [E Hc]]]. injection E as <-.
      assert (Hk : Config.lstrip s <> EmptyString)
        by (apply lstrip_kept_iff; now exists c).
      exfalso. apply Hk. now apply Hlen.
    + split; [|reflexivity]. intros _.
      assert (Hk : Config.lstrip s <> EmptyString).
      { intros E. apply Hlen in E. congruence. }
      apply lstrip_kept_iff in Hk as [c Hc]. now exists s, c.
  - split; [discriminate|]. intros [s' [c [E [Hin _]]]]. injection E as <-.
    destruct s; [destruct Hin | discriminate Ht].
Qed.

(** ** The handler and its counters *)

Lemma insert_reports_duplicate (f : Storage.fault)
    (now mid sender recipient when : string) (txt : option string)
    (d : Storage.database) (dup : bool) :
  fst (Storage.insert_message f now mid sender recipient when txt d)
  = Ok (true, dup) ->
  Storage.has_id mid (Storage.messages d) = dup.
Proof.
  rewrite insert_message_eq.
  destruct f; try discriminate;
    destruct (Storage.has_id mid (Storage.messages d)); cbn;
    intros E; congruence.
Qed.

Lemma insert_raises_operational (f : Storage.fault)
    (now mid sender recipient when : string) (txt : option string)
    (d : Storage.database) (e : exn) :
  fst (Storage.insert_message f now mid sender recipient when txt d)
  = Raise e ->
  e = OperationalError.
Proof.
  rewrite insert_message_eq.
  destruct f; try discriminate;
    try (destruct (Storage.has_id mid (Storage.messages d)); discriminate).
  cbn. intros E. now injection E as <-.
Qed.

Section Counted.
Import Models Storage.

Variables (secret : string) (f : fault) (now : string).
Variables (payload : WebhookMessage) (raw : string) (x : option string).

(** The handler with its counters and its log answers as the handler
    without them and leaves the same database.  It increments one result
    counter, once: [invalid_signature] with a 401, [error] with its own
    500, [duplicate] or [created] with a 200, the latter exactly when the
    id was not stored; and it logs one error line with each of the first
    two, none with a 200.  When an exception escapes it (from
    [compare_digest] or from opening the connection) it has counted and
    logged nothing. *)
Theorem webhook_counts_once (a : Instrumented.app) :
  let '(r, a') := Instrumented.webhook secret f now payload raw x a in
  (r, Instrumented.store a')
  = Main.webhook secret f now payload raw x (Instrumented.store a)
  /\ match r with
     | Ok _ =>
         Instrumented.metrics a'
         = Metrics.increment_webhook_request
             (if has_id (message_id payload)
                        (messages (Instrumented.store a))
              then "duplicate" else "created")
             (Instrumented.metrics a)
         /\ Instrumented.error_log a' = Instrumented.error_log a
     | Raise (Other (HTTPException code _)) =>
         Instrumented.metrics a'
         = Metrics.increment_webhook_request
             (if code =? 401 then "invalid_signature" else "error")
             (Instrumented.metrics a)
         /\ exists line,
              Instrumented.error_log a' = Instrumented.error_log a ++ [line]
     | Raise _ =>
         Instrumented.metrics a' = Instrumented.metrics a
         /\ Instrumented.error_log a' = Instrumented.error_log a
     end.
Proof.
  destruct a as [d c l].
  unfold Instrumented.webhook, Main.webhook, Main.compare_digest.
  unfold bind, raise, ret, Instrumented.increment_webhook_request,
    Instrumented.log_error, Instrumented.on_store.
  cbn [Instrumented.store Instrumented.metrics Instrumented.error_log].
  destruct (truthy x); cbn [negb].
  2:{ cbn. split; [reflexivity|]. split; [reflexivity|]. eauto. }
  destruct (isascii (Hmac.hexdigest (encode secret) raw) && isascii (value x)).
  2:{ cbn. split; [reflexivity|]. split; reflexivity. }
  destruct (String.eqb (Hmac.hexdigest (encode secret) raw) (value x));
    cbn [negb].
  2:{ cbn. split; [reflexivity|]. split; [reflexivity|]. eauto. }
  cbv beta.
  cbn [Instrumented.store Instrumented.metrics Instrumented.error_log].
  pose proof (insert_reports_duplicate f now (message_id payload)
                (from_msisdn payload) (to_msisdn payload) (ts payload)
                (text payload) d) as Hdup.
  pose proof (insert_raises_operational f now (message_id payload)
                (from_msisdn payload) (to_msisdn payload) (ts payload)
                (text payload) d) as Hraise.
  destruct (insert_message f now (message_id payload) (from_msisdn payload)
              (to_msisdn payload) (ts payload) (text payload) d)
    as [[[[|] dup]|e] d'].
  - rewrite <- (Hdup dup eq_refl). cbn.
    split; [reflexivity|]. split; [|reflexivity].
    now destruct dup.
  - cbn. split; [reflexivity|]. split; [reflexivity|]. eauto.
  - rewrite (Hraise e eq_refl). cbn. auto.
Qed.

End Counted.

(** ** The counters *)

Section Dict.
Context {K : Type} (eqb : K -> K -> bool).
Hypothesis eqb_eq : forall a b, eqb a b = true <-> a = b.

Let bump (d : Metrics.dict K Z) (k : K) : Metrics.dict K Z :=
  Metrics.set eqb d k (Metrics.get eqb d k 0 + 1).

Lemma eqb_same (k : K) : eqb k k = true.
Proof. now apply eqb_eq. Qed.

Lemma eqb_other (a b : K) : a <> b -> eqb a b = false.
Proof.
  intros Hne. destruct (eqb a b) eqn:E; [|reflexivity].
  apply eqb_eq in E. contradiction.
Qed.

Lemma get_set_same (d : Metrics.dict K Z) (k : K) (v default : Z) :
  Metrics.get eqb (Metrics.set eqb d k v) k default = v.
Proof.
  induction d as [|[k' v'] d IH]; cbn.
  - now rewrite eqb_same.
  - destruct (eqb k' k) eqn:E; cbn; rewrite E; [reflexivity | exact IH].
Qed.

Lemma get_set_other (d : Metrics.dict K Z) (k k' : K) (v default : Z) :
  k' <> k ->
  Metrics.get eqb (Metrics.set eqb d k v) k' default
  = Metrics.get eqb d k' default.
Proof.
  intros Hne. induction d as [|[k0 v0] d IH]; cbn.
  - rewrite eqb_other; [reflexivity | congruence].
  - destruct (eqb k0 k) eqn:E; cbn.
    + apply eqb_eq in E. subst k0.
      rewrite eqb_other; [reflexivity | congruence].
    + now rewrite IH.
Qed.

Lemma set_keys (d : Metrics.dict K Z) (k : K) (v : Z) :
  map fst (Metrics.set eqb d k v)
  = if existsb (fun k' => eqb k' k) (map fst d) then map fst d
    else map fst d ++ [k].
Proof.
  induction d as [|[k' v'] d IH]; cbn; [reflexivity|].
  destruct (eqb k' k); cbn; [reflexivity|].
  rewrite IH. now destruct (existsb _ (map fst d)).
Qed.

Lemma set_keys_nodup (d : Metrics.dict K Z) (k : K) (v : Z) :
  NoDup (map fst d) -> NoDup (map fst (Metrics.set eqb d k v)).
Proof.
  intros Hnd. rewrite set_keys.
  destruct (existsb _ (map fst d)) eqn:E; [assumption|].
  apply NoDup_app; [assumption | repeat constructor; auto |].
  intros k' Hk' [<-|[]].
  assert (existsb (fun k' => eqb k' k) (map fst d) = true); [|congruence].
  apply existsb_exists. exists k. split; [assumption | apply eqb_same].
Qed.

Lemma set_keys_in (d : Metrics.dict K Z) (k k' : K) (v : Z) :
  In k' (map fst (Metrics.set eqb d k v)) <-> In k' (map fst d) \/ k' = k.
Proof.
  rewrite set_keys. destruct (existsb _ (map fst d)) eqn:E.
  - apply existsb_exists in E as [k0 [Hk0 Ek]]. apply eqb_eq in Ek. subst k0.
    split; [auto|]. intros [Hin| ->]; assumption.
  - rewrite in_app_iff. cbn. intuition.
Qed.

Lemma bump_counts (ks : list K) :
  forall (d : Metrics.dict K Z) (k : K),
    Metrics.get eqb (fold_left bump ks d) k 0
    = Metrics.get eqb d k 0
      + Z.of_nat (List.length (filter (fun x => eqb x k) ks)).
Proof.
  induction ks as [|x ks IH]; intros d k; cbn [fold_left filter].
  - cbn. lia.
  - rewrite IH. unfold bump.
    destruct (eqb x k) eqn:E.
    + apply eqb_eq in E. subst x. rewrite get_set_same.
      cbn [List.length]. lia.
    + rewrite get_set_other; [reflexivity|].
      intros ->. now rewrite eqb_same in E.
Qed.

Lemma bump_keys (ks : list K) :
  forall d : Metrics.dict K Z,
    NoDup (map fst d) ->
    NoDup (map fst (fold_left bump ks d))
    /\ forall k, In k (map fst (fold_left bump ks d))
                 <-> In k (map fst d) \/ In k ks.
Proof.
  induction ks as [|x ks IH]; intros d Hnd; cbn [fold_left].
  - split; [assumption|]. intros k. cbn. tauto.
  - destruct (IH (bump d x) (set_keys_nodup d x _ Hnd)) as [Hnd' Hin].
    split; [assumption|]. intros k. rewrite Hin. unfold bump.
    rewrite set_keys_in. cbn. intuition.
Qed.

Lemma in_items_iff (d : Metrics.dict K Z) (k : K) (v : Z) :
  NoDup (map fst d) ->
  (In (k, v) d <-> In k (map fst d) /\ Metrics.get eqb d k 0 = v).
Proof.
  induction d as [|[k' v'] d IH]; cbn; intros Hnd; [tauto|].
  inversion Hnd as [|? ? Hnotin Hnd']; subst.
  destruct (eqb k' k) eqn:E.
  - apply eqb_eq in E. subst k'. split.
    + intros [Heq|Hin]; [injection Heq as <-; auto|].
      exfalso. apply Hnotin. change k with (fst (k, v)). now apply in_map.
    + intros [_ <-]. now left.
  - assert (Hne : k' <> k) by (intros ->; now rewrite eqb_same in E).
    rewrite (IH Hnd'). split.
    + intros [Heq|H]; [congruence | tauto].
    + intros [[Heq|Hin] Hv]; [congruence | tauto].
Qed.

(** Two runs of the same increments in different orders leave the same
    items, in different places at most. *)
Lemma bump_perm (ks ks' : list K) :
  Permutation ks ks' ->
  Permutation (fold_left bump ks []) (fold_left bump ks' []).
Proof.
  intros Hp.
  destruct (bump_keys ks [] (NoDup_nil _)) as [Hnd Hin].
  destruct (bump_keys ks' [] (NoDup_nil _)) as [Hnd' Hin'].
  apply NoDup_Permutation; [now apply NoDup_map_inv in Hnd
                           | now apply NoDup_map_inv in Hnd' |].
  intros [k v]. rewrite !in_items_iff by assumption.
  rewrite Hin, Hin', !bump_counts.
  rewrite (Permutation_length (filter_permutation (fun x => eqb x k) _ _ Hp)).
  cbn. split; intros [[[]|Hk] Hv]; (split; [right|exact Hv]).
  - eapply Permutation_in; eassumption.
  - eapply Permutation_in; [symmetry|]; eassumption.
Qed.

End Dict.

Lemma http_key_eqb_eq (a b : Metrics.http_key) :
  Metrics.http_key_eqb a b = true <-> a = b.
Proof.
  destruct a as [[m1 p1] s1], b as [[m2 p2] s2]. cbn.
  rewrite !andb_true_iff, !String.eqb_eq, Z.eqb_eq.
  split; [intros [[-> ->] ->]; reflexivity | intros E; now injection E].
Qed.

Lemma after_http (calls : list Metrics.call) :
  forall c,
    Metrics.http_requests_total (fold_left Metrics.apply calls c)
    = fold_left (fun d k => Metrics.set Metrics.http_key_eqb d k
                              (Metrics.get Metrics.http_key_eqb d k 0 + 1))
                (Metrics.http_keys calls) (Metrics.http_requests_total c).
Proof.
  induction calls as [|[m p s|r] calls IH]; intros c; cbn; [reflexivity| |];
    now rewrite IH.
Qed.

Lemma after_webhook (calls : list Metrics.call) :
  forall c,
    Metrics.webhook_requests_total (fold_left Metrics.apply calls c)
    = fold_left (fun d k => Metrics.set String.eqb d k
                              (Metrics.get String.eqb d k 0 + 1))
                (Metrics.results calls) (Metrics.webhook_requests_total c).
Proof.
  induction calls as [|[m p s|r] calls IH]; intros c; cbn; [reflexivity| |];
    now rewrite IH.
Qed.

(** Each counter is the number of times it was incremented: after any
    run of increments, the count under a key is the number of the
    increments made under it (zero for a key never seen), and no key
    occurs twice in either table. *)
Theorem counters_count (calls : list Metrics.call) :
  let c := Metrics.after calls in
  (forall key,
     Metrics.get Metrics.http_key_eqb (Metrics.http_requests_total c) key 0
     = Z.of_nat (List.length
                   (filter (fun k => Metrics.http_key_eqb k key)
                           (Metrics.http_keys calls))))
  /\ (forall result,
        Metrics.get String.eqb (Metrics.webhook_requests_total c) result 0
        = Z.of_nat (List.length
                      (filter (fun r => String.eqb r result)
                              (Metrics.results calls))))
  /\ NoDup (map fst (Metrics.http_requests_total c))
  /\ NoDup (map fst (Metrics.webhook_requests_total c))
  /\ (forall key, In key (map fst (Metrics.http_requests_total c))
                  <-> In key (Metrics.http_keys calls))
  /\ (forall result, In result (map fst (Metrics.webhook_requests_total c))
                     <-> In result (Metrics.results calls)).
Proof.
  cbv zeta. unfold Metrics.after. rewrite after_http, after_webhook.
  cbn [Metrics.init Metrics.http_requests_total Metrics.webhook_requests_total].
  destruct (bump_keys Metrics.http_key_eqb http_key_eqb_eq
              (Metrics.http_keys calls) [] (NoDup_nil _)) as [Hnd1 Hin1].
  destruct (bump_keys String.eqb String.eqb_eq
              (Metrics.results calls) [] (NoDup_nil _)) as [Hnd2 Hin2].
  split; [intros key; now rewrite (bump_counts _ http_key_eqb_eq)|].
  split; [intros result; now rewrite (bump_counts _ String.eqb_eq)|].
  split; [exact Hnd1|]. split; [exact Hnd2|].
  split; [intros key; rewrite Hin1 | intros result; rewrite Hin2]; cbn; tauto.
Qed.

(** ** The exposition *)

Lemma str_then_total (a b : string) (r1 r2 : bool) :
  (a = b -> r1 = true \/ r2 = true) ->
  Metrics.str_then a b r1 = true \/ Metrics.str_then b a r2 = true.
Proof.
  unfold Metrics.str_then. rewrite (String.compare_antisym b a).
  destruct (String.compare a b) eqn:E; cbn; auto.
  apply String.compare_eq_iff in E. auto.
Qed.

Lemma str_then_trans (a b c : string) (r1 r2 r3 : bool) :
  (a = b -> b = c -> r1 = true -> r2 = true -> r3 = true) ->
  Metrics.str_then a b r1 = true -> Metrics.str_then b c r2 = true ->
  Metrics.str_then a c r3 = true.
Proof.
  unfold Metrics.str_then. intros Hr.
  destruct (String.compare a b) eqn:Hab; try discriminate;
    destruct (String.compare b c) eqn:Hbc; try discriminate; intros H1 H2.
  - apply String.compare_eq_iff in Hab, Hbc. subst.
    rewrite string_compare_refl. auto.
  - apply String.compare_eq_iff in Hab. subst. now rewrite Hbc.
  - apply String.compare_eq_iff in Hbc. subst. now rewrite Hab.
  - now rewrite (string_compare_lt_trans _ _ _ Hab Hbc).
Qed.

Lemma str_then_antisym (a b : string) (r1 r2 : bool) :
  Metrics.str_then a b r1 = true -> Metrics.str_then b a r2 = true ->
  a = b /\ r1 = true /\ r2 = true.
Proof.
  unfold Metrics.str_then. rewrite (String.compare_antisym b a).
  destruct (String.compare a b) eqn:E; cbn; try discriminate.
  apply String.compare_eq_iff in E. auto.
Qed.

Lemma int_then_total (a b : Z) (r1 r2 : bool) :
  (a = b -> r1 = true \/ r2 = true) ->
  Metrics.int_then a b r1 = true \/ Metrics.int_then b a r2 = true.
Proof.
  unfold Metrics.int_then. rewrite (Z.compare_antisym a b).
  destruct (Z.compare_spec a b); cbn; auto.
Qed.

Lemma int_then_trans (a b c : Z) (r1 r2 r3 : bool) :
  (a = b -> b = c -> r1 = true -> r2 = true -> r3 = true) ->
  Metrics.int_then a b r1 = true -> Metrics.int_then b c r2 = true ->
  Metrics.int_then a c r3 = true.
Proof.
  unfold Metrics.int_then. intros Hr.
  destruct (Z.compare_spec a b) as [E1|L1|G1]; try discriminate;
    destruct (Z.compare_spec b c) as [E2|L2|G2]; try discriminate;
    destruct (Z.compare_spec a c) as [E3|L3|G3]; intros K1 K2;
    try reflexivity; try lia; auto.
Qed.

Lemma int_then_antisym (a b : Z) (r1 r2 : bool) :
  Metrics.int_then a b r1 = true -> Metrics.int_then b a r2 = true ->
  a = b /\ r1 = true /\ r2 = true.
Proof.
  unfold Metrics.int_then.
  destruct (Z.compare_spec a b) as [E1|L1|G1];
    destruct (Z.compare_spec b a) as [E2|L2|G2];
    try discriminate; try lia; auto.
Qed.

Lemma webhook_item_le_total (a b : string * Z) :
  Metrics.webhook_item_le a b = true \/ Metrics.webhook_item_le b a = true.
Proof.
  apply str_then_total. intros _. rewrite !Z.leb_le. lia.
Qed.

Lemma webhook_item_le_trans (a b c : string * Z) :
  Metrics.webhook_item_le a b = true -> Metrics.webhook_item_le b c = true ->
  Metrics.webhook_item_le a c = true.
Proof.
  apply str_then_trans. intros _ _. rewrite !Z.leb_le. lia.
Qed.

Lemma webhook_item_le_antisym (a b : string * Z) :
  Metrics.webhook_item_le a b = true -> Metrics.webhook_item_le b a = true ->
  a = b.
Proof.
  intros H1 H2. destruct (str_then_antisym _ _ _ _ H1 H2) as [E [L1 L2]].
  apply Z.leb_le in L1, L2. destruct a, b. cbn in *. f_equal; [assumption|lia].
Qed.

Lemma http_item_le_total (a b : Metrics.http_key * Z) :
  Metrics.http_item_le a b = true \/ Metrics.http_item_le b a = true.
Proof.
  destruct a as [[[m1 p1] s1] c1], b as [[[m2 p2] s2] c2]. cbn.
  apply str_then_total. intros _. apply str_then_total. intros _.
  apply int_then_total. intros _. rewrite !Z.leb_le. lia.
Qed.

Lemma http_item_le_trans (a b c : Metrics.http_key * Z) :
  Metrics.http_item_le a b = true -> Metrics.http_item_le b c = true ->
  Metrics.http_item_le a c = true.
Proof.
  destruct a as [[[m1 p1] s1] c1], b as [[[m2 p2] s2] c2],
    c as [[[m3 p3] s3] c3]. cbn.
  apply str_then_trans. intros _ _. apply str_then_trans. intros _ _.
  apply int_then_trans. intros _ _. rewrite !Z.leb_le. lia.
Qed.

Lemma http_item_le_antisym (a b : Metrics.http_key * Z) :
  Metrics.http_item_le a b = true -> Metrics.http_item_le b a = true ->
  a = b.
Proof.
  destruct a as [[[m1 p1] s1] c1], b as [[[m2 p2] s2] c2]. cbn.
  intros H1 H2.
  destruct (str_then_antisym _ _ _ _ H1 H2) as [-> [H3 H4]].
  destruct (str_then_antisym _ _ _ _ H3 H4) as [-> [H5 H6]].
  destruct (int_then_antisym _ _ _ _ H5 H6) as [-> [H7 H8]].
  apply Z.leb_le in H7, H8. f_equal. lia.
Qed.

Lemma sorted_items_unique {A : Type} (le : A -> A -> bool) (l l' : list A) :
  (forall a b, le a b = true \/ le b a = true) ->
  (forall a b c, le a b = true -> le b c = true -> le a c = true) ->
  (forall a b, le a b = true -> le b a = true -> a = b) ->
  Permutation l l' ->
  Reference.insertion_sort le l = Reference.insertion_sort le l'.
Proof.
  intros Htot Htr Hanti Hp.
  apply sorted_perm_unique with (R := fun a b => le a b = true).
  - intros a b _ _. apply Hanti.
  - now apply insertion_sort_sorted.
  - now apply insertion_sort_sorted.
  - rewrite !insertion_sort_perm. exact Hp.
Qed.

Lemma http_keys_perm (calls calls' : list Metrics.call) :
  Permutation calls calls' ->
  Permutation (Metrics.http_keys calls) (Metrics.http_keys calls').
Proof. apply Permutation_flat_map. Qed.

Lemma results_perm (calls calls' : list Metrics.call) :
  Permutation calls calls' ->
  Permutation (Metrics.results calls) (Metrics.results calls').
Proof. apply Permutation_flat_map. Qed.

(** The text of GET /metrics depends on how often each counter was
    incremented and not on the order of the increments; it has the four
    comment lines, also before any request, and one line for each key. *)
Theorem render_ignores_order (calls calls' : list Metrics.call) :
  Permutation calls calls' ->
  Metrics.render_prometheus (Metrics.after calls)
  = Metrics.render_prometheus (Metrics.after calls')
  /\ List.length (Metrics.render_lines (Metrics.after calls))
     = (4 + List.length (Metrics.http_requests_total (Metrics.after calls))
        + List.length (Metrics.webhook_requests_total (Metrics.after calls)))%nat.
Proof.
  intros Hp. split.
  - unfold Metrics.render_prometheus, Metrics.render_lines, Metrics.after.
    rewrite !after_http, !after_webhook.
    cbn [Metrics.init Metrics.http_requests_total
         Metrics.webhook_requests_total].
    rewrite (sorted_items_unique Metrics.http_item_le _ _
               http_item_le_total http_item_le_trans http_item_le_antisym
               (bump_perm Metrics.http_key_eqb http_key_eqb_eq _ _
                  (http_keys_perm _ _ Hp))).
    rewrite (sorted_items_unique Metrics.webhook_item_le _ _
               webhook_item_le_total webhook_item_le_trans
               webhook_item_le_antisym
               (bump_perm String.eqb String.eqb_eq _ _
                  (results_perm _ _ Hp))).
    reflexivity.
  - unfold Metrics.render_lines.
    rewrite !length_app, !length_map.
    rewrite !(Permutation_length (insertion_sort_perm _ _)).
    cbn [List.length]. lia.
Qed.

Lemma render_ignores_order_witness :
  Metrics.render_prometheus
    (Metrics.after
       [Metrics.IncrementWebhook "created";
        Metrics.IncrementHttp "POST" "/webhook" 200;
        Metrics.IncrementHttp "GET" "/messages" 200])
  = Metrics.render_prometheus
      (Metrics.after
         [Metrics.IncrementHttp "GET" "/messages" 200;
          Metrics.IncrementHttp "POST" "/webhook" 200;
          Metrics.IncrementWebhook "created"]).
Proof.
  refine (proj1 (render_ignores_order _ _ _)).
  apply Permutation_rev.
Defined.

(** ** The [q] filter and the characters LIKE reads as wildcards *)

Lemma like_char_same (c : ascii) : Storage.like_char c c = true.
Proof. unfold Storage.like_char. apply Ascii.eqb_refl. Qed.

(** A pattern matches itself followed by anything, wildcards included:
    [%] matches a [%] and [_] matches a [_].  Pattern and text are both
    read up to their first NUL. *)
Lemma like_own_prefix (q rest : string) :
  Storage.pattern_compare (Storage.c_string (q ++ "%"))
    (Storage.c_string (q ++ rest)) = true.
Proof.
  induction q as [|c q IH]; cbn [String.append].
  - apply like_percent_only.
  - cbn [Storage.c_string]. destruct (Ascii.eqb c zero); [reflexivity|].
    destruct (Ascii.eqb c "%") eqn:Hp.
    + apply Ascii.eqb_eq in Hp. subst c. apply like_percent_iff.
      exists (String "%" EmptyString), (Storage.c_string (q ++ rest)).
      split; [reflexivity | exact IH].
    + cbn [Storage.pattern_compare]. rewrite Hp, IH.
      destruct (Ascii.eqb c "_"); [reflexivity|].
      now rewrite like_char_same.
Qed.

(** What follows the first NUL of a text is not looked at. *)
Lemma like_up_to_nul (p before after : string) :
  Spec.nul_free before = true ->
  Storage.like p (before ++ String zero after) = Storage.like p before.
Proof.
  intros Hb. unfold Storage.like. rewrite c_string_app by assumption.
  rewrite (c_string_nul_free before) by assumption.
  change (Storage.c_string (String zero after)) with EmptyString.
  f_equal. clear. induction before as [|c s IH]; cbn; [reflexivity|].
  now rewrite IH.
Qed.

(** [_] stands for one character, which a NUL is not. *)
Lemma like_any_one (t : string) :
  Storage.like ("%" ++ "_" ++ "%")%string t = true
  <-> exists c rest, t = String c rest /\ c <> zero.
Proof.
  unfold Storage.like.
  change (Storage.c_string ("%" ++ "_" ++ "%")%string)
    with (String "%" (String "_" "%")).
  rewrite like_percent_iff. split.
  - intros [before [rest [E Hl]]].
    destruct t as [|c t]; [destruct before, rest; discriminate|].
    exists c, t. split; [reflexivity|]. intros ->.
    cbn in E. destruct before, rest; discriminate.
  - intros [c [rest [-> Hc]]]. cbn [Storage.c_string].
    destruct (Ascii.eqb_spec c zero) as [->|_]; [congruence|].
    exists EmptyString, (String c (Storage.c_string rest)).
    split; [reflexivity|].
    cbn [Storage.pattern_compare]. cbn [Ascii.eqb Bool.eqb]. cbn [andb].
    apply like_percent_only.
Qed.

Lemma Ok_true_iff (b : bool) : @Ok bool b = Ok true <-> b = true.
Proof. split; [intros E; now injection E | now intros ->]. Qed.

Section Wildcards.
Import Models Storage.

(** The [q] filter misses no message whose text holds [q] as it stands
    with no NUL before it, whatever characters [q] is made of.  But a [%]
    or a [_] in [q] is not looked for as itself only, and a NUL ends what
    LIKE reads: [q=%] passes every message that has a text, the empty text
    too, and so does a [q] that is one NUL; [q=_] passes every message
    whose text starts with a character other than NUL; and what follows
    the first NUL of a text is not searched, so that [q=b] misses the text
    [a NUL b]. *)
Theorem q_filter_covers_verbatim (q : string) (r : Message) :
  (forall before after,
     q <> EmptyString ->
     Spec.pattern_too_long (Some q) = false ->
     Spec.nul_free before = true ->
     r_text r = Some (before ++ q ++ after)%string ->
     where_clause None None (Some q) r = Ok true)
  /\ (where_clause None None (Some "%") r = Ok true <-> r_text r <> None)
  /\ (where_clause None None (Some (String zero EmptyString)) r = Ok true
      <-> r_text r <> None)
  /\ (where_clause None None (Some "_") r = Ok true
      <-> exists c rest, r_text r = Some (String c rest) /\ c <> zero)
  /\ (forall before after,
        q <> EmptyString ->
        Spec.nul_free before = true ->
        r_text r = Some (before ++ String zero after)%string ->
        where_clause None None (Some q) r
        = where_clause None None (Some q)
            (mk_Message (r_message_id r) (r_from_msisdn r) (r_to_msisdn r)
                        (r_ts r) (Some before) (r_created_at r)))
  /\ (r_text r = Some (String "a" (String zero "b")) ->
      where_clause None None (Some "b") r = Ok false).
Proof.
  assert (Hall : forall t, like ("%" ++ "%" ++ "%")%string t = true).
  { intros t. unfold like.
    change (c_string ("%" ++ "%" ++ "%")%string)
      with (String "%" (String "%" "%")).
    apply like_percent_iff. exists EmptyString, (c_string t).
    split; [reflexivity|].
    apply like_percent_iff. exists EmptyString, (c_string t).
    split; [reflexivity | apply like_percent_only]. }
  split; [|split; [|split; [|split; [|split]]]].
  - intros before after Hq Hfit Hb Htext. rewrite where_clause_eq.
    destruct q as [|c q]; [congruence|].
    cbn [Spec.passes_sender_since truthy value andb]. rewrite Htext.
    unfold sql_like.
    change (too_complex ("%" ++ String c q ++ "%")%string)
      with (Spec.pattern_too_long (Some (String c q))).
    rewrite Hfit. f_equal. unfold like.
    rewrite (c_string_app before) by assumption.
    change ("%" ++ String c q ++ "%")%string
      with (String "%" (String c q ++ "%")%string).
    cbn [c_string]. cbn [Ascii.eqb Bool.eqb].
    apply like_percent_iff.
    exists before, (c_string (String c q ++ after)). split; [reflexivity|].
    apply like_own_prefix.
  - rewrite where_clause_eq.
    cbn [Spec.passes_sender_since truthy value andb]. unfold sql_like.
    change (too_complex ("%" ++ "%" ++ "%")%string) with false. cbv iota.
    destruct (r_text r) as [t|].
    + rewrite Hall. split; [discriminate | reflexivity].
    + split; [discriminate | congruence].
  - rewrite where_clause_eq.
    cbn [Spec.passes_sender_since truthy value andb]. unfold sql_like.
    change (too_complex ("%" ++ String zero EmptyString ++ "%")%string)
      with false. cbv iota.
    destruct (r_text r) as [t|].
    + unfold like.
      change (c_string ("%" ++ String zero EmptyString ++ "%")%string)
        with "%"%string.
      rewrite like_percent_only. split; [discriminate | reflexivity].
    + split; [discriminate | congruence].
  - rewrite where_clause_eq.
    cbn [Spec.passes_sender_since truthy value andb]. unfold sql_like.
    change (too_complex ("%" ++ "_" ++ "%")%string) with false. cbv iota.
    destruct (r_text r) as [t|].
    + rewrite Ok_true_iff, like_any_one. split.
      * intros [c [rest [-> Hc]]]. now exists c, rest.
      * intros [c [rest [E Hc]]]. injection E as ->. now exists c, rest.
    + split; [discriminate|]. intros [c [rest [E _]]]. discriminate E.
  - intros before after Hq Hb Htext. rewrite !where_clause_eq.
    destruct q as [|c q]; [congruence|].
    cbn [Spec.passes_sender_since truthy value andb r_text]. rewrite Htext.
    unfold sql_like. now rewrite like_up_to_nul.
  - intros Htext. rewrite where_clause_eq.
    cbn [Spec.passes_sender_since truthy value andb]. now rewrite Htext.
Qed.

End Wildcards.

Lemma q_filter_covers_verbatim_witness :
  Storage.where_clause None None (Some "100%") 
    (Sample.stored "m7" "+15551234567" "2025-01-12T10:00:00Z"
       (Some "Battery at 100% now")) = Ok true.
Proof.
  exact (proj1 (q_filter_covers_verbatim "100%"
                  (Sample.stored "m7" "+15551234567" "2025-01-12T10:00:00Z"
                     (Some "Battery at 100% now")))
           "Battery at " " now" ltac:(discriminate) eq_refl eq_refl eq_refl).
Defined.

(** ** What every stored row looks like *)

Section StoredRows.
Import Models Storage Main.
Context `{Runtime}.

Let valid_row (r : Message) : Prop :=
  r_message_id r <> EmptyString
  /\ validate_msisdn (r_from_msisdn r) = true
  /\ validate_msisdn (r_to_msisdn r) = true
  /\ validate_ts (r_ts r) = true
  /\ (forall txt, r_text r = Some txt -> (String.length txt <= 4096)%nat)
  /\ endswith "Z" (r_created_at r) = true.

Lemma endswith_app_one (c : ascii) (s : string) :
  endswith c (s ++ String c EmptyString)%string = true.
Proof. apply endswith_iff. now exists s. Qed.

(** Whatever requests arrive, with whatever faults in between, the table
    keeps its primary key and holds only rows that pass the validators of
    the payload, each stamped with a [created_at] that ends in [Z]. *)
Theorem stored_rows_stay_valid (secret : string)
    (calls : list (fault * string * webhook_request)) :
  forall d : database,
    primary_key (Storage.messages d) ->
    Forall valid_row (Storage.messages d) ->
    primary_key (Storage.messages (snd (deliver secret calls d)))
    /\ Forall valid_row (Storage.messages (snd (deliver secret calls d))).
Proof.
  induction calls as [|[[f now] req] calls IH]; intros d Hpk Hrows;
    cbn [deliver]; [now split|].
  pose proof (post_webhook_rows secret f now req d) as Hstep.
  destruct (post_webhook secret f now req d) as [r d1]. cbn [snd] in Hstep.
  assert (Hinv : primary_key (Storage.messages d1)
                 /\ Forall valid_row (Storage.messages d1)).
  { destruct Hstep as [->|[m [Hm [Hid ->]]]]; [now split|]. split.
    - unfold primary_key. rewrite map_app. cbn.
      apply NoDup_app; [exact Hpk | repeat constructor; auto |].
      intros k Hk [<-|[]]. now apply has_id_false in Hid.
    - apply Forall_app. split; [exact Hrows|]. constructor; [|constructor].
      unfold payload_of in Hm. destruct (json req) as [o|]; [|discriminate].
      apply parse_accepted in Hm as [Hi [Hf [Ht [Hts Htxt]]]].
      unfold valid_row. cbn. repeat split; try assumption.
      apply endswith_app_one. }
  destruct Hinv as [Hpk1 Hrows1].
  specialize (IH d1 Hpk1 Hrows1).
  destruct (deliver secret calls d1) as [rs d2]. exact IH.
Qed.

(** Under the primary key no page that a call returns holds a message
    twice. *)
Theorem page_has_no_repeats (limit offset : Z)
    (sender since q : option string) (t : table) :
  primary_key t ->
  forall rows total,
    get_messages limit offset sender since q t = Ok (rows, total) ->
    NoDup (map r_message_id rows).
Proof.
  unfold primary_key. intros Hpk rows total Hret.
  apply get_messages_ok in Hret as [_ [_ [_ [-> _]]]].
  set (w := Spec.passes sender since q).
  assert (Hf : NoDup (map r_message_id (filter w t))).
  { clear -Hpk. induction t as [|r t IH]; cbn; [constructor|].
    inversion Hpk as [|? ? Hnotin Hnd]; subst.
    destruct (w r); cbn; [|now apply IH].
    constructor; [|now apply IH].
    intros Hin. apply Hnotin. apply in_map_iff in Hin as [x [E Hx]].
    apply filter_In in Hx as [Hx _]. rewrite <- E. now apply in_map. }
  assert (Ho : NoDup (map r_message_id (order_by by_ts_then_id (filter w t)))).
  { eapply Permutation_NoDup; [|exact Hf].
    apply Permutation_map. symmetry. apply order_by_perm. }
  unfold sql_limit, sql_offset.
  set (ordered := order_by by_ts_then_id (filter w t)) in *.
  assert (Hs : NoDup (map r_message_id (skipn (Z.to_nat offset) ordered))).
  { rewrite <- (firstn_skipn (Z.to_nat offset) ordered), map_app in Ho.
    now apply NoDup_app_remove_l in Ho. }
  destruct (limit <? 0); [exact Hs|].
  rewrite <- (firstn_skipn (Z.to_nat limit)
                (skipn (Z.to_nat offset) ordered)), map_app in Hs.
  now apply NoDup_app_remove_r in Hs.
Qed.

End StoredRows.

Lemma stored_rows_stay_valid_witness :
  Storage.primary_key
    (Storage.messages
       (snd (Main.deliver Sample.secret
               [(Storage.NoFault, "2025-02-01T08:00:00",
                 Sample.signed Sample.m1_body Sample.m1_object);
                (Storage.CommitFails OperationalError, "2025-02-01T08:00:05",
                 Sample.signed Sample.m1_later_body Sample.m1_later_object);
                (Storage.NoFault, "2025-02-01T08:00:09",
                 Sample.unsigned Sample.m5_body Sample.m5_object)]
               Sample.empty))).
Proof.
  refine (proj1 (stored_rows_stay_valid Sample.secret _ Sample.empty _ _)).
  - constructor.
  - constructor.
Defined.

Lemma page_has_no_repeats_witness :
  Storage.get_messages 2 0 None None (Some "world") Sample.three
  = Ok ([Sample.hello; Sample.goodbye], 2)
  /\ NoDup (map Models.r_message_id [Sample.hello; Sample.goodbye]).
Proof.
  split; [reflexivity|].
  apply (page_has_no_repeats 2 0 None None (Some "world") Sample.three)
    with (total := 2).
  - repeat constructor; cbn; intuition discriminate.
  - reflexivity.
Defined.
